(** * qr-products: content pipeline, checked against its specification

    A shallow embedding of the Python sources of the repository
    (content_generators.py, i18n_translator.py, generate_json_from_excel.py,
    generate_pages.py, merge_enriched_into_content.py, post_qc.py,
    premium_pass.py, enrich_products.py, app.py).

    Conventions of the embedding:
    - a Python [str] is the list of its Unicode code points ([pystr]);
    - a value read from or written to a JSON document is a [json] tree;
      a Python [dict] keeps its insertion order, hence an association list
      whose keys are unique and whose update keeps the position of a key;
    - a directory of files and the request-level cache are finite maps
      ([gmap]) from the file name to the document stored in it;
    - a call that raises in Python returns [None] here.  Where a value of a
      type the scripts never produce would be coerced silently by Python
      (a number handed to [str.format], a non-text dictionary key), the
      embedding also answers [None]; the places are marked. *)

From Stdlib Require Import Strings.String Strings.Ascii.
From stdpp Require Import base option list gmap numbers.

Local Open Scope N_scope.

(** ** Python text *)

Definition pystr := list N.

Fixpoint bytes_of (s : string) : list N :=
  match s with
  | EmptyString => []
  | String a r => N_of_ascii a :: bytes_of r
  end.

(** UTF-8 decoding, used to write the literals of the sources. *)
Fixpoint utf8_decode (bs : list N) : pystr :=
  match bs with
  | [] => []
  | b :: r =>
    if b <? 128 then b :: utf8_decode r
    else if b <? 224 then
      match r with
      | c1 :: r1 => ((b mod 32) * 64 + c1 mod 64) :: utf8_decode r1
      | _ => []
      end
    else if b <? 240 then
      match r with
      | c1 :: c2 :: r2 =>
        ((b mod 16) * 4096 + (c1 mod 64) * 64 + c2 mod 64) :: utf8_decode r2
      | _ => []
      end
    else
      match r with
      | c1 :: c2 :: c3 :: r3 =>
        ((b mod 8) * 262144 + (c1 mod 64) * 4096 + (c2 mod 64) * 64 + c3 mod 64)
          :: utf8_decode r3
      | _ => []
      end
  end.

Definition py (s : string) : pystr := utf8_decode (bytes_of s).
Arguments py s%_string.

(** The double quote. *)
Definition dq : pystr := [34].

Definition str_eqb (a b : pystr) : bool := bool_decide (a = b).

(** [str.isspace] of one code point; also the class [\s] of [re]. *)
Definition is_space (c : N) : bool :=
  ((9 <=? c) && (c <=? 13)) || ((28 <=? c) && (c <=? 32))
  || (c =? 133) || (c =? 160) || (c =? 5760)
  || ((8192 <=? c) && (c <=? 8202)) || (c =? 8232) || (c =? 8233)
  || (c =? 8239) || (c =? 8287) || (c =? 12288).

Fixpoint lstrip (s : pystr) : pystr :=
  match s with
  | c :: r => if is_space c then lstrip r else s
  | [] => []
  end.

Definition rstrip (s : pystr) : pystr := rev (lstrip (rev s)).

(** [s.strip()] *)
Definition py_strip (s : pystr) : pystr := rstrip (lstrip s).

Fixpoint starts_with (p s : pystr) : bool :=
  match p, s with
  | [], _ => true
  | a :: p', b :: s' => (a =? b) && starts_with p' s'
  | _ :: _, [] => false
  end.

(** [sub in s] *)
Fixpoint contains (sub s : pystr) : bool :=
  starts_with sub s ||
  match s with
  | [] => false
  | _ :: r => contains sub r
  end.

Fixpoint replace_go (old new : pystr) (skip : nat) (s : pystr) : pystr :=
  match s with
  | [] => []
  | c :: r =>
    match skip with
    | S k => replace_go old new k r
    | O =>
      if starts_with old s
      then new ++ replace_go old new (length old - 1)%nat r
      else c :: replace_go old new 0%nat r
    end
  end.

(** [s.replace(old, new)]: every occurrence, left to right, not overlapping. *)
Definition py_replace (old new s : pystr) : pystr :=
  match old with
  | [] => new ++ flat_map (fun c => c :: new) s
  | _ => replace_go old new 0%nat s
  end.

(** [s.split(sep)] for a separator of one code point. *)
Fixpoint split_on (sep : N) (cur : pystr) (s : pystr) : list pystr :=
  match s with
  | [] => [rev cur]
  | c :: r => if c =? sep then rev cur :: split_on sep [] r
              else split_on sep (c :: cur) r
  end.

Definition py_split (sep : N) (s : pystr) : list pystr := split_on sep [] s.

(** [re.sub(cls+, rep, s)]: every maximal run of the class becomes [rep]. *)
Fixpoint sub_runs (cls : N -> bool) (rep : pystr) (inrun : bool) (s : pystr)
  : pystr :=
  match s with
  | [] => []
  | c :: r =>
    if cls c
    then (if inrun then sub_runs cls rep true r
          else rep ++ sub_runs cls rep true r)
    else c :: sub_runs cls rep false r
  end.

Fixpoint alookup {A} (k : pystr) (l : list (pystr * A)) : option A :=
  match l with
  | [] => None
  | (k', v) :: r => if str_eqb k k' then Some v else alookup k r
  end.

(** [tpl.format] called with keyword arguments that are texts: [{name}] fields
    and the escapes [{{] and [}}].  A field that is not among the arguments,
    or an unbalanced brace, raises. *)
Fixpoint format_go (kw : list (pystr * pystr)) (field : option pystr)
  (tpl : pystr) : option pystr :=
  match tpl with
  | [] => match field with None => Some [] | Some _ => None end
  | c :: r =>
    match field with
    | Some acc =>
      if c =? 125 then
        v ← alookup (rev acc) kw;
        rest ← format_go kw None r;
        Some (v ++ rest)
      else format_go kw (Some (c :: acc)) r
    | None =>
      if c =? 123 then
        match r with
        | d :: r' =>
          if d =? 123 then rest ← format_go kw None r'; Some (123 :: rest)
          else format_go kw (Some []) r
        | [] => None
        end
      else if c =? 125 then
        match r with
        | d :: r' =>
          if d =? 125 then rest ← format_go kw None r'; Some (125 :: rest)
          else None
        | [] => None
        end
      else rest ← format_go kw None r; Some (c :: rest)
    end
  end.

Definition py_format (tpl : pystr) (kw : list (pystr * pystr)) : option pystr :=
  format_go kw None tpl.

(** ** JSON values and Python dictionaries *)

#[warnings="-register-all"] Inductive json :=
| JNull
| JBool (b : bool)
| JNum (n : Z)
| JStr (s : pystr)
| JArr (l : list json)
| JObj (kvs : list (pystr * json)).

Definition dict := list (pystr * json).

(** [d[k] = v]: an existing key keeps its place, a new one goes last. *)
Fixpoint dict_set (k : pystr) (v : json) (d : dict) : dict :=
  match d with
  | [] => [(k, v)]
  | (k', v') :: r =>
    if str_eqb k k' then (k, v) :: r else (k', v') :: dict_set k v r
  end.

Definition dict_has (k : pystr) (d : dict) : bool :=
  match alookup k d with Some _ => true | None => false end.

Definition dict_keys (d : dict) : list pystr := map fst d.

(** [d.update(e)] *)
Definition dict_update (d e : dict) : dict :=
  fold_left (fun acc kv => dict_set (fst kv) (snd kv) acc) e d.

(** [d.get(k, dflt)] *)
Definition dict_get (k : pystr) (dflt : json) (d : dict) : json :=
  match alookup k d with Some v => v | None => dflt end.

(** [bool(x)] *)
Definition truthy (x : json) : bool :=
  match x with
  | JNull => false
  | JBool b => b
  | JNum n => negb (n =? 0)%Z
  | JStr s => match s with [] => false | _ => true end
  | JArr l => match l with [] => false | _ => true end
  | JObj d => match d with [] => false | _ => true end
  end.

(** [x or y] *)
Definition py_or (x y : json) : json := if truthy x then x else y.

(** A text that the UTF-8 codec encodes: it holds no surrogate (U+D800 to
    U+DFFF), which [json.loads] builds from a lone escape. *)
Definition utf8_text (s : pystr) : bool :=
  forallb (fun c => (c <? 55296) || (57343 <? c)) s.

(** A value whose text by [json.dumps] with [ensure_ascii=False] can be
    written to a file opened with the UTF-8 encoding. *)
Fixpoint utf8_json (x : json) : bool :=
  match x with
  | JStr s => utf8_text s
  | JArr l => forallb utf8_json l
  | JObj d => forallb (fun kv => utf8_text (fst kv) && utf8_json (snd kv)) d
  | _ => true
  end.

(** [len(x)]; a number, a boolean and [None] have no length. *)
Definition py_len (x : json) : option nat :=
  match x with
  | JStr s => Some (length s)
  | JArr l => Some (length l)
  | JObj d => Some (length d)
  | _ => None
  end.

(** [x == y]: dictionaries compare without regard to order, a boolean equals
    the number 0 or 1. *)
Fixpoint py_eq (x y : json) : bool :=
  match x, y with
  | JNull, JNull => true
  | JBool a, JBool b => bool_decide (a = b)
  | JBool a, JNum n | JNum n, JBool a => (n =? (if a then 1 else 0))%Z
  | JNum n, JNum m => (n =? m)%Z
  | JStr s, JStr t => str_eqb s t
  | JArr l, JArr m =>
    (fix go (l m : list json) : bool :=
       match l, m with
       | [], [] => true
       | a :: l', b :: m' => py_eq a b && go l' m'
       | _, _ => false
       end) l m
  | JObj d, JObj e =>
    (length d =? length e)%nat &&
    (fix all (d : dict) : bool :=
       match d with
       | [] => true
       | (k, v) :: d' =>
         match alookup k e with
         | Some w => py_eq v w
         | None => false
         end && all d'
       end) d
  | _, _ => false
  end.

Definition as_str (x : json) : option pystr :=
  match x with JStr s => Some s | _ => None end.

Definition as_dict (x : json) : option dict :=
  match x with JObj d => Some d | _ => None end.

Definition as_list (x : json) : option (list json) :=
  match x with JArr l => Some l | _ => None end.

(** [x.get(k, dflt)] on a value that has to be a dictionary. *)
Definition py_get (x : json) (k : pystr) (dflt : json) : option json :=
  d ← as_dict x; Some (dict_get k dflt d).

(** [for x in v]: the elements of a list, the characters of a text, the keys
    of a dictionary; anything else is not iterable. *)
Definition py_iter (v : json) : option (list json) :=
  match v with
  | JArr l => Some l
  | JStr s => Some (map (fun c => JStr [c]) s)
  | JObj d => Some (map (fun kv => JStr (fst kv)) d)
  | _ => None
  end.

(** ** content_generators.py *)

Module content_generators.

Definition SECTION_TITLES : dict :=
  [ (py "en",
     JObj
       [ (py "description_title", JStr (py "Description"));
         (py "ingredients_title", JStr (py "Ingredients"));
         (py "precautions_title", JStr (py "Consumption precautions"));
         (py "history_title", JStr (py "History")) ]);
    (py "ru",
     JObj
       [ (py "description_title", JStr (py "Описание"));
         (py "ingredients_title", JStr (py "Ингредиенты"));
         (py "precautions_title", JStr (py "Предостережения"));
         (py "history_title", JStr (py "История")) ]);
    (py "ua",
     JObj
       [ (py "description_title", JStr (py "Опис"));
         (py "ingredients_title", JStr (py "Інгредієнти"));
         (py "precautions_title", JStr (py "Застереження"));
         (py "history_title", JStr (py "Історія")) ]);
    (py "de",
     JObj
       [ (py "description_title", JStr (py "Beschreibung"));
         (py "ingredients_title", JStr (py "Zutaten"));
         (py "precautions_title", JStr (py "Hinweise"));
         (py "history_title", JStr (py "Geschichte")) ]);
    (py "es",
     JObj
       [ (py "description_title", JStr (py "Descripción"));
         (py "ingredients_title", JStr (py "Ingredientes"));
         (py "precautions_title", JStr (py "Advertencias"));
         (py "history_title", JStr (py "Historia")) ]);
    (py "it",
     JObj
       [ (py "description_title", JStr (py "Descrizione"));
         (py "ingredients_title", JStr (py "Ingredienti"));
         (py "precautions_title", JStr (py "Avvertenze"));
         (py "history_title", JStr (py "Storia")) ]);
    (py "hr",
     JObj
       [ (py "description_title", JStr (py "Opis"));
         (py "ingredients_title", JStr (py "Sastojci"));
         (py "precautions_title", JStr (py "Upozorenja"));
         (py "history_title", JStr (py "Povijest")) ]);
    (py "hu",
     JObj
       [ (py "description_title", JStr (py "Leírás"));
         (py "ingredients_title", JStr (py "Összetevők"));
         (py "precautions_title", JStr (py "Figyelmeztetések"));
         (py "history_title", JStr (py "Történet")) ]) ].

Definition TEXT_en_description : pystr :=
  py "{title} is produced using traditional methods. Made in {country}, it reflects the heritage and expertise of the brand.".

Definition TEXT_en_ingredients : pystr :=
  py "Ingredients may vary depending on the product. Please refer to the packaging for details.".

Definition TEXT_en_precautions : pystr :=
  py "Store according to package instructions. Check the label for allergen information.".

Definition TEXT_en_history : list (pystr * pystr) :=
  [ (py "Origins", py "The {brand} brand was founded in {country}.");
    (py "Development", py "Over time, {brand} expanded its range.");
    (py "Today", py "Today, {brand} products are enjoyed worldwide.") ].


(** The dictionary handed to [en_block.update], from the title, the brand
    and the country. *)
Definition en_values (title brand country : pystr) : option dict :=
  sections ← alookup (py "en") SECTION_TITLES;
  description ← py_format TEXT_en_description
                  [(py "title", title); (py "country", country)];
  history ← mapM (fun yt : pystr * pystr =>
                    text ← py_format (snd yt)
                             [(py "brand", brand); (py "country", country)];
                    Some (JObj [(py "year", JStr (fst yt));
                                (py "text", JStr text)]))
                 TEXT_en_history;
  Some [ (py "title", JStr title);
         (py "sections", sections);
         (py "description", JStr description);
         (py "ingredients", JStr TEXT_en_ingredients);
         (py "precautions", JStr TEXT_en_precautions);
         (py "history", JArr history) ].

(** [title], [brand] and [country] go through [str.format]: a value that is
    not a text is outside the embedding. *)
Definition en_fields (product : dict) : option dict :=
  name ← as_str (dict_get (py "name") (JStr []) product);
  title ← as_str (py_or (JStr (py_strip name))
                        (dict_get (py "brand") (JStr []) product));
  brand ← as_str (dict_get (py "brand") (JStr []) product);
  country ← as_str (dict_get (py "country_of_origin") (JStr []) product);
  en_values title brand country.

Definition generate_en_content (product en_block : dict) : option dict :=
  fields ← en_fields product;
  Some (dict_update en_block fields).

(** *** The earlier localizer of this module *)

(** An entry of [TEXT]. *)
Record text_entry := {
  t_description : pystr;
  t_ingredients : pystr;
  t_precautions : pystr;
  t_history : list (pystr * pystr)
}.

Definition TEXT : list (pystr * text_entry) :=
  [ (py "en",
     {| t_description := TEXT_en_description;
        t_ingredients := TEXT_en_ingredients;
        t_precautions := TEXT_en_precautions;
        t_history := TEXT_en_history |});
    (py "ru",
     {| t_description := py "{title} производится с использованием традиционных методов. Произведено в {country}, отражает экспертизу бренда.";
        t_ingredients := py "Состав может отличаться в зависимости от продукта. Подробную информацию смотрите на упаковке.";
        t_precautions := py "Хранить в соответствии с указаниями на упаковке. Проверьте информацию об аллергенах.";
        t_history :=
          [
            (py "Истоки", py "Бренд {brand} был основан в {country}.");
            (py "Развитие", py "Со временем бренд {brand} расширил ассортимент.");
            (py "Сегодня", py "Сегодня продукция бренда {brand} известна во многих странах.") ] |});
    (py "ua",
     {| t_description := py "{title} виготовляється з використанням традиційних методів. Вироблено в {country}, відображає експертизу бренду.";
        t_ingredients := py "Склад може відрізнятися залежно від продукту. Детальну інформацію дивіться на упаковці.";
        t_precautions := py "Зберігати відповідно до інструкцій на упаковці. Перевірте інформацію про алергени.";
        t_history :=
          [
            (py "Походження", py "Бренд {brand} був заснований у {country}.");
            (py "Розвиток", py "З часом бренд {brand} розширив асортимент.");
            (py "Сьогодні", py "Сьогодні продукція бренду {brand} відома у багатьох країнах.") ] |}) ].

(** The block stored under [lang]: the copy of [en] with the members assigned
    in the loop, in the order of the assignments.  A language without an
    entry in [TEXT] takes the English one. *)
Definition i18n_block (en : dict) (title brand country lang : pystr)
  : option dict :=
  sections ← alookup lang SECTION_TITLES;
  en_text ← alookup (py "en") TEXT;
  let base := default en_text (alookup lang TEXT) in
  description ← py_format (t_description base)
                  [(py "title", title); (py "country", country)];
  history ← mapM (fun yt : pystr * pystr =>
                    text ← py_format (snd yt)
                             [(py "brand", brand); (py "country", country)];
                    Some (JObj [(py "year", JStr (fst yt));
                                (py "text", JStr text)]))
                 (t_history base);
  Some (dict_update en
          [ (py "title", JStr title);
            (py "sections", sections);
            (py "description", JStr description);
            (py "ingredients", JStr (t_ingredients base));
            (py "precautions", JStr (t_precautions base));
            (py "history", JArr history) ]).

(** [generate_i18n_from_en] of this module (the generator calls the one of
    i18n_translator.py).  The brand, the country and the title go through
    [str.format]: a value that is not a text is outside the embedding. *)
Definition generate_i18n_from_en (data : dict) : option dict :=
  i18n ← alookup (py "i18n") data ≫= as_dict;
  en ← alookup (py "en") i18n ≫= as_dict;
  brand ← as_str (dict_get (py "brand") (JStr []) data);
  country ← as_str (dict_get (py "country_of_origin") (JStr []) data);
  title ← alookup (py "title") en ≫= as_str;
  blocks ← mapM (fun lang =>
                   block ← i18n_block en title brand country lang;
                   Some (lang, JObj block))
                [py "ru"; py "ua"; py "de"; py "es"; py "it"; py "hr";
                 py "hu"];
  Some (dict_set (py "i18n") (JObj (dict_update i18n blocks)) data).

End content_generators.

(** ** i18n_translator.py *)

Module i18n_translator.


Definition LANGS : list pystr :=
  [ py "ru"; py "ua"; py "de"; py "es"; py "it"; py "hr"; py "hu" ].

Definition SECTION_TITLES : dict :=
  [ (py "ru",
     JObj
       [ (py "description_title", JStr (py "Описание"));
         (py "ingredients_title", JStr (py "Ингредиенты"));
         (py "precautions_title", JStr (py "Предостережения"));
         (py "history_title", JStr (py "История")) ]);
    (py "ua",
     JObj
       [ (py "description_title", JStr (py "Опис"));
         (py "ingredients_title", JStr (py "Інгредієнти"));
         (py "precautions_title", JStr (py "Застереження"));
         (py "history_title", JStr (py "Історія")) ]);
    (py "de",
     JObj
       [ (py "description_title", JStr (py "Beschreibung"));
         (py "ingredients_title", JStr (py "Zutaten"));
         (py "precautions_title", JStr (py "Hinweise"));
         (py "history_title", JStr (py "Geschichte")) ]);
    (py "es",
     JObj
       [ (py "description_title", JStr (py "Descripción"));
         (py "ingredients_title", JStr (py "Ingredientes"));
         (py "precautions_title", JStr (py "Advertencias"));
         (py "history_title", JStr (py "Historia")) ]);
    (py "it",
     JObj
       [ (py "description_title", JStr (py "Descrizione"));
         (py "ingredients_title", JStr (py "Ingredienti"));
         (py "precautions_title", JStr (py "Avvertenze"));
         (py "history_title", JStr (py "Storia")) ]);
    (py "hr",
     JObj
       [ (py "description_title", JStr (py "Opis"));
         (py "ingredients_title", JStr (py "Sastojci"));
         (py "precautions_title", JStr (py "Upozorenja"));
         (py "history_title", JStr (py "Povijest")) ]);
    (py "hu",
     JObj
       [ (py "description_title", JStr (py "Leírás"));
         (py "ingredients_title", JStr (py "Összetevők"));
         (py "precautions_title", JStr (py "Figyelmeztetések"));
         (py "history_title", JStr (py "Történet")) ]) ].

Definition META_LABELS : dict :=
  [ (py "ru",
     JObj
       [ (py "brand", JStr (py "Бренд"));
         (py "country_of_origin", JStr (py "Страна происхождения"));
         (py "category", JStr (py "Категория"));
         (py "size", JStr (py "Размер"));
         (py "alcohol_content", JStr (py "Содержание алкоголя"));
         (py "sku", JStr (py "SKU")) ]);
    (py "ua",
     JObj
       [ (py "brand", JStr (py "Бренд"));
         (py "country_of_origin", JStr (py "Країна походження"));
         (py "category", JStr (py "Категорія"));
         (py "size", JStr (py "Розмір"));
         (py "alcohol_content", JStr (py "Вміст алкоголю"));
         (py "sku", JStr (py "SKU")) ]);
    (py "de",
     JObj
       [ (py "brand", JStr (py "Marke"));
         (py "country_of_origin", JStr (py "Herkunftsland"));
         (py "category", JStr (py "Kategorie"));
         (py "size", JStr (py "Größe"));
         (py "alcohol_content", JStr (py "Alkoholgehalt"));
         (py "sku", JStr (py "SKU")) ]);
    (py "es",
     JObj
       [ (py "brand", JStr (py "Marca"));
         (py "country_of_origin", JStr (py "País de origen"));
         (py "category", JStr (py "Categoría"));
         (py "size", JStr (py "Tamaño"));
         (py "alcohol_content", JStr (py "Graduación alcohólica"));
         (py "sku", JStr (py "SKU")) ]);
    (py "it",
     JObj
       [ (py "brand", JStr (py "Marca"));
         (py "country_of_origin", JStr (py "Paese d'origine"));
         (py "category", JStr (py "Categoria"));
         (py "size", JStr (py "Formato"));
         (py "alcohol_content", JStr (py "Contenuto alcolico"));
         (py "sku", JStr (py "SKU")) ]);
    (py "hr",
     JObj
       [ (py "brand", JStr (py "Brend"));
         (py "country_of_origin", JStr (py "Zemlja podrijetla"));
         (py "category", JStr (py "Kategorija"));
         (py "size", JStr (py "Veličina"));
         (py "alcohol_content", JStr (py "Sadržaj alkohola"));
         (py "sku", JStr (py "SKU")) ]);
    (py "hu",
     JObj
       [ (py "brand", JStr (py "Márka"));
         (py "country_of_origin", JStr (py "Származási ország"));
         (py "category", JStr (py "Kategória"));
         (py "size", JStr (py "Méret"));
         (py "alcohol_content", JStr (py "Alkoholtartalom"));
         (py "sku", JStr (py "SKU")) ]) ].

Definition DESC_TPL : list (pystr * pystr) :=
  [ (py "ru",
     py "{name} — продукт бренда {brand}, произведённый в {country}. Изготовлен традиционными методами и отличается стабильным качеством. Удобный формат {size} подходит как для повседневного использования, так и для особых случаев.");
    (py "ua",
     py "{name} — продукт бренду {brand}, виготовлений у {country}. Створений традиційними методами та вирізняється стабільною якістю. Зручний формат {size} підходить і для щоденного використання, і для особливих моментів.");
    (py "de",
     py "{name} ist ein Produkt der Marke {brand} aus {country}. Nach traditionellen Methoden hergestellt und für gleichbleibende Qualität bekannt. Das Format {size} eignet sich sowohl für den Alltag als auch für besondere Anlässe.");
    (py "es",
     py "{name} es un producto de la marca {brand} elaborado en {country}. Se produce con métodos tradicionales y destaca por su calidad constante. Su formato {size} es ideal para el día a día y ocasiones especiales.");
    (py "it",
     py "{name} è un prodotto del marchio {brand} realizzato in {country}. Prodotto con metodi tradizionali e noto per la qualità costante. Il formato {size} è perfetto sia per l’uso quotidiano sia per le occasioni speciali.");
    (py "hr",
     py "{name} je proizvod brenda {brand} proizveden u {country}. Izrađen tradicionalnim metodama i poznat po ujednačenoj kvaliteti. Format {size} prikladan je za svakodnevnu upotrebu i posebne prilike.");
    (py "hu",
     py "A(z) {name} a {brand} márka terméke {country} területéről. Hagyományos eljárással készül, megbízható minőséggel. A(z) {size} kiszerelés a mindennapokra és különleges alkalmakra is ideális.") ].

Definition ING_TEXT : list (pystr * pystr) :=
  [ (py "ru",
     py "Состав может отличаться в зависимости от продукта. См. упаковку.");
    (py "ua",
     py "Склад може відрізнятися залежно від продукту. Див. упаковку.");
    (py "de",
     py "Die Zutaten können je nach Produkt variieren. Siehe Verpackung.");
    (py "es",
     py "Los ingredientes pueden variar según el producto. Consulte el envase.");
    (py "it",
     py "Gli ingredienti possono variare a seconda del prodotto. Vedi confezione.");
    (py "hr",
     py "Sastojci se mogu razlikovati ovisno o proizvodu. Pogledajte pakiranje.");
    (py "hu",
     py "Az összetevők termékenként eltérhetnek. Lásd a csomagolást.") ].

Definition PREC_TEXT : list (pystr * pystr) :=
  [ (py "ru",
     py "Хранить согласно указаниям на упаковке. Проверьте аллергенную информацию.");
    (py "ua",
     py "Зберігати згідно з інструкціями на упаковці. Перевірте алергени.");
    (py "de",
     py "Gemäß den Anweisungen auf der Verpackung lagern. Allergenhinweise prüfen.");
    (py "es",
     py "Conservar según las instrucciones del envase. Verifique alérgenos.");
    (py "it",
     py "Conservare secondo le istruzioni sulla confezione. Verificare allergeni.");
    (py "hr",
     py "Čuvati prema uputama na pakiranju. Provjeriti alergene.");
    (py "hu",
     py "A csomagolás szerint tárolandó. Ellenőrizze az allergéneket.") ].

Definition HIST_TPL : list (pystr * list pystr) :=
  [ (py "ru",
     [ py "Бренд {brand} был основан в {country}.";
       py "Со временем бренд {brand} расширил ассортимент.";
       py "Сегодня продукция {brand} известна и любима во многих странах." ]);
    (py "ua",
     [ py "Бренд {brand} був заснований у {country}.";
       py "З часом бренд {brand} розширив асортимент.";
       py "Сьогодні продукція {brand} відома у багатьох країнах." ]);
    (py "de",
     [ py "Die Marke {brand} wurde in {country} gegründet.";
       py "Im Laufe der Zeit erweiterte {brand} sein Sortiment.";
       py "Heute werden {brand} Produkte weltweit geschätzt." ]);
    (py "es",
     [ py "La marca {brand} fue fundada en {country}.";
       py "Con el tiempo, {brand} amplió su gama de productos.";
       py "Hoy, los productos {brand} se disfrutan en todo el mundo." ]);
    (py "it",
     [ py "Il marchio {brand} è stato fondato in {country}.";
       py "Nel tempo, {brand} ha ampliato la sua gamma.";
       py "Oggi i prodotti {brand} sono apprezzati in tutto il mondo." ]);
    (py "hr",
     [ py "Marka {brand} osnovana je u {country}.";
       py "S vremenom je {brand} proširio svoj asortiman.";
       py "Danas se proizvodi {brand} koriste diljem svijeta." ]);
    (py "hu",
     [ py "A {brand} márkát {country} területén alapították.";
       py "Idővel a {brand} kibővítette termékkínálatát.";
       py "Ma a {brand} termékeket világszerte élvezik." ]) ].

(** [[h.get(year, empty) for h in en.get(history, [])]] *)
Definition history_years (en : dict) : option (list json) :=
  hs ← py_iter (dict_get (py "history") (JArr []) en);
  mapM (fun h => py_get h (py "year") (JStr [])) hs.

(** The body of the loop over [LANGS]: the members assigned to the copy of
    the English block, in the order of the assignments. *)
Definition localized_fields (name brand country size : pystr)
  (years : list json) (lang : pystr) : option dict :=
  sections ← alookup lang SECTION_TITLES;
  meta ← alookup lang META_LABELS;
  desc_tpl ← alookup lang DESC_TPL;
  description ← py_format desc_tpl
                  [ (py "name", name); (py "brand", brand);
                    (py "country", country); (py "size", size) ];
  ingredients ← alookup lang ING_TEXT;
  precautions ← alookup lang PREC_TEXT;
  hist_tpl ← alookup lang HIST_TPL;
  history_out ←
    mapM (fun it : nat * pystr =>
            text ← py_format (snd it)
                     [(py "brand", brand); (py "country", country)];
            Some (JObj [ (py "year", default (JStr []) (years !! fst it));
                         (py "text", JStr text) ]))
         (imap pair hist_tpl);
  Some [ (py "sections", sections);
         (py "meta", meta);
         (py "title", JStr name);
         (py "description", JStr description);
         (py "ingredients", JStr ingredients);
         (py "precautions", JStr precautions);
         (py "history", JArr history_out) ].

(** The block stored under [lang]: the copy of [en] with these members. *)
Definition localized_block (en : dict) (name brand country size : pystr)
  (years : list json) (lang : pystr) : option dict :=
  fields ← localized_fields name brand country size years lang;
  Some (dict_update en fields).

Definition generate_i18n_from_en (data : dict) : option dict :=
  i18n ← alookup (py "i18n") data ≫= as_dict;
  en ← alookup (py "en") i18n ≫= as_dict;
  name ← as_str (py_or (py_or (dict_get (py "name") JNull data)
                              (dict_get (py "title") JNull en))
                       (JStr []));
  brand ← as_str (py_or (dict_get (py "brand") JNull data) (JStr []));
  country ← as_str (py_or (dict_get (py "country_of_origin") JNull data)
                          (JStr []));
  size ← as_str (py_or (dict_get (py "size") JNull data) (JStr []));
  years ← history_years en;
  blocks ← mapM (fun lang =>
                   block ← localized_block en (py_strip name) (py_strip brand)
                             (py_strip country) (py_strip size) years lang;
                   Some (lang, JObj block))
                LANGS;
  Some (dict_set (py "i18n") (JObj (dict_update i18n blocks)) data).

End i18n_translator.

(** ** generate_json_from_excel.py *)

Module generate_json_from_excel.

(** The class of [re.sub] in [safe_filename]: backslash, slash, colon, star,
    question mark, double quote, angle brackets and bar. *)
Definition forbidden (c : N) : bool :=
  (c =? 92) || (c =? 47) || (c =? 58) || (c =? 42) || (c =? 63)
  || (c =? 34) || (c =? 60) || (c =? 62) || (c =? 124).

Definition safe_filename (value : pystr) : pystr :=
  let value := py_strip value in
  let value := py_replace (py ".0") [] value in
  let value := sub_runs forbidden (py "-") false value in
  sub_runs is_space (py " ") false value.

(** A row of the sheet: the text of each cell, by column name. *)
Definition row := list (pystr * pystr).

Definition cell (r : row) (col : pystr) : pystr :=
  py_strip (default [] (alookup col r)).

(** [[t.strip() for t in tags.split(comma) if t.strip()]] *)
Definition split_tags (tags : pystr) : list json :=
  map (fun t => JStr (py_strip t))
      (filter (fun t => py_strip t <> []) (py_split 44 tags)).

Definition OUTPUT_DIR : pystr := py "content".

(** One turn of the main loop: [None] when the row is skipped, else the
    file written and the document in it.  [template] is the parsed
    template_product.json, which is not part of the sources. *)
Definition process_row (template : dict) (r : row)
  : option (option (pystr * dict)) :=
  let sku_raw := cell r (py "SKU ID") in
  match sku_raw with
  | [] => Some None
  | _ =>
    let sku := safe_filename sku_raw in
    let product := template in
    let product := dict_set (py "sku") (JStr sku) product in
    let product := dict_set (py "name") (JStr (cell r (py "SKU Name"))) product in
    let product := dict_set (py "brand") (JStr (cell r (py "Brand"))) product in
    let product := dict_set (py "country_of_origin")
                     (JStr (cell r (py "Country"))) product in
    let product := dict_set (py "category")
                     (JStr (cell r (py "Department"))) product in
    let product := dict_set (py "size") (JStr (cell r (py "Size"))) product in
    let product := dict_set (py "alcohol_content") (JStr []) product in
    let product := dict_set (py "image")
                     (JStr (py "../../assets/" ++ sku ++ py ".jpg")) product in
    let product := dict_set (py "tags")
                     (JArr (split_tags (cell r (py "Tags")))) product in
    i18n ← alookup (py "i18n") product;
    en0 ← py_get i18n (py "en") (JObj []);
    let product := dict_set (py "i18n") (JObj [(py "en", en0)]) product in
    en_block ← as_dict en0;
    en ← content_generators.generate_en_content product en_block;
    let product := dict_set (py "i18n") (JObj [(py "en", JObj en)]) product in
    product ← i18n_translator.generate_i18n_from_en product;
    Some (Some (OUTPUT_DIR ++ py "/" ++ sku ++ py ".json", product))
  end.

End generate_json_from_excel.

(** ** generate_pages.py *)

Module generate_pages.

Definition PRODUCTS_DIR : pystr := py "products".

Definition LANG_MAP : list (pystr * pystr) :=
  [ (py "en", py "index.html");
    (py "ru", py "ru.html");
    (py "ua", py "ua.html");
    (py "de", py "de.html");
    (py "es", py "es.html");
    (py "it", py "it.html");
    (py "hr", py "hr.html");
    (py "hu", py "hu.html") ].

(** [tags_html]: one span per tag.  A tag goes through an f-string: a value
    that is not a text is outside the embedding. *)
Definition tags_html (data : dict) : option pystr :=
  tags ← py_iter (dict_get (py "tags") (JArr []) data);
  spans ← mapM (fun tag => t ← as_str tag;
                  Some (py "<span class=" ++ dq ++ py "tag" ++ dq ++ py ">"
                          ++ t ++ py "</span>")) tags;
  Some (concat spans).

(** A key given to [dict.get]: a text is looked up, a list or a dictionary
    is not hashable, any other value is no key of a JSON object. *)
Definition get_by (key : json) (dflt : json) (d : dict) : option json :=
  match key with
  | JStr k => Some (dict_get k dflt d)
  | JArr _ | JObj _ => None
  | _ => Some dflt
  end.

Definition history_item (history_labels : dict) (h : json) : option pystr :=
  key ← py_get h (py "key") (JStr []);
  label ← get_by key (JStr []) history_labels;
  text ← py_get h (py "text") (JStr []);
  if truthy text then
    text ← as_str text;
    year ← (if truthy label
            then l ← as_str label;
                 Some (py "<span class=" ++ dq ++ py "year" ++ dq ++ py ">"
                         ++ l ++ py "</span>")
            else Some []);
    Some (py "<div class=" ++ dq ++ py "history-item" ++ dq ++ py ">"
            ++ year ++ py "<p>" ++ text ++ py "</p>" ++ py "</div>")
  else Some [].

Definition history_html (i18n : dict) : option pystr :=
  history_labels ← as_dict (dict_get (py "history_labels") (JObj []) i18n);
  hs ← py_iter (dict_get (py "history") (JArr []) i18n);
  items ← mapM (history_item history_labels) hs;
  Some (concat items).

Definition text_of (d : dict) (k : pystr) : option pystr :=
  as_str (dict_get k (JStr []) d).

(** The page of one language. *)
Definition page (TEMPLATE : pystr) (data : dict) (sku product_name : pystr)
  (lang : pystr) : option pystr :=
  all ← alookup (py "i18n") data;
  i18n ← py_get all lang (JObj []) ≫= as_dict;
  sections ← as_dict (dict_get (py "sections") (JObj []) i18n);
  meta ← as_dict (dict_get (py "meta") (JObj []) i18n);
  tags ← tags_html data;
  history ← history_html i18n;
  brand_label ← text_of meta (py "brand");
  country_label ← text_of meta (py "country_of_origin");
  category_label ← text_of meta (py "category");
  size_label ← text_of meta (py "size");
  alcohol_label ← text_of meta (py "alcohol_content");
  brand ← text_of data (py "brand");
  country ← text_of data (py "country_of_origin");
  category ← text_of data (py "category");
  size ← text_of data (py "size");
  alcohol ← text_of data (py "alcohol_content");
  desc_title ← text_of sections (py "description_title");
  ing_title ← text_of sections (py "ingredients_title");
  prec_title ← text_of sections (py "precautions_title");
  history_title ← text_of sections (py "history_title");
  description ← text_of i18n (py "description");
  ingredients ← text_of i18n (py "ingredients");
  precautions ← text_of i18n (py "precautions");
  Some (py_replace (py "{{HISTORY_ITEMS}}") history
       (py_replace (py "{{PRECAUTIONS}}") precautions
       (py_replace (py "{{INGREDIENTS}}") ingredients
       (py_replace (py "{{DESCRIPTION}}") description
       (py_replace (py "{{HISTORY_TITLE}}") history_title
       (py_replace (py "{{PREC_TITLE}}") prec_title
       (py_replace (py "{{ING_TITLE}}") ing_title
       (py_replace (py "{{DESC_TITLE}}") desc_title
       (py_replace (py "{{SKU}}") sku
       (py_replace (py "{{ALCOHOL}}") alcohol
       (py_replace (py "{{SIZE}}") size
       (py_replace (py "{{CATEGORY}}") category
       (py_replace (py "{{COUNTRY}}") country
       (py_replace (py "{{BRAND}}") brand
       (py_replace (py "{{ALCOHOL_LABEL}}") alcohol_label
       (py_replace (py "{{SIZE_LABEL}}") size_label
       (py_replace (py "{{CATEGORY_LABEL}}") category_label
       (py_replace (py "{{COUNTRY_LABEL}}") country_label
       (py_replace (py "{{BRAND_LABEL}}") brand_label
       (py_replace (py "{{TAGS}}") tags
       (py_replace (py "{{TITLE}}") product_name
          TEMPLATE))))))))))))))))))))).

(** One turn of the loop over the content files: the files written, each
    with its text.  The SKU goes through [str]: a value that is not a text is
    outside the embedding.  The directory of a product is [PRODUCTS_DIR / sku],
    written here for a SKU that is one path component. *)
Definition render_product (TEMPLATE : pystr) (data : dict)
  : option (list (pystr * pystr)) :=
  sku ← text_of data (py "sku");
  let sku := py_strip sku in
  match sku with
  | [] => Some []
  | _ =>
    product_name ← as_str
      (py_or (py_or (py_or (dict_get (py "name") JNull data)
                           (dict_get (py "sku_name") JNull data))
                    (dict_get (py "title") JNull data))
             (JStr []));
    mapM (fun lf : pystr * pystr =>
            html ← page TEMPLATE data sku product_name (fst lf);
            Some (PRODUCTS_DIR ++ py "/" ++ sku ++ py "/" ++ snd lf, html))
         LANG_MAP
  end.

(** The tree of pages after the writes. *)
Definition write_all (files : gmap pystr pystr) (ws : list (pystr * pystr))
  : gmap pystr pystr :=
  fold_left (fun fs w => <[ fst w := snd w ]> fs) ws files.

End generate_pages.

(** ** The tables of the Python runtime

    Case mapping and the word class of [re] depend on the Unicode database,
    which is not part of the sources: they are parameters of the embedding. *)

Record unicode := {
  (** [str.upper], code point by code point (a code point may expand) *)
  uni_upper : N -> pystr;
  (** [str.lower] of a whole text (the final sigma depends on its context) *)
  uni_lower : pystr -> pystr;
  (** the class [\w] of [re] *)
  uni_word : N -> bool;
  (** a literal of a pattern compiled with IGNORECASE against a code point *)
  uni_fold : N -> N -> bool
}.

Definition py_upper (U : unicode) (s : pystr) : pystr :=
  flat_map (uni_upper U) s.

Definition ascii_upper (c : N) : N :=
  if (97 <=? c) && (c <=? 122) then c - 32 else c.

Definition ascii_lower (c : N) : N :=
  if (65 <=? c) && (c <=? 90) then c + 32 else c.

Definition ascii_alnum (c : N) : bool :=
  ((48 <=? c) && (c <=? 57)) || ((65 <=? c) && (c <=? 90))
  || ((97 <=? c) && (c <=? 122)).

Definition ascii_letter (c : N) : bool :=
  ((65 <=? c) && (c <=? 90)) || ((97 <=? c) && (c <=? 122)).

(** What the proofs use of the tables; the tables of CPython satisfy it. *)
Record unicode_ok (U : unicode) : Prop := {
  upper_ascii : forall c, c < 128 -> uni_upper U c = [ascii_upper c];
  word_ascii : forall c, c < 128 -> uni_word U c = ascii_alnum c || (c =? 95);
  fold_ascii : forall p c, p < 128 -> c < 128 ->
    uni_fold U p c = (ascii_lower p =? ascii_lower c);
  fold_word : forall p c, ascii_letter p = true -> uni_fold U p c = true ->
    uni_word U c = true
}.

(** The tables cut down to ASCII: texts of ASCII characters behave under them
    as under the full tables. *)
Definition ascii_tables : unicode := {|
  uni_upper := fun c => [ascii_upper c];
  uni_lower := map ascii_lower;
  uni_word := fun c => (c <? 128) && (ascii_alnum c || (c =? 95));
  uni_fold := fun p c => (c <? 128) && (ascii_lower p =? ascii_lower c)
|}.

(** ** Patterns of the form [\bword\b] compiled with IGNORECASE *)

Section regex.

Context (U : unicode).

Definition is_wordb (o : option N) : bool :=
  match o with Some c => uni_word U c | None => false end.

(** [\b] between the code point before and the code point after, either of
    which is missing at an end of the text. *)
Definition boundary (prev next : option N) : bool :=
  xorb (is_wordb prev) (is_wordb next).

(** The literal part at the head of [s]: the last code point consumed and
    the rest of the text. *)
Fixpoint match_lit (pat : pystr) (prev : option N) (s : pystr)
  : option (option N * pystr) :=
  match pat with
  | [] => Some (prev, s)
  | p :: pat' =>
    match s with
    | c :: s' => if uni_fold U p c then match_lit pat' (Some c) s' else None
    | [] => None
    end
  end.

Definition match_word (pat : pystr) (prev : option N) (s : pystr) : bool :=
  boundary prev (head s) &&
  match match_lit pat prev s with
  | Some (l, rest) => boundary l (head rest)
  | None => false
  end.

(** [re.search] of the pattern in [s], which follows [prev]. *)
Fixpoint re_search_word (pat : pystr) (prev : option N) (s : pystr) : bool :=
  match_word pat prev s ||
  match s with
  | [] => false
  | c :: r => re_search_word pat (Some c) r
  end.

Fixpoint re_sub_go (pat rep : pystr) (skip : nat) (prev : option N)
  (s : pystr) : pystr :=
  match s with
  | [] => []
  | c :: r =>
    match skip with
    | S k => re_sub_go pat rep k (Some c) r
    | O =>
      if match_word pat prev s
      then rep ++ re_sub_go pat rep (length pat - 1)%nat (Some c) r
      else c :: re_sub_go pat rep 0%nat (Some c) r
    end
  end.

(** [re.sub] of the pattern (a word that is not empty) by [rep]: the matches
    from left to right, not overlapping. *)
Definition re_sub_word (pat rep s : pystr) : pystr :=
  re_sub_go pat rep 0%nat None s.

(** The same, seen word by word (a word is a maximal run of [\w]): the
    literal against a whole word, the words rewritten by [g], and the search
    for a word that satisfies [P].  [acc] is the word being read, reversed. *)
Fixpoint fold_eq (pat w : pystr) : bool :=
  match pat, w with
  | [], [] => true
  | p :: pat', c :: w' => uni_fold U p c && fold_eq pat' w'
  | _, _ => false
  end.

Definition replace_word (pat rep w : pystr) : pystr :=
  if fold_eq pat w then rep else w.

Fixpoint map_words (g : pystr -> pystr) (acc s : pystr) : pystr :=
  match s with
  | [] => g (rev acc)
  | c :: r =>
    if uni_word U c then map_words g (c :: acc) r
    else g (rev acc) ++ c :: map_words g [] r
  end.

Fixpoint any_word (P : pystr -> bool) (acc s : pystr) : bool :=
  match s with
  | [] => P (rev acc)
  | c :: r =>
    if uni_word U c then any_word P (c :: acc) r
    else P (rev acc) || any_word P [] r
  end.

(** A literal whose characters match word characters only. *)
Definition wordy (pat : pystr) : Prop :=
  forall p, p ∈ pat -> forall c, uni_fold U p c = true -> uni_word U c = true.

(** What follows a word: nothing, or a character that is no word character. *)
Definition word_end (rest : pystr) : Prop :=
  match rest with [] => True | d :: _ => uni_word U d = false end.

(** The output of [re_sub_go] after a word. *)
Definition sub_tail (pat rep rest : pystr) : pystr :=
  match rest with
  | [] => []
  | d :: r => d :: re_sub_go pat rep 0 (Some d) r
  end.

(** The search of [re_search_word] after a word. *)
Definition search_tail (pat rest : pystr) : bool :=
  match rest with
  | [] => false
  | d :: r => re_search_word pat (Some d) r
  end.

End regex.

(** ** merge_enriched_into_content.py *)

Module merge_enriched_into_content.

Definition FIELDS_TO_MERGE : list pystr :=
  [ py "description"; py "ingredients"; py "precautions"; py "history";
    py "sources" ].

(** [k in c] for a text [k] *)
Definition py_in (k : pystr) (c : json) : option bool :=
  match c with
  | JObj d => Some (dict_has k d)
  | JArr l => Some (existsb (py_eq (JStr k)) l)
  | JStr s => Some (contains k s)
  | _ => None
  end.

(** [c[k]] for a text [k] *)
Definition py_index (c : json) (k : pystr) : option json :=
  d ← as_dict c; alookup k d.

(** One turn of the loop over [FIELDS_TO_MERGE]. *)
Definition merge_field (en_new : json) (st : json * bool) (field : pystr)
  : option (json * bool) :=
  present ← py_in field en_new;
  if present : bool then
    v ← py_index en_new field;
    if truthy v then
      old ← py_get (fst st) field JNull;
      if py_eq old v then Some st
      else d ← as_dict (fst st); Some (JObj (dict_set field v d), true)
    else Some st
  else Some st.

Fixpoint merge_fields (en_new : json) (st : json * bool) (fields : list pystr)
  : option (json * bool) :=
  match fields with
  | [] => Some st
  | f :: fs => st' ← merge_field en_new st f; merge_fields en_new st' fs
  end.

(** The product in memory after the loop, and the flag [changed]. *)
Definition merge_record (product entry : json) : option (json * bool) :=
  p ← as_dict product;
  i18n ← as_dict (dict_get (py "i18n") (JObj []) p);
  let en_old := dict_get (py "en") (JObj []) i18n in
  e18n ← py_get entry (py "i18n") (JObj []);
  en_new ← py_get e18n (py "en") (JObj []);
  st ← merge_fields en_new (en_old, false) FIELDS_TO_MERGE;
  Some (JObj (dict_set (py "i18n")
                (JObj (dict_set (py "en") (fst st) i18n)) p), snd st).

(** The document in the file of [sku] after the script handled it: the file
    is rewritten only when a field changed, and left alone when the enriched
    store has no entry for the SKU. *)
Definition merge_file (enriched : dict) (sku : pystr) (product : json)
  : option json :=
  match alookup sku enriched with
  | None => Some product
  | Some entry =>
    '(merged, changed) ← merge_record product entry;
    Some (if changed : bool then merged else product)
  end.

End merge_enriched_into_content.

(** ** post_qc.py *)

Module post_qc.

Section with_runtime.

(** [netloc] stands for [urlparse(url).netloc] of the standard library,
    which may raise on a malformed address. *)
Context (U : unicode) (netloc : pystr -> option pystr).

Definition bad_domains : list pystr :=
  [ py "wikipedia.org"; py "facebook.com"; py "instagram.com";
    py "twitter.com"; py "pinterest.com"; py "opentermsarchive.org";
    py "cbsox.com" ].

Definition retailers : list pystr :=
  [ py "amazon"; py "walmart"; py "publix"; py "metro"; py "winndixie";
    py "totalwine"; py "instacart"; py "bakkal"; py "gastronom" ].

(** The characters kept by [re.sub] of the class of all but a-z and 0-9. *)
Definition az09 (c : N) : bool :=
  ((97 <=? c) && (c <=? 122)) || ((48 <=? c) && (c <=? 57)).

Definition is_relevant_source (url brand : json) : option bool :=
  if negb (truthy url) then Some false
  else
    u ← as_str url;
    nl ← netloc u;
    let domain := uni_lower U nl in
    if existsb (fun bad => contains bad domain) bad_domains then Some false
    else
      b ← as_str brand;
      let brand_key := filter (fun c => az09 c = true) (uni_lower U b) in
      let domain_key := filter (fun c => az09 c = true) domain in
      if truthy (JStr brand_key) && contains (take 6 brand_key) domain_key
      then Some true
      else if existsb (fun r => contains r domain_key) retailers
      then Some true
      else Some false.

(** The two tests on the title in upper case. *)
Definition still_marked (t : pystr) : bool :=
  existsb (fun k => contains k t) [py "NON-CARBONATED"; py "STILL"; py "BLUE"].

Definition sparkling_marked (t : pystr) : bool :=
  existsb (fun k => contains k t) [py "SPARKLING"; py "CARBONATED"; py "GREEN"].

Definition fix_water_description (desc title : json) : option json :=
  t ← as_str (py_or title (JStr []));
  let t := py_upper U t in
  desc ←
    (if still_marked t
     then d ← as_str desc;
          Some (JStr (re_sub_word U (py "sparkling") (py "still") d))
     else Some desc);
  if sparkling_marked t
  then d ← as_str desc;
       Some (JStr (re_sub_word U (py "still") (py "sparkling") d))
  else Some desc.

(** What [fix_water_description] makes of a description that is a text,
    for a title whose upper case is [t]. *)
Definition fix_text (t d : pystr) : pystr :=
  let d := if still_marked t
           then re_sub_word U (py "sparkling") (py "still") d else d in
  if sparkling_marked t
  then re_sub_word U (py "still") (py "sparkling") d else d.

(** The same correction on one word. *)
Definition fix_word (t w : pystr) : pystr :=
  let w := if still_marked t
           then replace_word U (py "sparkling") (py "still") w else w in
  if sparkling_marked t
  then replace_word U (py "still") (py "sparkling") w else w.

Definition placeholder_source : json :=
  JObj [ (py "name", JStr (py "Public product information"));
         (py "url", JStr []) ].

(** The loop over [sources]: the entries kept. *)
Fixpoint clean_sources (brand : json) (sources : list json)
  : option (list json) :=
  match sources with
  | [] => Some []
  | s :: rest =>
    url ← py_get s (py "url") (JStr []);
    keep ← is_relevant_source url brand;
    clean ← clean_sources brand rest;
    Some (if keep : bool then s :: clean else clean)
  end.

(** SOURCES CLEAN: the block [en] after it and whether it counts as changed. *)
Definition sources_clean (brand : json) (en : dict) : option (dict * bool) :=
  let sources := dict_get (py "sources") (JArr []) en in
  if truthy sources then
    items ← py_iter sources;
    clean ← clean_sources brand items;
    let changed := negb (length clean =? length items)%nat in
    let clean := match clean with [] => [placeholder_source] | _ => clean end in
    Some (dict_set (py "sources") (JArr clean) en, changed)
  else Some (en, false).

(** WATER FIX *)
Definition water_fix (cat : json) (en : dict) : option (dict * bool) :=
  if py_eq cat (JStr (py "Water")) then
    let desc := dict_get (py "description") (JStr []) en in
    let title := dict_get (py "title") (JStr []) en in
    new_desc ← fix_water_description desc title;
    if negb (py_eq new_desc desc)
    then Some (dict_set (py "description") new_desc en, true)
    else Some (en, false)
  else Some (en, false).

(** [en] is the object stored in the record, or a fresh dictionary when the
    record has none: only in the first case do its updates reach the record. *)
Definition put_en (data : dict) (en : dict) : dict :=
  match alookup (py "i18n") data with
  | Some (JObj i18n) =>
    if dict_has (py "en") i18n
    then dict_set (py "i18n") (JObj (dict_set (py "en") (JObj en) i18n)) data
    else data
  | _ => data
  end.

(** One turn of the main loop: the record in memory and the flag [changed];
    the file is rewritten with the record when the flag is set. *)
Definition post_qc_record (data : json) : option (json * bool) :=
  d ← as_dict data;
  let brand := dict_get (py "brand") (JStr []) d in
  let cat := dict_get (py "category") (JStr []) d in
  i18n ← as_dict (dict_get (py "i18n") (JObj []) d);
  en ← as_dict (dict_get (py "en") (JObj []) i18n);
  '(en1, c1) ← sources_clean brand en;
  '(en2, c2) ← water_fix cat en1;
  Some (JObj (put_en d en2), c1 || c2).

(** The record after one turn. *)
Definition post_qc (data : json) : option json :=
  r ← post_qc_record data; Some r.1.

End with_runtime.

End post_qc.

(** ** premium_pass.py *)

Module premium_pass.

Section with_runtime.

Context (U : unicode).

Definition additions : list (pystr * pystr) :=
  [ (py "WATER",
     py "Carefully sourced and valued for its purity and everyday refreshment, it is well suited for daily hydration at home or on the go.");
    (py "CEREAL",
     py "Prepared using traditional methods, this product is appreciated for its consistent quality and versatility in everyday home cooking.");
    (py "BEER",
     py "Brewed with attention to balance and character, it reflects the heritage and craftsmanship associated with its style.");
    (py "PASTA",
     py "Made to deliver reliable texture and taste, it is suitable for a wide range of classic and modern recipes.") ].

Definition enhance_description (desc category : json) : option json :=
  if negb (truthy desc) then Some desc
  else
    n ← py_len desc;
    if (180 <? n)%nat then Some desc
    else
      c ← as_str category;
      let extra :=
        default (py "Valued for its consistent quality and suitability for everyday use.")
                (alookup (py_upper U c) additions) in
      d ← as_str desc;
      Some (JStr (py_strip d ++ py " " ++ extra)).

Definition enhance_ingredients (ing : json) : option json :=
  if negb (truthy ing) then Some ing
  else
    n ← py_len ing;
    if (60 <? n)%nat then Some ing
    else
      i ← as_str ing;
      Some (JStr (py_strip i ++
                  py " Commonly used in traditional recipes and everyday cooking.")).

(** The three entries built by [enhance_history]; [country] is the value of
    [country or 'its region of production']. *)
Definition history_template (brand country category : pystr) : json :=
  JArr
    [ JObj [ (py "year", JStr (py "Origins"));
             (py "text",
              JStr (py "The " ++ brand ++ py " brand originates from "
                    ++ country
                    ++ py ", reflecting local traditions and expertise.")) ];
      JObj [ (py "year", JStr (py "Production"));
             (py "text",
              JStr (py "Over time, " ++ brand
                    ++ py " has focused on maintaining consistent quality and careful production standards within the "
                    ++ uni_lower U category ++ py " category.")) ];
      JObj [ (py "year", JStr (py "Today"));
             (py "text",
              JStr (py "Today, " ++ brand
                    ++ py " products are appreciated for their reliability and suitability for everyday use.")) ] ].

(** The brand and the country go through an f-string: a value that is not
    a text is outside the embedding. *)
Definition enhance_history (history brand category country : json)
  : option json :=
  if negb (truthy history) then Some history
  else
    n ← py_len history;
    if (3 <=? n)%nat then Some history
    else
      b ← as_str brand;
      co ← as_str (py_or country (JStr (py "its region of production")));
      ca ← as_str category;
      Some (history_template b co ca).

(** One step of the main loop on the block [en]: read the field, enhance it,
    store it when it differs. *)
Definition step (field : pystr) (dflt : json) (f : json -> option json)
  (st : dict * bool) : option (dict * bool) :=
  let old := dict_get field dflt (fst st) in
  new ← f old;
  if negb (py_eq new old)
  then Some (dict_set field new (fst st), true)
  else Some st.

(** One turn of the main loop: the record in memory and the flag [changed];
    the file is rewritten with the record when the flag is set. *)
Definition premium_pass_record (data : json) : option (json * bool) :=
  d ← as_dict data;
  all ← as_dict (dict_get (py "i18n") (JObj []) d);
  let i18n := dict_get (py "en") (JObj []) all in
  if negb (truthy i18n) then Some (data, false)
  else
    en ← as_dict i18n;
    let category := dict_get (py "category") (JStr []) d in
    let brand := dict_get (py "brand") (JStr (py "the brand")) d in
    let country := dict_get (py "country_of_origin") (JStr []) d in
    st ← step (py "description") (JStr [])
           (fun desc => enhance_description desc category) (en, false);
    st ← step (py "ingredients") (JStr []) enhance_ingredients st;
    st ← step (py "history") (JArr [])
           (fun hist => enhance_history hist brand category country) st;
    Some (JObj (dict_set (py "i18n")
                  (JObj (dict_set (py "en") (JObj (fst st)) all)) d),
          snd st).

(** The record after one turn. *)
Definition premium_pass (data : json) : option json :=
  r ← premium_pass_record data; Some r.1.

End with_runtime.

End premium_pass.

(** ** enrich_products.py: the searches and fetches behind the cache *)

Module enrich_products.

Definition MAX_FETCH_CHARS : nat := N.to_nat 40000.

Definition clean_spaces (s : pystr) : pystr :=
  sub_runs is_space (py " ") false (py_strip s).

Record WebDoc := { url : pystr; title : pystr; text : pystr }.

(** The two directories of the cache, each a map from the file name to the
    document in the file. *)
Record WebCache := {
  search_dir : gmap pystr (list json);
  page_dir : gmap pystr WebDoc
}.

(** The network and the libraries that read a page; [None] is a call that
    raises. *)
Record web := {
  (** [DDGS().text(query, max_results)] *)
  ddgs_text : pystr -> nat -> option (list json);
  (** [requests.get(url)]: status code and body *)
  requests_get : pystr -> option (Z * pystr);
  (** [trafilatura.extract(html)], which may answer the value [None] *)
  trafilatura_extract : pystr -> option (option pystr);
  (** [BeautifulSoup(html).get_text] *)
  soup_text : pystr -> option pystr;
  (** [BeautifulSoup(html).title.get_text()], if the page has a title *)
  soup_title : pystr -> option (option pystr)
}.

Section with_runtime.

Context (sha1 : pystr -> pystr).

Definition cache_file (key : pystr) : pystr := sha1 key ++ py ".json".

Definition load_search (cache : WebCache) (key : pystr) : option (list json) :=
  search_dir cache !! cache_file key.

Definition save_search (cache : WebCache) (key : pystr) (results : list json)
  : WebCache :=
  {| search_dir := <[ cache_file key := results ]> (search_dir cache);
     page_dir := page_dir cache |}.

Definition load_page (cache : WebCache) (u : pystr) : option WebDoc :=
  page_dir cache !! cache_file u.

Definition save_page (cache : WebCache) (doc : WebDoc) : WebCache :=
  {| search_dir := search_dir cache;
     page_dir := <[ cache_file (url doc) := doc ]> (page_dir cache) |}.

(** The body of the [try] of [ddg_search]. *)
Definition search_results (W : web) (query : pystr) (max_results : nat)
  : option (list json) :=
  rs ← ddgs_text W query max_results;
  mapM (fun r =>
          t ← py_get r (py "title") (JStr []);
          h ← py_get r (py "href") (JStr []);
          b ← py_get r (py "body") (JStr []);
          Some (JObj [ (py "title", t); (py "url", h); (py "snippet", b) ]))
       rs.

Definition ddg_search (W : web) (query : pystr) (max_results : nat)
  (cache : WebCache) : list json * WebCache :=
  match load_search cache query with
  | Some cached => (cached, cache)
  | None =>
    let results := default [] (search_results W query max_results) in
    (results, save_search cache query results)
  end.

(** The body of the [try] of [fetch_and_extract]: [None] when it raises,
    else the value returned and the cache. *)
Definition fetch_body (W : web) (u : pystr) (cache : WebCache)
  : option (option WebDoc * WebCache) :=
  resp ← requests_get W u;
  if (400 <=? fst resp)%Z then Some (None, cache)
  else
    let html := snd resp in
    downloaded ← trafilatura_extract W html;
    let text := clean_spaces (default [] downloaded) in
    text ← (match text with
            | [] => t ← soup_text W html; Some (clean_spaces t)
            | _ => Some text
            end);
    let title := match soup_title W html with
                 | Some (Some t) => clean_spaces t
                 | _ => []
                 end in
    let doc := {| url := u; title := title;
                  text := take MAX_FETCH_CHARS text |} in
    Some (Some doc, save_page cache doc).

Definition fetch_and_extract (W : web) (u : pystr) (cache : WebCache)
  : option WebDoc * WebCache :=
  match load_page cache u with
  | Some cached => (Some cached, cache)
  | None =>
    match fetch_body W u cache with
    | Some r => r
    | None => (None, cache)
    end
  end.

End with_runtime.

(** *** The helpers and the text generators of the Enricher *)

Definition SAFE_DEFAULT_HISTORY : pystr :=
  py "Produced under the {brand} name; refer to the manufacturer for brand and product background.".

Definition SAFE_DEFAULT_PRECAUTIONS : pystr :=
  py "Store as directed on the label. Keep in a cool, dry place unless otherwise noted.".

Definition ALCOHOL_PRECAUTIONS : pystr :=
  py "Alcoholic beverage: intended for adults 21+. Do not drink during pregnancy. "
  ++ py "Enjoy responsibly; do not drink and drive.".

(** [sep.join(l)] *)
Fixpoint py_join (sep : pystr) (l : list pystr) : pystr :=
  match l with
  | [] => []
  | x :: r => match r with [] => x | _ => x ++ sep ++ py_join sep r end
  end.

Section with_tables.

Context (U : unicode).

(** The department and the name are texts (the value of [x or empty] for a
    text [x] is [x]). *)
Definition guess_category (dept name : pystr) : pystr :=
  let d := py_upper U dept in
  let n := py_upper U name in
  if contains (py "WATER") n || contains (py "WATER") d then py "Water"
  else if contains (py "BEER") n || contains (py "BEER") d then py "Beer"
  else if contains (py "WINE") n || contains (py "WINE") d then py "Wine"
  else if contains (py "VODKA") n || contains (py "WHIS") n
          || contains (py "RUM") n || contains (py "TEQUILA") n
          || contains (py "SPIRITS") d then py "Spirits"
  else if contains (py "JUICE") n then py "Juice"
  else if contains (py "SODA") n || contains (py "SOFT DRINK") n
          || contains (py "COLA") n then py "Soft drink"
  else if contains (py "CHEESE") n || contains (py "DAIRY") d then py "Dairy"
  else if contains (py "CHOC") n || contains (py "CANDY") n
          || contains (py "CONFECTION") d then py "Confectionery"
  else if contains (py "PICKLED") n || contains (py "OLIVE") n
       then py "Pickled / Olives"
  else if contains (py "SPICES") d || contains (py "SPICE") n
          || contains (py "SEASON") n then py "Seasoning"
  else py "Grocery".

Definition is_alcohol (category name : pystr) : bool :=
  let c := uni_lower U category in
  let n := uni_lower U name in
  if existsb (str_eqb c) [py "beer"; py "wine"; py "spirits"] then true
  else if contains (py "abv") n || contains (py "alc") n then true
  else false.

End with_tables.

Definition generate_precautions (category : pystr) (allergens : list pystr)
  (alcohol : bool) : pystr :=
  let parts := [] in
  let parts :=
    match allergens with
    | [] => parts
    | _ => parts ++ [py "Allergen information: contains "
                     ++ py_join (py ", ") allergens ++ py "."]
    end in
  let parts := if alcohol then parts ++ [ALCOHOL_PRECAUTIONS] else parts in
  let parts :=
    if existsb (str_eqb category) [py "Dairy"]
    then parts ++ [py "Keep refrigerated; follow storage instructions on the label."]
    else if existsb (str_eqb category)
              [py "Confectionery"; py "Seasoning"; py "Grocery";
               py "Pickled / Olives"]
    then parts ++ [py "Store in a cool, dry place. Refrigerate after opening if indicated."]
    else if str_eqb category (py "Water")
    then parts ++ [py "Store in a cool, dark place. Serve chilled."]
    else parts ++ [SAFE_DEFAULT_PRECAUTIONS] in
  py_join (py " ") parts.

(** [generate_history]: one entry, with the hint if there is one that is not
    empty.  The year is an em dash. *)
Definition generate_history (brand : pystr) (sources : list pystr)
  (wiki_hint : option pystr) : option json :=
  match wiki_hint with
  | Some (c :: hint) =>
    Some (JArr [JObj [(py "year", JStr (py "—"));
                      (py "text", JStr (c :: hint))]])
  | _ =>
    text ← py_format SAFE_DEFAULT_HISTORY [(py "brand", brand)];
    Some (JArr [JObj [(py "year", JStr (py "—")); (py "text", JStr text)]])
  end.

(** The loop of [build_queries] that drops the empty and the repeated
    queries. *)
Definition keep_query (out : list pystr) (q : pystr) : list pystr :=
  let q := clean_spaces q in
  match q with
  | [] => out
  | _ => if bool_decide (q ∈ out) then out else out ++ [q]
  end.

Definition build_queries (brand sku_name category : pystr) : list pystr :=
  let b := clean_spaces brand in
  let n := clean_spaces sku_name in
  let base := b ++ py " " ++ n in
  let queries :=
    [ base ++ py " ingredients";
      base ++ py " allergen";
      if existsb (str_eqb category) [py "Beer"; py "Wine"; py "Spirits"]
      then base ++ py " ABV" else base ++ py " product";
      b ++ py " official site";
      b ++ py " history" ] in
  fold_left keep_query queries [].

End enrich_products.

(** ** app.py: the Edit API over the directory of content files *)

Module app.

Definition response := (Z * json)%type.

Definition content_file (sku : pystr) : pystr :=
  py "content/" ++ sku ++ py ".json".

Definition not_found : response :=
  (404%Z, JObj [ (py "error", JStr (py "SKU not found")) ]).

(** GET /api/product/sku *)
Definition get_product (fs : gmap pystr json) (sku : pystr) : response :=
  match fs !! content_file sku with
  | None => not_found
  | Some product => (200%Z, product)
  end.

(** The document that POST /api/product/sku builds from the stored one and
    the parsed body [data], [None] when the handler raises before the write.
    A language code that is not a text is outside the embedding. *)
Definition save_product_doc (product data : json) : option json :=
  body ← as_dict data;
  lang ← alookup (py "lang") body ≫= as_str;
  p ← as_dict product;
  i18n ← as_dict (dict_get (py "i18n") (JObj []) p);
  let i18n := if dict_has lang i18n then i18n
              else dict_set lang (JObj []) i18n in
  block ← alookup lang i18n ≫= as_dict;
  let block := dict_set (py "description")
                 (dict_get (py "description") (JStr []) body) block in
  let block := dict_set (py "ingredients")
                 (dict_get (py "ingredients") (JStr []) body) block in
  let block := dict_set (py "precautions")
                 (dict_get (py "precautions") (JStr []) body) block in
  let block := dict_set (py "history")
                 (dict_get (py "history") (JArr []) body) block in
  Some (JObj (dict_set (py "i18n")
                (JObj (dict_set lang (JObj block) i18n)) p)).

(** POST /api/product/sku: the response and the directory afterwards, [None]
    when the handler raises.  [write_text] opens the file, which empties it,
    and then encodes the text: that raises when the document holds a
    surrogate. *)
Definition save_product (fs : gmap pystr json) (sku : pystr) (data : json)
  : option (response * gmap pystr json) :=
  match fs !! content_file sku with
  | None => Some (not_found, fs)
  | Some product =>
    product' ← save_product_doc product data;
    if utf8_json product'
    then Some ((200%Z, JObj [ (py "status", JStr (py "saved")) ]),
               <[ content_file sku := product' ]> fs)
    else None
  end.

(** Whether the handler raises in [write_text]: the file of the SKU is then
    left empty, which is no document. *)
Definition save_product_empties (fs : gmap pystr json) (sku : pystr)
  (data : json) : bool :=
  match fs !! content_file sku with
  | None => false
  | Some product =>
    match save_product_doc product data with
    | Some product' => negb (utf8_json product')
    | None => false
    end
  end.

End app.

(** ** Reading a document in the statements *)

(** The member [k] of a document that is an object. *)
Definition jget (x : json) (k : pystr) : option json :=
  match x with JObj d => alookup k d | _ => None end.

(** The value at the end of a path of members. *)
Fixpoint jpath (x : json) (ks : list pystr) : option json :=
  match ks with
  | [] => Some x
  | k :: r => y ← jget x k; jpath y r
  end.
Global Arguments jpath : simpl never.

(** What the merger leaves in a field that held [old] (if any) when the
    enriched block holds [new] (if any). *)
Definition merged_value (old new : option json) : option json :=
  match new with
  | Some v =>
    if truthy v && negb (py_eq (default JNull old) v) then Some v else old
  | None => old
  end.

(** A text of the English block of a record, empty when it is missing. *)
Definition en_text (data : json) (field : pystr) : json :=
  default (JStr []) (jpath data [py "i18n"; py "en"; field]).

(** A value that the Premium Pass does not pad: empty, or longer than the
    threshold. *)
Definition dense (limit : nat) (v : json) : Prop :=
  truthy v = false \/ exists n, py_len v = Some n /\ (limit < n)%nat.

(** The members that the Localizer assigns in every language block. *)
Definition localized_keys : list pystr :=
  [ py "sections"; py "meta"; py "title"; py "description";
    py "ingredients"; py "precautions"; py "history" ].

(** The keys of the block of a language. *)
Definition block_keys (data : json) (lang : pystr) : option (list pystr) :=
  b ← jpath data [py "i18n"; lang]; d ← as_dict b; Some (dict_keys d).

(** A value that is a text. *)
Definition is_text (v : json) : Prop := exists s, v = JStr s.

(** The headings and the texts that a page shows. *)
Definition section_keys : list pystr :=
  [ py "description_title"; py "ingredients_title"; py "precautions_title";
    py "history_title" ].

Definition text_keys : list pystr :=
  [ py "description"; py "ingredients"; py "precautions" ].

(** An entry of a history as the generators write it. *)
Definition plain_entry (h : json) : Prop :=
  exists (y : json) (t : pystr),
    h = JObj [ (py "year", y); (py "text", JStr t) ].

(** An object whose members of the given keys are texts, or missing. *)
Definition texts_at (keys : list pystr) (d : dict) : Prop :=
  forall k, k ∈ keys -> is_text (dict_get k (JStr []) d).


(** The labels of the metadata that a page shows. *)
Definition meta_keys : list pystr :=
  [ py "brand"; py "country_of_origin"; py "category"; py "size";
    py "alcohol_content" ].


(** The members a generator assigns, [kvs] in the order of assignment, as a
    page needs them: headings, texts and a history of plain entries. *)
Definition fields_ok (kvs : dict) : Prop :=
  (exists s, alookup (py "sections") (rev kvs) = Some (JObj s)
             /\ texts_at section_keys s)
  /\ (forall k, k ∈ text_keys ->
        exists t, alookup k (rev kvs) = Some (JStr t))
  /\ (exists hs, alookup (py "history") (rev kvs) = Some (JArr hs)
                 /\ Forall plain_entry hs)
  /\ alookup (py "history_labels") (rev kvs) = None.


(** The fields of a language block that the Edit API assigns. *)
Definition editable : list pystr :=
  [ py "description"; py "ingredients"; py "precautions"; py "history" ].

(** ** Records and inputs of the examples *)

Import enrich_products.

Definition row_K100 : generate_json_from_excel.row :=
  [ (py "SKU ID", py "K100");
    (py "Brand", py "KRINOS");
    (py "SKU Name", py "Olives 500g");
    (py "Country", py "Greece");
    (py "Department", py "Pickled / Olives");
    (py "Size", py "500g");
    (py "Tags", py "greek,olives") ].

(** The least template, and a page template. *)
Definition template_min : dict := [ (py "i18n", JObj [ (py "en", JObj []) ]) ].

Definition page_min : pystr :=
  py "<h1>{{TITLE}}</h1><p>{{DESCRIPTION}}</p>{{HISTORY_ITEMS}}".


(** A record with an English block only. *)
Definition i18n_K100 : dict :=
  [ (py "en",
     JObj [ (py "title", JStr (py "Olives 500g"));
            (py "description", JStr (py "Olives in brine."));
            (py "ingredients", JStr (py "Olives, water, salt."));
            (py "history", JArr []) ]) ].

Definition fields_K100 : dict :=
  [ (py "sku", JStr (py "K100"));
    (py "name", JStr (py "Olives 500g"));
    (py "brand", JStr (py "KRINOS"));
    (py "i18n", JObj i18n_K100) ].

Definition record_K100 : json := JObj fields_K100.

(** An enriched store whose entry has an empty description and a new text
    for the ingredients. *)
Definition entry_K100 : json :=
  JObj [ (py "i18n",
          JObj [ (py "en",
                  JObj [ (py "description", JStr []);
                         (py "ingredients",
                          JStr (py "Ingredients: olives, brine.")) ]) ]) ].

Definition enriched_K100 : dict := [ (py "K100", entry_K100) ].

(** A record whose history has one entry, and one with short texts. *)
Definition fields_short_history : dict :=
  [ (py "sku", JStr (py "L1"));
    (py "brand", JStr (py "LEFFE"));
    (py "category", JStr (py "Beer"));
    (py "country_of_origin", JStr (py "Belgium"));
    (py "i18n",
     JObj [ (py "en",
             JObj [ (py "title", JStr (py "Leffe Blonde"));
                    (py "history",
                     JArr [ JObj [ (py "year", JStr (py "1240"));
                                   (py "text", JStr (py "Abbey of Leffe.")) ] ]) ]) ]) ].

Definition record_short_texts : json :=
  JObj [ (py "brand", JStr (py "B"));
         (py "category", JStr (py "Water"));
         (py "i18n",
          JObj [ (py "en",
                  JObj [ (py "description", JStr (py "Hi"));
                         (py "ingredients", JStr (py "a"));
                         (py "history", JArr []) ]) ]) ].

(** A network that is down, and one that serves a page with a title. *)
Definition web_down : web := {|
  ddgs_text := fun _ _ => None;
  requests_get := fun _ => None;
  trafilatura_extract := fun _ => None;
  soup_text := fun _ => None;
  soup_title := fun _ => None
|}.

Definition web_up : web := {|
  ddgs_text := fun _ _ => Some [];
  requests_get := fun _ => Some (200%Z, py "<title>Krinos</title>Olives");
  trafilatura_extract := fun _ => Some (Some (py "Olives"));
  soup_text := fun _ => Some (py "Krinos Olives");
  soup_title := fun _ => Some (Some (py "Krinos"))
|}.

Definition empty_cache : WebCache := {| search_dir := ∅; page_dir := ∅ |}.

(** A record of sparkling water whose description says still. *)
Definition fields_water : dict :=
  [ (py "sku", JStr (py "W7"));
    (py "brand", JStr (py "Borjomi"));
    (py "category", JStr (py "Water"));
    (py "i18n",
     JObj [ (py "en",
             JObj [ (py "title", JStr (py "BORJOMI SPARKLING 0.5L"));
                    (py "description",
                     JStr (py "A classic still mineral water. Still refreshing."));
                    (py "sources",
                     JArr [ JObj [ (py "name", JStr (py "Borjomi"));
                                   (py "url",
                                    JStr (py "https://en.wikipedia.org/wiki/Borjomi")) ] ]) ]) ]) ].

(** [urlparse(url).netloc] of the addresses of the examples. *)
Definition netloc_K100 (u : pystr) : option pystr :=
  if str_eqb u (py "https://en.wikipedia.org/wiki/Borjomi")
  then Some (py "en.wikipedia.org") else Some [].

(** A body that names the language and one field only. *)
Definition body_partial : dict :=
  [ (py "lang", JStr (py "en"));
    (py "description", JStr (py "Kalamata olives.")) ].

Definition content_K100 : gmap pystr json :=
  {[ app.content_file (py "K100") := record_K100 ]}.

(** A body that [request.json] builds from a description written as the lone
    escape of U+D800. *)
Definition body_surrogate : dict :=
  [ (py "lang", JStr (py "en")); (py "description", JStr [55296]) ].

(** ** Texts in normal form *)

(** Every whitespace character of the text is a plain space that is followed
    by a character that is no whitespace. *)
Fixpoint words_spaced (s : pystr) : bool :=
  match s with
  | [] => true
  | c :: r =>
    if is_space c
    then (c =? 32) && match r with [] => false | d :: _ => negb (is_space d) end
         && words_spaced r
    else words_spaced r
  end.

(** Words separated by single spaces, with no whitespace at either end. *)
Definition tidy (s : pystr) : bool :=
  match s with [] => true | c :: _ => negb (is_space c) end && words_spaced s.

(** A text that is not empty and has no whitespace at either end. *)
Definition solid (s : pystr) : bool :=
  match s with [] => false | c :: _ => negb (is_space c) end
  && match rev s with [] => false | d :: _ => negb (is_space d) end.

(** ** The page cache *)

(** No cached page holds more text than the limit of a fetch. *)
Definition pages_bounded (cache : WebCache) : Prop :=
  forall f doc, page_dir cache !! f = Some doc ->
                (length (text doc) <= MAX_FETCH_CHARS)%nat.

(** ** Rows of the sheet *)



(** ** Language blocks *)

(** The year of the entry [i] of a history, empty when there is no such
    entry or the entry has no year. *)
Definition year_at (hs : list json) (i : nat) : json :=
  match hs !! i with
  | Some (JObj h) => dict_get (py "year") (JStr []) h
  | _ => JStr []
  end.

(** The members that the Content Generator assigns. *)
Definition generated_keys : list pystr :=
  [ py "title"; py "sections"; py "description"; py "ingredients";
    py "precautions"; py "history" ].

(** ** Values of JSON documents *)

(** A value as [json.load] builds it: no object has a key twice, at any
    depth. *)
Fixpoint regular (x : json) : bool :=
  match x with
  | JArr l => forallb regular l
  | JObj d =>
    bool_decide (NoDup (map fst d)) && forallb (fun kv => regular (snd kv)) d
  | _ => true
  end.

(** ** Further records of the examples *)

(** A record whose English texts are longer than the thresholds of the
    Premium Pass and whose history has three entries. *)
Definition record_long_texts : json :=
  JObj [ (py "brand", JStr (py "KRINOS"));
         (py "category", JStr (py "Grocery"));
         (py "country_of_origin", JStr (py "Greece"));
         (py "i18n",
          JObj [ (py "en",
                  JObj [ (py "description",
                          JStr (py "Kalamata olives are harvested by hand in the southern Peloponnese and cured slowly in brine, which gives them a firm texture, a deep purple colour and a rich, fruity taste that suits salads and cooked dishes."));
                         (py "ingredients",
                          JStr (py "Kalamata olives, water, sea salt, red wine vinegar, extra virgin olive oil."));
                         (py "history",
                          JArr [ JObj [ (py "year", JStr (py "1958"));
                                        (py "text", JStr (py "Founded.")) ];
                                 JObj [ (py "year", JStr (py "1980"));
                                        (py "text", JStr (py "Exports begin.")) ];
                                 JObj [ (py "year", JStr (py "Today"));
                                        (py "text", JStr (py "Sold widely.")) ] ]) ]) ]) ].

(** A Water record whose source is on the site of the brand and whose
    description agrees with its title, and [urlparse(url).netloc] of its
    address. *)
Definition fields_sources_kept : dict :=
  [ (py "sku", JStr (py "W8"));
    (py "brand", JStr (py "Borjomi"));
    (py "category", JStr (py "Water"));
    (py "i18n",
     JObj [ (py "en",
             JObj [ (py "title", JStr (py "BORJOMI SPARKLING 0.5L"));
                    (py "description",
                     JStr (py "A classic sparkling mineral water."));
                    (py "sources",
                     JArr [ JObj [ (py "name", JStr (py "Borjomi"));
                                   (py "url",
                                    JStr (py "https://www.borjomi.com/water")) ] ]) ]) ]) ].

Definition netloc_kept (u : pystr) : option pystr :=
  if str_eqb u (py "https://www.borjomi.com/water")
  then Some (py "www.borjomi.com") else Some [].

(** ** The tables on ASCII texts *)

(** The lower case of a text of ASCII characters. *)
Definition lower_ok (U : unicode) : Prop :=
  forall s, Forall (fun c => c < 128) s -> uni_lower U s = map ascii_lower s.

(** ** The languages without an entry in [TEXT] of content_generators.py *)

Definition fallback_langs : list pystr :=
  [py "de"; py "es"; py "it"; py "hr"; py "hu"].

(* ====================================================================== *)
(** * Properties *)
(* ====================================================================== *)

(** ** Dictionaries *)

Lemma str_eqb_eq (a b : pystr) : str_eqb a b = true <-> a = b.
Proof. unfold str_eqb. apply bool_decide_eq_true. Qed.

Lemma str_eqb_refl (a : pystr) : str_eqb a a = true.
Proof. apply str_eqb_eq. reflexivity. Qed.

Lemma str_eqb_ne (a b : pystr) : a <> b -> str_eqb a b = false.
Proof. intros H. unfold str_eqb. apply bool_decide_eq_false. exact H. Qed.

Lemma alookup_dict_set (k k' : pystr) (v : json) (d : dict) :
  alookup k (dict_set k' v d) = if str_eqb k k' then Some v else alookup k d.
Proof.
  induction d as [|[k0 v0] d IH]; simpl.
  - destruct (str_eqb k k'); reflexivity.
  - destruct (str_eqb k' k0) eqn:E0.
    + apply str_eqb_eq in E0. subst k0. simpl.
      destruct (str_eqb k k'); reflexivity.
    + simpl. rewrite IH.
      destruct (str_eqb k k0) eqn:E1; [|reflexivity].
      apply str_eqb_eq in E1. subst k0.
      rewrite str_eqb_ne; [reflexivity|].
      intros ->. rewrite str_eqb_refl in E0. discriminate.
Qed.

Lemma alookup_dict_set_eq (k : pystr) (v : json) (d : dict) :
  alookup k (dict_set k v d) = Some v.
Proof. rewrite alookup_dict_set, str_eqb_refl. reflexivity. Qed.

Lemma alookup_dict_set_ne (k k' : pystr) (v : json) (d : dict) :
  k <> k' -> alookup k (dict_set k' v d) = alookup k d.
Proof. intros H. rewrite alookup_dict_set, str_eqb_ne by exact H. reflexivity. Qed.

Lemma dict_get_set_eq (k : pystr) (v dflt : json) (d : dict) :
  dict_get k dflt (dict_set k v d) = v.
Proof. unfold dict_get. rewrite alookup_dict_set_eq. reflexivity. Qed.

Lemma dict_get_set_ne (k k' : pystr) (v dflt : json) (d : dict) :
  k <> k' -> dict_get k dflt (dict_set k' v d) = dict_get k dflt d.
Proof. intros H. unfold dict_get. rewrite alookup_dict_set_ne by exact H. reflexivity. Qed.

Lemma dict_has_set (k k' : pystr) (v : json) (d : dict) :
  dict_has k (dict_set k' v d) = str_eqb k k' || dict_has k d.
Proof.
  unfold dict_has. rewrite alookup_dict_set.
  destruct (str_eqb k k'); reflexivity.
Qed.

Lemma jpath_1 (x : json) (a : pystr) : jpath x [a] = jget x a.
Proof. unfold jpath. destruct (jget x a); reflexivity. Qed.

Lemma jpath_2 (x : json) (a b : pystr) :
  jpath x [a; b] = jget x a ≫= fun y => jget y b.
Proof.
  unfold jpath. destruct (jget x a) as [y|]; simpl; [|reflexivity].
  destruct (jget y b); reflexivity.
Qed.

Lemma jpath_3 (x : json) (a b c : pystr) :
  jpath x [a; b; c] = jget x a ≫= fun y => jget y b ≫= fun z => jget z c.
Proof.
  unfold jpath. destruct (jget x a) as [y|]; simpl; [|reflexivity].
  destruct (jget y b) as [z|]; simpl; [|reflexivity].
  destruct (jget z c); reflexivity.
Qed.

(** Two literal keys that differ. *)
Ltac key_ne := let H := fresh in intros H; vm_compute in H; discriminate H.

(** ** Filename sanitization (generate_json_from_excel.py) *)

(** C7: [safe_filename] removes every occurrence of the two characters dot
    zero, not only a trailing one: 1.05 becomes 15, although the comment in
    the source announces the removal of the trailing dot zero of a number
    read from the sheet.  The two examples of the specification evaluate as
    stated. *)
Theorem safe_filename_removes_inner_dot_zero :
  generate_json_from_excel.safe_filename (py "1.05") = py "15"
  /\ generate_json_from_excel.safe_filename (py "123.0") = py "123"
  /\ generate_json_from_excel.safe_filename (py "A/B:C") = py "A-B-C".
Proof. repeat split; vm_compute; reflexivity. Qed.

(** ** Edit API (app.py) *)

(** C9: for a SKU without a content file, GET and POST answer 404 with the
    error payload and POST leaves the directory as it is; for a SKU with a
    file, GET answers the record stored in it. *)
Theorem edit_api_not_found (fs : gmap pystr json) (sku : pystr) :
  (fs !! app.content_file sku = None ->
     app.get_product fs sku = app.not_found
     /\ forall data, app.save_product fs sku data = Some (app.not_found, fs))
  /\ (forall product, fs !! app.content_file sku = Some product ->
        app.get_product fs sku = (200%Z, product)).
Proof.
  unfold app.get_product, app.save_product. split.
  - intros ->. split; [reflexivity|]. intros data. reflexivity.
  - intros product ->. reflexivity.
Qed.

Lemma edit_api_not_found_witness :
  (app.get_product content_K100 (py "K999") = app.not_found
   /\ forall data,
        app.save_product content_K100 (py "K999") data
        = Some (app.not_found, content_K100))
  /\ app.get_product content_K100 (py "K100") = (200%Z, record_K100).
Proof.
  split.
  - apply (edit_api_not_found content_K100 (py "K999")).
    vm_compute. reflexivity.
  - apply (edit_api_not_found content_K100 (py "K100")).
    vm_compute. reflexivity.
Defined.

(** What the UTF-8 codec encodes, member by member. *)
Lemma utf8_json_lookup (k : pystr) (v : json) (d : dict) :
  utf8_json (JObj d) = true -> alookup k d = Some v -> utf8_json v = true.
Proof.
  cbn [utf8_json]. induction d as [|[k0 v0] d IH]; cbn [forallb alookup fst snd];
    [discriminate|].
  intros H. apply andb_true_iff in H. destruct H as [H0 H].
  apply andb_true_iff in H0. destruct H0 as [_ H0].
  destruct (str_eqb k k0); [intros [= <-]; exact H0|apply IH; exact H].
Qed.

Lemma utf8_json_get (k : pystr) (dflt : json) (d : dict) :
  utf8_json (JObj d) = true -> utf8_json dflt = true ->
  utf8_json (dict_get k dflt d) = true.
Proof.
  intros Hd Hdflt. unfold dict_get.
  destruct (alookup k d) as [v|] eqn:E; [|exact Hdflt].
  exact (utf8_json_lookup k v d Hd E).
Qed.

Lemma utf8_json_set (k : pystr) (v : json) (d : dict) :
  utf8_text k = true -> utf8_json v = true -> utf8_json (JObj d) = true ->
  utf8_json (JObj (dict_set k v d)) = true.
Proof.
  intros Hk Hv. cbn [utf8_json].
  induction d as [|[k0 v0] d IH]; cbn [dict_set forallb fst snd].
  - intros _. rewrite Hk, Hv. reflexivity.
  - intros H. apply andb_true_iff in H. destruct H as [H0 H].
    destruct (str_eqb k k0); cbn [forallb fst snd].
    + rewrite Hk, Hv, H. reflexivity.
    + rewrite H0, (IH H). reflexivity.
Qed.

(** C10: a POST for an existing SKU, when the stored document and the body
    hold no surrogate, stores in the block of the posted language the four
    editable fields of the body, with the empty text (the empty list for the
    history) for a field the body omits; the other members of that block,
    the blocks of the other languages, the other top-level fields of the
    record and the other files stay as they were. *)
Theorem save_product_assigns_all_fields
  (fs : gmap pystr json) (sku lang : pystr) (p body i18n : dict) :
  fs !! app.content_file sku = Some (JObj p) ->
  alookup (py "lang") body = Some (JStr lang) ->
  dict_get (py "i18n") (JObj []) p = JObj i18n ->
  (forall b, alookup lang i18n = Some b -> exists d, b = JObj d) ->
  utf8_json (JObj p) = true ->
  utf8_json (JObj body) = true ->
  exists p' : json,
    app.save_product fs sku (JObj body)
    = Some ((200%Z, JObj [ (py "status", JStr (py "saved")) ]),
            <[ app.content_file sku := p' ]> fs)
    /\ jpath p' [py "i18n"; lang; py "description"]
       = Some (dict_get (py "description") (JStr []) body)
    /\ jpath p' [py "i18n"; lang; py "ingredients"]
       = Some (dict_get (py "ingredients") (JStr []) body)
    /\ jpath p' [py "i18n"; lang; py "precautions"]
       = Some (dict_get (py "precautions") (JStr []) body)
    /\ jpath p' [py "i18n"; lang; py "history"]
       = Some (dict_get (py "history") (JArr []) body)
    /\ (forall k, k ∉ editable ->
          jpath p' [py "i18n"; lang; k] = jpath (JObj p) [py "i18n"; lang; k])
    /\ (forall l, l <> lang ->
          jpath p' [py "i18n"; l] = jpath (JObj p) [py "i18n"; l])
    /\ (forall k, k <> py "i18n" -> jget p' k = jget (JObj p) k).
Proof.
  intros Hfile Hlang Hi18n Hblock Hup Hub.
  unfold app.save_product, app.save_product_doc. rewrite Hfile.
  cbn [as_dict mbind option_bind]. rewrite Hlang.
  cbn [as_str as_dict mbind option_bind]. rewrite Hi18n.
  cbn [as_dict mbind option_bind].
  set (i18n1 := if dict_has lang i18n then i18n
                else dict_set lang (JObj []) i18n).
  assert (Hp : alookup (py "i18n") p = Some (JObj i18n)
               \/ (alookup (py "i18n") p = None /\ i18n = [])).
  { unfold dict_get in Hi18n.
    destruct (alookup (py "i18n") p) as [x|].
    - left. rewrite Hi18n. reflexivity.
    - right. split; [reflexivity|]. congruence. }
  assert (Hold : exists old, alookup lang i18n1 = Some (JObj old)
                 /\ forall k, alookup k old
                      = jpath (JObj p) [py "i18n"; lang; k]).
  { unfold i18n1, dict_has.
    destruct (alookup lang i18n) as [b|] eqn:Eb.
    - destruct (Hblock b eq_refl) as [old ->]. exists old.
      split; [exact Eb|]. intros k. rewrite jpath_3.
      destruct Hp as [Hp|[_ ->]]; [|discriminate Eb].
      simpl. rewrite Hp. simpl. rewrite Eb. reflexivity.
    - exists []. rewrite alookup_dict_set_eq. split; [reflexivity|].
      intros k. rewrite jpath_3. simpl.
      destruct Hp as [Hp|[Hp _]]; rewrite Hp; simpl;
        [rewrite Eb|]; reflexivity. }
  destruct Hold as (old & Hold & Hframe). rewrite Hold.
  cbn [as_dict mbind option_bind].
  assert (Hlang8 : utf8_text lang = true)
    by exact (utf8_json_lookup _ _ _ Hub Hlang).
  assert (Hi8 : utf8_json (JObj i18n1) = true).
  { assert (H0 : utf8_json (JObj i18n) = true)
      by (rewrite <- Hi18n; apply utf8_json_get; [exact Hup|reflexivity]).
    unfold i18n1. destruct (dict_has lang i18n); [exact H0|].
    apply utf8_json_set; [exact Hlang8|reflexivity|exact H0]. }
  match goal with
  | |- context [utf8_json ?x] => assert (Hu : utf8_json x = true)
  end.
  { apply utf8_json_set; [reflexivity| |exact Hup].
    apply utf8_json_set; [exact Hlang8| |exact Hi8].
    repeat (apply utf8_json_set;
            [reflexivity|apply utf8_json_get; [exact Hub|reflexivity]|]).
    exact (utf8_json_lookup _ _ _ Hi8 Hold). }
  rewrite Hu.
  eexists. split; [reflexivity|].
  rewrite !jpath_3. simpl.
  rewrite !alookup_dict_set_eq. simpl. rewrite !alookup_dict_set_eq. simpl.
  repeat split.
  - rewrite !alookup_dict_set_ne by key_ne. apply alookup_dict_set_eq.
  - rewrite !alookup_dict_set_ne by key_ne. apply alookup_dict_set_eq.
  - rewrite !alookup_dict_set_ne by key_ne. apply alookup_dict_set_eq.
  - apply alookup_dict_set_eq.
  - intros k Hk. unfold editable in Hk.
    rewrite !not_elem_of_cons in Hk. destruct Hk as (H1 & H2 & H3 & H4 & _).
    rewrite jpath_3. simpl. rewrite alookup_dict_set_eq. simpl.
    rewrite alookup_dict_set_eq. simpl.
    rewrite !alookup_dict_set_ne by assumption. apply Hframe.
  - intros l Hl. rewrite !jpath_2. simpl.
    rewrite alookup_dict_set_eq. simpl.
    rewrite alookup_dict_set_ne by exact Hl.
    unfold i18n1.
    destruct Hp as [Hp|[Hp ->]]; rewrite Hp; simpl.
    + destruct (dict_has lang i18n); [reflexivity|].
      apply alookup_dict_set_ne. exact Hl.
    + rewrite str_eqb_ne by exact Hl. reflexivity.
  - intros k Hk. apply alookup_dict_set_ne. exact Hk.
Qed.

Lemma save_product_assigns_all_fields_witness :
  exists p' : json,
    app.save_product content_K100 (py "K100") (JObj body_partial)
    = Some ((200%Z, JObj [ (py "status", JStr (py "saved")) ]),
            <[ app.content_file (py "K100") := p' ]> content_K100)
    /\ jpath p' [py "i18n"; py "en"; py "description"]
       = Some (JStr (py "Kalamata olives."))
    /\ jpath p' [py "i18n"; py "en"; py "ingredients"] = Some (JStr [])
    /\ jpath p' [py "i18n"; py "en"; py "precautions"] = Some (JStr [])
    /\ jpath p' [py "i18n"; py "en"; py "history"] = Some (JArr [])
    /\ (forall k, k ∉ editable ->
          jpath p' [py "i18n"; py "en"; k]
          = jpath record_K100 [py "i18n"; py "en"; k])
    /\ (forall l, l <> py "en" ->
          jpath p' [py "i18n"; l] = jpath record_K100 [py "i18n"; l])
    /\ (forall k, k <> py "i18n" -> jget p' k = jget record_K100 k).
Proof.
  apply (save_product_assigns_all_fields content_K100 (py "K100") (py "en")
           fields_K100 body_partial i18n_K100).
  - vm_compute. reflexivity.
  - vm_compute. reflexivity.
  - vm_compute. reflexivity.
  - intros b H. vm_compute in H. injection H as <-. eexists. reflexivity.
  - vm_compute. reflexivity.
  - vm_compute. reflexivity.
Defined.

(** C10, as the claim states it, fails for a body whose description holds a
    surrogate: the handler raises in the write, no field is assigned and the
    file of the SKU is left empty. *)
Lemma save_product_raises_on_surrogate :
  content_K100 !! app.content_file (py "K100") = Some record_K100
  /\ app.save_product content_K100 (py "K100") (JObj body_surrogate) = None
  /\ app.save_product_empties content_K100 (py "K100") (JObj body_surrogate)
     = true.
Proof. repeat split; vm_compute; reflexivity. Qed.

(** ** Merger (merge_enriched_into_content.py) *)

Section merge.

Import merge_enriched_into_content.

Lemma merge_field_spec (en_new o o' : json) (c c' : bool) (f : pystr) :
  merge_field en_new (o, c) f = Some (o', c') ->
  (forall g, jget o' g
     = if str_eqb g f then merged_value (jget o f) (jget en_new f)
       else jget o g)
  /\ ((o' = o /\ c' = c) \/ c' = true).
Proof.
  unfold merge_field, py_in, py_index, py_get. intros H.
  assert (Hsame : forall m : option json, m = jget o f ->
            (forall g, jget o g = if str_eqb g f then m else jget o g)).
  { intros m -> g. destruct (str_eqb g f) eqn:E; [|reflexivity].
    apply str_eqb_eq in E. subst g. reflexivity. }
  destruct en_new as [| | |s|l|d]; simpl in H; try discriminate H.
  - destruct (contains f s); simpl in H; [discriminate H|].
    injection H as <- <-. split; [|left; auto]. apply Hsame. reflexivity.
  - destruct (existsb _ l); simpl in H; [discriminate H|].
    injection H as <- <-. split; [|left; auto]. apply Hsame. reflexivity.
  - unfold dict_has in H. simpl.
    destruct (alookup f d) as [v|] eqn:Ev; simpl in H.
    + unfold merged_value. destruct (truthy v) eqn:Tv; simpl.
      * destruct o as [| | | | |od]; simpl in H; try discriminate H.
        unfold dict_get in H. simpl.
        destruct (py_eq (default JNull (alookup f od)) v) eqn:Eq.
        -- replace (py_eq match alookup f od with
                          | Some v0 => v0 | None => JNull end v)
             with true in H.
           injection H as <- <-. split; [|left; auto].
           apply (Hsame _ eq_refl).
        -- replace (py_eq match alookup f od with
                          | Some v0 => v0 | None => JNull end v)
             with false in H.
           injection H as <- <-. split; [|right; reflexivity].
           intros g. simpl. apply alookup_dict_set.
      * injection H as <- <-. split; [|left; auto]. apply Hsame. reflexivity.
    + injection H as <- <-. split; [|left; auto]. apply Hsame. reflexivity.
Qed.

Lemma merge_fields_flag (en_new o o' : json) (c' : bool) (fs : list pystr) :
  merge_fields en_new (o, true) fs = Some (o', c') -> c' = true.
Proof.
  revert o. induction fs as [|f fs IH]; intros o H; simpl in H.
  - congruence.
  - destruct (merge_field en_new (o, true) f) as [[o1 c1]|] eqn:E;
      simpl in H; [|discriminate H].
    apply merge_field_spec in E. destruct E as [_ [[_ ->]| ->]];
      apply (IH _ H).
Qed.

Lemma merge_fields_spec (en_new o o' : json) (c c' : bool) (fs : list pystr) :
  NoDup fs ->
  merge_fields en_new (o, c) fs = Some (o', c') ->
  (forall g, jget o' g
     = if bool_decide (g ∈ fs) then merged_value (jget o g) (jget en_new g)
       else jget o g)
  /\ ((o' = o /\ c' = c) \/ c' = true).
Proof.
  intros Hnd. revert o c. induction Hnd as [|f fs Hf Hnd IH]; intros o c H.
  - simpl in H. injection H as <- <-. split; [|left; auto].
    intros g. reflexivity.
  - simpl in H.
    destruct (merge_field en_new (o, c) f) as [[o1 c1]|] eqn:E;
      simpl in H; [|discriminate H].
    apply merge_field_spec in E. destruct E as [E1 E2].
    destruct (IH _ _ H) as [I1 I2]. split.
    + intros g. rewrite I1, !E1.
      destruct (str_eqb g f) eqn:Eg.
      * apply str_eqb_eq in Eg. subst g.
        rewrite (bool_decide_eq_false_2 _ Hf).
        rewrite bool_decide_eq_true_2 by (left). reflexivity.
      * assert (g <> f) by (intros ->; rewrite str_eqb_refl in Eg; discriminate).
        destruct (bool_decide (g ∈ fs)) eqn:Er.
        -- apply bool_decide_eq_true in Er.
           rewrite bool_decide_eq_true_2 by (right; exact Er). reflexivity.
        -- apply bool_decide_eq_false in Er.
           rewrite bool_decide_eq_false_2; [reflexivity|].
           rewrite elem_of_cons. tauto.
    + destruct E2 as [[-> ->]| ->]; [exact I2|].
      right. destruct I2 as [[_ ?]|?]; [congruence|assumption].
Qed.

Lemma FIELDS_TO_MERGE_NoDup : NoDup FIELDS_TO_MERGE.
Proof.
  apply (bool_decide_eq_true_1 (NoDup FIELDS_TO_MERGE)).
  vm_compute. reflexivity.
Qed.

(** The field [f] of the English block in the file after the merger. *)
Lemma merge_file_field (enriched : dict) (sku f : pystr)
  (product entry merged : json) :
  alookup sku enriched = Some entry ->
  merge_file enriched sku product = Some merged ->
  f ∈ FIELDS_TO_MERGE ->
  jpath merged [py "i18n"; py "en"; f]
  = merged_value (jpath product [py "i18n"; py "en"; f])
                 (jpath entry [py "i18n"; py "en"; f]).
Proof.
  intros He Hm Hf. unfold merge_file in Hm. rewrite He in Hm.
  unfold merge_record in Hm.
  pose proof FIELDS_TO_MERGE_NoDup as Hnd.
  revert Hm Hf Hnd. generalize FIELDS_TO_MERGE. intros fields Hm Hf Hnd.
  destruct product as [| | | | |p]; simpl in Hm; try discriminate Hm.
  destruct (as_dict (dict_get (py "i18n") (JObj []) p)) as [i|] eqn:Ei;
    simpl in Hm; [|discriminate Hm].
  destruct entry as [| | | | |e]; simpl in Hm; try discriminate Hm.
  destruct (dict_get (py "i18n") (JObj []) e) as [| | | | |ei] eqn:Eei;
    simpl in Hm; try discriminate Hm.
  destruct (merge_fields (dict_get (py "en") (JObj []) ei)
              (dict_get (py "en") (JObj []) i, false) fields)
    as [[o' c']|] eqn:Efs; simpl in Hm; [|discriminate Hm].
  injection Hm as <-.
  apply (merge_fields_spec _ _ _ _ _ _ Hnd) in Efs.
  destruct Efs as [Hval Hflag].
  assert (Hold : jpath (JObj p) [py "i18n"; py "en"; f]
                 = jget (dict_get (py "en") (JObj []) i) f).
  { rewrite jpath_3. simpl. unfold dict_get in Ei |- *.
    destruct (alookup (py "i18n") p) as [x|]; simpl in *.
    - destruct x; try discriminate Ei. injection Ei as ->. simpl.
      destruct (alookup (py "en") i); reflexivity.
    - injection Ei as <-. reflexivity. }
  assert (Hnew : jpath (JObj e) [py "i18n"; py "en"; f]
                 = jget (dict_get (py "en") (JObj []) ei) f).
  { rewrite jpath_3. simpl. unfold dict_get in Eei |- *.
    destruct (alookup (py "i18n") e) as [x|]; simpl in *.
    - subst x. simpl. destruct (alookup (py "en") ei); reflexivity.
    - injection Eei as <-. reflexivity. }
  rewrite Hold, Hnew.
  specialize (Hval f). rewrite bool_decide_eq_true_2 in Hval by exact Hf.
  destruct c'.
  - rewrite jpath_3. simpl. rewrite alookup_dict_set_eq. simpl.
    rewrite alookup_dict_set_eq. simpl.
    destruct (jget o' f) eqn:E; rewrite <- Hval; reflexivity.
  - destruct Hflag as [[-> _]|?]; [|discriminate].
    rewrite Hold. exact Hval.
Qed.

(** C4: the merger never clears a field.  For a SKU of both stores and a
    mergeable field, an enriched value that is absent or empty leaves the
    field of the stored English block as it was; the field differs from its
    old value only if the enriched value is not empty and differs from the
    old one, and it is then the enriched value; and an enriched value that is
    not empty and differs from the old one is stored. *)
Theorem merge_never_clears (enriched : dict) (sku f : pystr)
  (product entry merged : json) :
  alookup sku enriched = Some entry ->
  merge_file enriched sku product = Some merged ->
  f ∈ FIELDS_TO_MERGE ->
  let old := jpath product [py "i18n"; py "en"; f] in
  let new := jpath entry [py "i18n"; py "en"; f] in
  let out := jpath merged [py "i18n"; py "en"; f] in
  ((new = None \/ exists v, new = Some v /\ truthy v = false) -> out = old)
  /\ (out <> old ->
        exists v, new = Some v /\ truthy v = true
                  /\ py_eq (default JNull old) v = false /\ out = Some v)
  /\ (forall v, new = Some v -> truthy v = true ->
        py_eq (default JNull old) v = false -> out = Some v).
Proof.
  intros He Hm Hf old new out.
  assert (Hout : out = merged_value old new)
    by (apply (merge_file_field enriched sku); assumption).
  clearbody old new out. subst out. unfold merged_value.
  split; [|split].
  - intros [->|(v & -> & Hv)]; [reflexivity|]. rewrite Hv. reflexivity.
  - intros Hne. destruct new as [v|]; [|congruence].
    destruct (truthy v) eqn:Tv; simpl in *; [|congruence].
    destruct (py_eq (default JNull old) v) eqn:Eq; simpl in *; [congruence|].
    exists v. auto.
  - intros v -> Hv Hq. rewrite Hv, Hq. reflexivity.
Qed.

End merge.

Lemma merge_never_clears_witness :
  exists merged,
    merge_enriched_into_content.merge_file enriched_K100 (py "K100")
      record_K100 = Some merged
    /\ jpath merged [py "i18n"; py "en"; py "description"]
       = jpath record_K100 [py "i18n"; py "en"; py "description"]
    /\ jpath merged [py "i18n"; py "en"; py "ingredients"]
       = Some (JStr (py "Ingredients: olives, brine.")).
Proof.
  eexists. split; [vm_compute; reflexivity|]. split.
  - refine (proj1 (merge_never_clears enriched_K100 (py "K100")
                     (py "description") record_K100 entry_K100 _ _ _ _) _).
    + vm_compute. reflexivity.
    + vm_compute. reflexivity.
    + apply (bool_decide_eq_true_1 _). vm_compute. reflexivity.
    + right. eexists. split; vm_compute; reflexivity.
  - refine (proj2 (proj2 (merge_never_clears enriched_K100 (py "K100")
                            (py "ingredients") record_K100 entry_K100
                            _ _ _ _))
              _ _ _ _).
    + vm_compute. reflexivity.
    + vm_compute. reflexivity.
    + apply (bool_decide_eq_true_1 _). vm_compute. reflexivity.
    + vm_compute. reflexivity.
    + vm_compute. reflexivity.
    + vm_compute. reflexivity.
Defined.

(** ** Equality of Python values *)

Lemma py_eq_arr_length (a b : list json) :
  py_eq (JArr a) (JArr b) = true -> length a = length b.
Proof.
  revert b. induction a as [|x a IH]; intros [|y b] H; simpl in H;
    try discriminate H; [reflexivity|].
  apply andb_true_iff in H. destruct H as [_ H].
  simpl. f_equal. apply IH. exact H.
Qed.

Lemma py_eq_arr_inv (a : list json) (y : json) :
  py_eq (JArr a) y = true -> exists b, y = JArr b /\ length a = length b.
Proof.
  destruct y as [| | | |b|]; simpl; try discriminate.
  intros H. exists b. split; [reflexivity|].
  apply py_eq_arr_length. exact H.
Qed.

Lemma dict_set_id (k : pystr) (v : json) (d : dict) :
  alookup k d = Some v -> dict_set k v d = d.
Proof.
  induction d as [|[k0 v0] d IH]; simpl; [discriminate|].
  destruct (str_eqb k k0) eqn:E.
  - apply str_eqb_eq in E. subst k0. intros [= ->]. reflexivity.
  - intros H. rewrite (IH H). reflexivity.
Qed.

Lemma dict_set_set (k : pystr) (v w : json) (d : dict) :
  dict_set k v (dict_set k w d) = dict_set k v d.
Proof.
  induction d as [|[k0 v0] d IH]; simpl.
  - rewrite str_eqb_refl. reflexivity.
  - destruct (str_eqb k k0) eqn:E; simpl.
    + rewrite str_eqb_refl. reflexivity.
    + rewrite E, IH. reflexivity.
Qed.

(** ** Premium Pass (premium_pass.py) *)

Section premium.

Import premium_pass.

Context (U : unicode).

Lemma step_spec (field : pystr) (dflt : json) (f : json -> option json)
  (en en' : dict) (c c' : bool) :
  step field dflt f (en, c) = Some (en', c') ->
  exists new, f (dict_get field dflt en) = Some new
    /\ ((py_eq new (dict_get field dflt en) = true /\ en' = en /\ c' = c)
        \/ (py_eq new (dict_get field dflt en) = false
            /\ en' = dict_set field new en /\ c' = true)).
Proof.
  unfold step. simpl.
  destruct (f (dict_get field dflt en)) as [new|]; simpl; [|discriminate].
  intros H. exists new. split; [reflexivity|].
  destruct (py_eq new (dict_get field dflt en)); simpl in H;
    injection H as <- <-; auto.
Qed.

(** A step leaves the other fields alone. *)
Lemma step_frame (field k : pystr) (dflt dflt' : json)
  (f : json -> option json) (en en' : dict) (c c' : bool) :
  step field dflt f (en, c) = Some (en', c') -> k <> field ->
  dict_get k dflt' en' = dict_get k dflt' en.
Proof.
  intros H Hk. apply step_spec in H.
  destruct H as (new & _ & [(_ & -> & _)|(_ & -> & _)]); [reflexivity|].
  apply dict_get_set_ne. exact Hk.
Qed.

(** A step whose function answers the value it reads changes nothing. *)
Lemma step_fixed (field : pystr) (dflt : json) (f : json -> option json)
  (en : dict) (c : bool) :
  f (dict_get field dflt en) = Some (dict_get field dflt en) ->
  py_eq dflt dflt = true ->
  exists c', step field dflt f (en, c) = Some (en, c').
Proof.
  intros Hf Hd. unfold step. simpl. rewrite Hf. simpl.
  destruct (py_eq (dict_get field dflt en) (dict_get field dflt en)) eqn:E;
    simpl; [eauto|].
  unfold dict_get in *. destruct (alookup field en) as [v|] eqn:Ev.
  - rewrite (dict_set_id _ _ _ Ev). eauto.
  - congruence.
Qed.

Lemma enhance_history_spec (history brand category country new : json) :
  enhance_history U history brand category country = Some new ->
  (new = history
   /\ (truthy history = false
       \/ exists n, py_len history = Some n /\ (3 <= n)%nat))
  \/ (exists n b co ca,
        py_len history = Some n /\ (1 <= n <= 2)%nat
        /\ truthy history = true
        /\ brand = JStr b
        /\ py_or country (JStr (py "its region of production")) = JStr co
        /\ category = JStr ca
        /\ new = history_template U b co ca).
Proof.
  unfold enhance_history. intros H.
  destruct (truthy history) eqn:T; cbn -[Nat.leb py] in H;
    [|injection H as <-; auto].
  destruct (py_len history) as [n|] eqn:L; cbn -[Nat.leb py] in H;
    [|discriminate H].
  destruct (3 <=? n)%nat eqn:E3.
  - injection H as <-. left. split; [reflexivity|]. right. exists n.
    split; [reflexivity|]. apply Nat.leb_le. exact E3.
  - apply Nat.leb_gt in E3.
    destruct brand as [| | |b| |]; simpl in H; try discriminate H.
    destruct (py_or country (JStr (py "its region of production")))
      as [| | |co| |] eqn:Eco; simpl in H; try discriminate H.
    destruct category as [| | |ca| |]; simpl in H; try discriminate H.
    injection H as <-. right. exists n, b, co, ca.
    repeat split; try reflexivity; try lia.
    destruct history as [| | |s|l|d]; simpl in *; try discriminate;
      injection L as <-.
    + destruct s; [discriminate|simpl; lia].
    + destruct l; [discriminate|simpl; lia].
    + destruct d; [discriminate|simpl; lia].
Qed.

Lemma jpath_2_inv (d : dict) (a b : pystr) (v : json) :
  jpath (JObj d) [a; b] = Some v ->
  exists m, alookup a d = Some (JObj m) /\ alookup b m = Some v.
Proof.
  rewrite jpath_2. simpl. destruct (alookup a d) as [x|]; simpl; [|discriminate].
  destruct x as [| | | | |m]; simpl; try discriminate.
  intros H. exists m. auto.
Qed.

Lemma truthy_dict (en : dict) : en <> [] -> truthy (JObj en) = true.
Proof. destruct en; [congruence|reflexivity]. Qed.

(** The three steps of one turn on a record with an English block. *)
Lemma premium_pass_record_inv (d all en : dict) (data' : json) (changed : bool) :
  premium_pass_record U (JObj d) = Some (data', changed) ->
  alookup (py "i18n") d = Some (JObj all) ->
  alookup (py "en") all = Some (JObj en) -> en <> [] ->
  exists st1 st2 st3,
    step (py "description") (JStr [])
      (fun desc => enhance_description U desc
                     (dict_get (py "category") (JStr []) d)) (en, false)
    = Some st1
    /\ step (py "ingredients") (JStr []) enhance_ingredients st1 = Some st2
    /\ step (py "history") (JArr [])
         (fun hist => enhance_history U hist
                        (dict_get (py "brand") (JStr (py "the brand")) d)
                        (dict_get (py "category") (JStr []) d)
                        (dict_get (py "country_of_origin") (JStr []) d)) st2
       = Some st3
    /\ data' = JObj (dict_set (py "i18n")
                       (JObj (dict_set (py "en") (JObj st3.1) all)) d)
    /\ changed = st3.2.
Proof.
  intros H Hall Hen Hne. unfold premium_pass_record in H.
  assert (Hgi : dict_get (py "i18n") (JObj []) d = JObj all)
    by (unfold dict_get; rewrite Hall; reflexivity).
  assert (Hge : dict_get (py "en") (JObj []) all = JObj en)
    by (unfold dict_get; rewrite Hen; reflexivity).
  cbn -[py step dict_get dict_set truthy] in H. rewrite Hgi in H.
  cbn -[py step dict_get dict_set truthy] in H. rewrite Hge in H.
  rewrite (truthy_dict _ Hne) in H.
  cbn -[py step dict_get dict_set truthy] in H.
  destruct (step (py "description") _ _ _) as [st1|] eqn:S1;
    [|discriminate H].
  cbn -[py step dict_get dict_set] in H.
  destruct (step (py "ingredients") _ _ _) as [st2|] eqn:S2;
    [|discriminate H].
  cbn -[py step dict_get dict_set] in H.
  destruct (step (py "history") _ _ _) as [st3|] eqn:S3; [|discriminate H].
  cbn -[py step dict_get dict_set] in H. injection H as <- <-.
  exists st1, st2, st3. auto.
Qed.

(** C3: on a record with an English block, the pass replaces a history of
    one or two entries by the three entries of the template, and leaves a
    history that is empty, or of three entries or more, as it is.  So no
    entry is ever removed, and the history has three entries or more
    afterwards unless it was empty. *)
Theorem premium_pass_history (d en : dict) (data' : json) (changed : bool)
  (l : list json) :
  premium_pass_record U (JObj d) = Some (data', changed) ->
  jpath (JObj d) [py "i18n"; py "en"] = Some (JObj en) -> en <> [] ->
  dict_get (py "history") (JArr []) en = JArr l ->
  exists (en' : dict) (l' : list json),
    jpath data' [py "i18n"; py "en"] = Some (JObj en')
    /\ dict_get (py "history") (JArr []) en' = JArr l'
    /\ (l = [] \/ (3 <= length l)%nat -> l' = l)
    /\ ((1 <= length l <= 2)%nat ->
        exists b co ca,
          dict_get (py "brand") (JStr (py "the brand")) d = JStr b
          /\ py_or (dict_get (py "country_of_origin") (JStr []) d)
                   (JStr (py "its region of production")) = JStr co
          /\ dict_get (py "category") (JStr []) d = JStr ca
          /\ JArr l' = history_template U b co ca)
    /\ (length l <= length l')%nat
    /\ (l <> [] -> (3 <= length l')%nat).
Proof.
  intros H Hpath Hne Hl.
  destruct (jpath_2_inv _ _ _ _ Hpath) as (all & Hall & Hen).
  destruct (premium_pass_record_inv _ _ _ _ _ H Hall Hen Hne)
    as ([en1 c1] & [en2 c2] & [en3 c3] & S1 & S2 & S3 & -> & _).
  assert (Hh2 : dict_get (py "history") (JArr []) en2 = JArr l).
  { rewrite (step_frame _ _ _ _ _ _ _ _ _ S2) by key_ne.
    rewrite (step_frame _ _ _ _ _ _ _ _ _ S1) by key_ne. exact Hl. }
  apply step_spec in S3. destruct S3 as (new & Hnew & Hcase).
  rewrite Hh2 in Hnew, Hcase. apply enhance_history_spec in Hnew.
  assert (Hout : jpath (JObj (dict_set (py "i18n")
                   (JObj (dict_set (py "en") (JObj (en3, c3).1) all)) d))
                   [py "i18n"; py "en"] = Some (JObj en3)).
  { rewrite jpath_2. simpl. rewrite alookup_dict_set_eq. simpl.
    apply alookup_dict_set_eq. }
  exists en3.
  destruct Hnew as [(-> & Hkeep)|(n & b & co & ca & Hn & Hrange & _ & Hb & Hco
                                  & Hca & ->)].
  - (* the history is kept *)
    exists l. split; [exact Hout|]. split.
    { destruct Hcase as [(_ & -> & _)|(_ & -> & _)]; [exact Hh2|].
      apply dict_get_set_eq. }
    split; [reflexivity|]. split.
    { intros Hr. exfalso. destruct Hkeep as [Hk|(m & Hm & Hm3)].
      - destruct l; simpl in *; [lia|discriminate].
      - simpl in Hm. injection Hm as <-. lia. }
    split; [lia|]. intros Hl0.
    destruct Hkeep as [Hk|(m & Hm & Hm3)].
    + destruct l; [congruence|discriminate].
    + simpl in Hm. injection Hm as <-. exact Hm3.
  - (* the history is rebuilt *)
    simpl in Hn. injection Hn as <-.
    destruct Hcase as [(Heq & _)|(_ & -> & _)].
    { apply py_eq_arr_inv in Heq. destruct Heq as (m & [= <-] & Hlen).
      simpl in Hlen. lia. }
    eexists. split; [exact Hout|]. split.
    { rewrite dict_get_set_eq. reflexivity. }
    split; [intros [->|?]; simpl in *; lia|]. split.
    { intros _. exists b, co, ca. auto. }
    split; simpl; intros; lia.
Qed.

Lemma enhance_description_dense (v category : json) :
  dense 180 v -> enhance_description U v category = Some v.
Proof.
  unfold enhance_description. intros [T|(n & L & Hn)].
  - rewrite T. reflexivity.
  - destruct (truthy v); [|reflexivity]. cbn -[Nat.ltb py]. rewrite L.
    cbn -[Nat.ltb py]. apply Nat.ltb_lt in Hn. rewrite Hn. reflexivity.
Qed.

Lemma enhance_ingredients_dense (v : json) :
  dense 60 v -> enhance_ingredients v = Some v.
Proof.
  unfold enhance_ingredients. intros [T|(n & L & Hn)].
  - rewrite T. reflexivity.
  - destruct (truthy v); [|reflexivity]. cbn -[Nat.ltb py]. rewrite L.
    cbn -[Nat.ltb py]. apply Nat.ltb_lt in Hn. rewrite Hn. reflexivity.
Qed.

Lemma enhance_history_kept (h brand category country : json) :
  truthy h = false \/ (exists n, py_len h = Some n /\ (3 <= n)%nat) ->
  enhance_history U h brand category country = Some h.
Proof.
  unfold enhance_history. intros [T|(n & L & Hn)].
  - rewrite T. reflexivity.
  - destruct (truthy h); [|reflexivity]. cbn -[Nat.leb py]. rewrite L.
    cbn -[Nat.leb py]. apply Nat.leb_le in Hn. rewrite Hn. reflexivity.
Qed.

Lemma dict_set_nonempty (k : pystr) (v : json) (d : dict) :
  dict_set k v d <> [].
Proof.
  destruct d as [|[k0 v0] d]; simpl; [discriminate|].
  destruct (str_eqb k k0); discriminate.
Qed.

Lemma step_nonempty (field : pystr) (dflt : json) (f : json -> option json)
  (en en' : dict) (c c' : bool) :
  step field dflt f (en, c) = Some (en', c') -> en <> [] -> en' <> [].
Proof.
  intros H Hne. apply step_spec in H.
  destruct H as (new & _ & [(_ & -> & _)|(_ & -> & _)]); [exact Hne|].
  apply dict_set_nonempty.
Qed.

(** The history after the third step is one that [enhance_history] keeps. *)
Lemma history_step_settled (brand category country : json)
  (en en' : dict) (c c' : bool) :
  step (py "history") (JArr [])
    (fun hist => enhance_history U hist brand category country) (en, c)
  = Some (en', c') ->
  enhance_history U (dict_get (py "history") (JArr []) en')
    brand category country
  = Some (dict_get (py "history") (JArr []) en').
Proof.
  intros H. apply step_spec in H. destruct H as (new & Hnew & Hcase).
  pose proof Hnew as Hspec. apply enhance_history_spec in Hspec.
  destruct Hspec as [(-> & Hkeep)|(n & b & co & ca & Hn & Hr & _ & _ & _ & _
                                   & ->)].
  - apply enhance_history_kept.
    destruct Hcase as [(_ & -> & _)|(_ & -> & _)]; [exact Hkeep|].
    rewrite dict_get_set_eq. exact Hkeep.
  - destruct Hcase as [(Heq & _)|(_ & -> & _)].
    + apply py_eq_arr_inv in Heq. destruct Heq as (m & Hm & Hlen).
      rewrite Hm in Hn. simpl in Hn, Hlen. injection Hn as <-. lia.
    + rewrite dict_get_set_eq. apply enhance_history_kept.
      right. exists 3%nat. split; [reflexivity|lia].
Qed.

(** A second turn of the Premium Pass changes nothing more, provided the
    first left a description and ingredients it does not pad. *)
Lemma premium_pass_settled (r r1 : json) :
  premium_pass U r = Some r1 ->
  dense 180 (en_text r1 (py "description")) ->
  dense 60 (en_text r1 (py "ingredients")) ->
  premium_pass U r1 = Some r1.
Proof.
  unfold premium_pass. intros H Hd Hi.
  destruct (premium_pass_record U r) as [[r1' c]|] eqn:E; [|discriminate H].
  simpl in H. injection H as ->.
  destruct r as [| | | | |d]; try discriminate E.
  pose proof E as E0. unfold premium_pass_record in E.
  cbn -[py step dict_get dict_set truthy] in E.
  destruct (dict_get (py "i18n") (JObj []) d) as [| | | | |all] eqn:Hgi;
    try discriminate E.
  cbn -[py step dict_get dict_set truthy] in E.
  destruct (truthy (dict_get (py "en") (JObj []) all)) eqn:T.
  2: { cbn in E. injection E as <- <-. rewrite E0. reflexivity. }
  destruct (dict_get (py "en") (JObj []) all) as [| | | | |en] eqn:Hge;
    try discriminate E.
  assert (Hne : en <> []) by (destruct en; [discriminate T|discriminate]).
  assert (Hall : alookup (py "i18n") d = Some (JObj all)).
  { unfold dict_get in Hgi. destruct (alookup (py "i18n") d) as [x|].
    - rewrite Hgi. reflexivity.
    - injection Hgi as <-. unfold dict_get in Hge. simpl in Hge.
      injection Hge as <-. congruence. }
  assert (Hen : alookup (py "en") all = Some (JObj en)).
  { unfold dict_get in Hge. destruct (alookup (py "en") all) as [x|].
    - rewrite Hge. reflexivity.
    - injection Hge as <-. congruence. }
  clear E.
  destruct (premium_pass_record_inv _ _ _ _ _ E0 Hall Hen Hne)
    as ([en1 c1] & [en2 c2] & [en3 c3] & S1 & S2 & S3 & -> & _).
  simpl fst in *.
  assert (Hne3 : en3 <> []).
  { eapply step_nonempty; [exact S3|]. eapply step_nonempty; [exact S2|].
    eapply step_nonempty; [exact S1|]. exact Hne. }
  assert (Htext : forall f, en_text (JObj (dict_set (py "i18n")
                    (JObj (dict_set (py "en") (JObj en3) all)) d)) f
                  = dict_get f (JStr []) en3).
  { intros f. unfold en_text. rewrite jpath_3. simpl.
    rewrite alookup_dict_set_eq. simpl. rewrite alookup_dict_set_eq.
    reflexivity. }
  rewrite Htext in Hd, Hi.
  unfold premium_pass_record.
  cbn -[py step dict_get dict_set truthy].
  rewrite dict_get_set_eq. cbn -[py step dict_get dict_set truthy].
  rewrite dict_get_set_eq. rewrite (truthy_dict _ Hne3).
  cbn -[py step dict_get dict_set truthy].
  rewrite !(dict_get_set_ne _ (py "i18n")) by key_ne.
  destruct (step_fixed (py "description") (JStr [])
              (fun desc => enhance_description U desc
                             (dict_get (py "category") (JStr []) d))
              en3 false) as [c1' ->];
    [apply enhance_description_dense; exact Hd|reflexivity|].
  cbn -[py step dict_get dict_set truthy].
  destruct (step_fixed (py "ingredients") (JStr []) enhance_ingredients
              en3 c1') as [c2' ->];
    [apply enhance_ingredients_dense; exact Hi|reflexivity|].
  cbn -[py step dict_get dict_set truthy].
  destruct (step_fixed (py "history") (JArr [])
              (fun hist => enhance_history U hist
                 (dict_get (py "brand") (JStr (py "the brand")) d)
                 (dict_get (py "category") (JStr []) d)
                 (dict_get (py "country_of_origin") (JStr []) d))
              en3 c2') as [c3' ->];
    [eapply history_step_settled; exact S3|reflexivity|].
  cbn -[py step dict_get dict_set truthy].
  rewrite !dict_set_set. reflexivity.
Qed.

End premium.

Lemma premium_pass_history_witness :
  exists (data' : json) (changed : bool) (en' : dict) (l' : list json),
    premium_pass.premium_pass_record ascii_tables (JObj fields_short_history)
    = Some (data', changed)
    /\ jpath data' [py "i18n"; py "en"] = Some (JObj en')
    /\ dict_get (py "history") (JArr []) en' = JArr l'
    /\ JArr l' = premium_pass.history_template ascii_tables
                   (py "LEFFE") (py "Belgium") (py "Beer").
Proof.
  destruct (premium_pass.premium_pass_record ascii_tables
              (JObj fields_short_history)) as [[data' c]|] eqn:E.
  2: { vm_compute in E. discriminate E. }
  destruct (premium_pass_history ascii_tables fields_short_history
              [ (py "title", JStr (py "Leffe Blonde"));
                (py "history",
                 JArr [ JObj [ (py "year", JStr (py "1240"));
                               (py "text", JStr (py "Abbey of Leffe.")) ] ]) ]
              data' c
              [ JObj [ (py "year", JStr (py "1240"));
                       (py "text", JStr (py "Abbey of Leffe.")) ] ] E)
    as (en' & l' & H1 & H2 & _ & H4 & _).
  - vm_compute. reflexivity.
  - discriminate.
  - vm_compute. reflexivity.
  - exists data', c, en', l'.
    split; [reflexivity|]. split; [exact H1|]. split; [exact H2|].
    destruct H4 as (b & co & ca & Hb & Hco & Hca & ->); [simpl; lia|].
    vm_compute in Hb. vm_compute in Hco. vm_compute in Hca.
    injection Hb as <-. injection Hco as <-. injection Hca as <-.
    reflexivity.
Defined.

(** C3, as the claim states it, fails on a record whose history is empty:
    the pass leaves the history empty. *)
Lemma premium_pass_keeps_empty_history :
  exists (data' : json) (changed : bool),
    premium_pass.premium_pass_record ascii_tables record_K100
    = Some (data', changed)
    /\ jpath record_K100 [py "i18n"; py "en"; py "history"] = Some (JArr [])
    /\ jpath data' [py "i18n"; py "en"; py "history"] = Some (JArr []).
Proof.
  eexists _, _. split; [vm_compute; reflexivity|].
  split; vm_compute; reflexivity.
Qed.

(** ** The cache of the Enricher (enrich_products.py) *)

Section enrich.

Context (sha1 : pystr -> pystr).

(** A search that raises is stored as the empty list of results, and the
    same query is then answered from the cache, whatever the network does. *)
Lemma failed_search_is_cached (W : web) (query : pystr) (n : nat)
  (cache : WebCache) :
  load_search sha1 cache query = None ->
  search_results W query n = None ->
  (ddg_search sha1 W query n cache).1 = []
  /\ forall W' n',
       ddg_search sha1 W' query n' (ddg_search sha1 W query n cache).2
       = ([], (ddg_search sha1 W query n cache).2).
Proof.
  intros Hmiss Hfail. unfold ddg_search. rewrite Hmiss, Hfail. simpl.
  split; [reflexivity|]. intros W' n'.
  unfold load_search, save_search. simpl.
  rewrite lookup_insert_eq. reflexivity.
Qed.

(** C5: a fetch that fails (the request raises, or the status is 400 or
    more) answers no document and stores nothing in the cache, unlike a
    search that fails: the next call for the same address asks the network
    again, and answers the page once the network serves it. *)
Theorem failed_fetch_is_retried (W W' : web) (u : pystr) (cache cache' : WebCache)
  (doc : WebDoc) :
  load_page sha1 cache u = None ->
  (requests_get W u = None
   \/ exists st html, requests_get W u = Some (st, html) /\ (400 <= st)%Z) ->
  fetch_body sha1 W' u cache = Some (Some doc, cache') ->
  fetch_and_extract sha1 W u cache = (None, cache)
  /\ fetch_and_extract sha1 W' u (fetch_and_extract sha1 W u cache).2
     = (Some doc, cache').
Proof.
  intros Hmiss Hfail Hup.
  assert (H1 : fetch_and_extract sha1 W u cache = (None, cache)).
  { unfold fetch_and_extract. rewrite Hmiss. unfold fetch_body.
    destruct Hfail as [->|(st & html & -> & Hst)]; [reflexivity|].
    cbn -[py]. apply Z.leb_le in Hst. rewrite Hst. reflexivity. }
  split; [exact H1|]. rewrite H1. simpl.
  unfold fetch_and_extract. rewrite Hmiss, Hup. reflexivity.
Qed.

End enrich.

Lemma failed_fetch_is_retried_witness :
  fetch_and_extract (fun s => s) web_down (py "https://krinos.com/olives")
    empty_cache = (None, empty_cache)
  /\ (fetch_and_extract (fun s => s) web_up (py "https://krinos.com/olives")
        (fetch_and_extract (fun s => s) web_down
           (py "https://krinos.com/olives") empty_cache).2).1
     = Some {| url := py "https://krinos.com/olives";
               title := py "Krinos"; text := py "Olives" |}.
Proof.
  destruct (failed_fetch_is_retried (fun s => s) web_down web_up
              (py "https://krinos.com/olives") empty_cache
              (save_page (fun s => s) empty_cache
                 {| url := py "https://krinos.com/olives";
                    title := py "Krinos"; text := py "Olives" |})
              {| url := py "https://krinos.com/olives";
                 title := py "Krinos"; text := py "Olives" |})
    as [H1 H2].
  - reflexivity.
  - left. reflexivity.
  - vm_compute. reflexivity.
  - split; [exact H1|]. rewrite H2. reflexivity.
Defined.

(** ** Updates of a dictionary *)

Lemma alookup_app {A} (k : pystr) (l m : list (pystr * A)) :
  alookup k (l ++ m)
  = match alookup k l with Some v => Some v | None => alookup k m end.
Proof.
  induction l as [|[k0 v0] l IH]; simpl; [reflexivity|].
  destruct (str_eqb k k0); [reflexivity|exact IH].
Qed.

Lemma alookup_dict_update (k : pystr) (d kvs : dict) :
  alookup k (dict_update d kvs)
  = match alookup k (rev kvs) with
    | Some v => Some v
    | None => alookup k d
    end.
Proof.
  unfold dict_update. revert d.
  induction kvs as [|[k0 v0] kvs IH]; intros d; simpl; [reflexivity|].
  rewrite IH, alookup_app. simpl.
  destruct (alookup k (rev kvs)); [reflexivity|].
  rewrite alookup_dict_set. destruct (str_eqb k k0); reflexivity.
Qed.

Lemma alookup_dict_update_hit (k : pystr) (v : json) (d kvs : dict) :
  alookup k (rev kvs) = Some v -> alookup k (dict_update d kvs) = Some v.
Proof. intros H. rewrite alookup_dict_update, H. reflexivity. Qed.

Lemma alookup_dict_update_miss (k : pystr) (d kvs : dict) :
  alookup k (rev kvs) = None -> alookup k (dict_update d kvs) = alookup k d.
Proof. intros H. rewrite alookup_dict_update, H. reflexivity. Qed.



Lemma elem_of_dict_keys (k : pystr) (d : dict) :
  k ∈ dict_keys d <-> dict_has k d = true.
Proof.
  unfold dict_has, dict_keys. induction d as [|[k0 v0] d IH]; simpl.
  - rewrite elem_of_nil. split; [tauto|discriminate].
  - rewrite elem_of_cons, IH. destruct (str_eqb k k0) eqn:E.
    + apply str_eqb_eq in E. tauto.
    + split; [|tauto]. intros [->|H]; [|exact H].
      rewrite str_eqb_refl in E. discriminate.
Qed.

Lemma dict_keys_set (k : pystr) (v : json) (d : dict) :
  dict_keys (dict_set k v d)
  = if dict_has k d then dict_keys d else dict_keys d ++ [k].
Proof.
  unfold dict_has, dict_keys. induction d as [|[k0 v0] d IH]; simpl.
  - reflexivity.
  - destruct (str_eqb k k0) eqn:E; simpl.
    + apply str_eqb_eq in E. subst k0. reflexivity.
    + rewrite IH. destruct (alookup k d); reflexivity.
Qed.

Lemma elem_of_dict_keys_set (k k' : pystr) (v : json) (d : dict) :
  k' ∈ dict_keys (dict_set k v d) <-> k' = k \/ k' ∈ dict_keys d.
Proof.
  rewrite dict_keys_set. destruct (dict_has k d) eqn:E.
  - apply elem_of_dict_keys in E. split; [tauto|].
    intros [->|H]; assumption.
  - rewrite elem_of_app, list_elem_of_singleton. tauto.
Qed.

(** The keys after an update: those of the dictionary and those assigned. *)
Lemma elem_of_dict_keys_update (k : pystr) (d kvs : dict) :
  k ∈ dict_keys (dict_update d kvs) <-> k ∈ dict_keys d \/ k ∈ dict_keys kvs.
Proof.
  unfold dict_update. revert d.
  induction kvs as [|[k0 v0] kvs IH]; intros d; simpl.
  - change (dict_keys []) with (@nil pystr). rewrite elem_of_nil. tauto.
  - rewrite IH, elem_of_dict_keys_set.
    change (dict_keys ((k0, v0) :: kvs)) with (k0 :: dict_keys kvs).
    rewrite elem_of_cons. tauto.
Qed.

(** An update that assigns keys of the dictionary only keeps its keys, in
    their order. *)
Lemma dict_keys_update_same (d kvs : dict) :
  (forall k, k ∈ dict_keys kvs -> k ∈ dict_keys d) ->
  dict_keys (dict_update d kvs) = dict_keys d.
Proof.
  unfold dict_update. revert d.
  induction kvs as [|[k0 v0] kvs IH]; intros d H; simpl; [reflexivity|].
  assert (H0 : dict_has k0 d = true).
  { apply elem_of_dict_keys, H. unfold dict_keys. simpl. left. }
  assert (Hk : dict_keys (dict_set k0 v0 d) = dict_keys d)
    by (rewrite dict_keys_set, H0; reflexivity).
  rewrite IH; [exact Hk|].
  intros k Hin. rewrite Hk. apply H. unfold dict_keys. simpl. right. exact Hin.
Qed.

(** ** Localizer (i18n_translator.py) *)

(** The bindings made by a loop that stores one value per key. *)
Lemma alookup_rev_keyed (f : pystr -> option (pystr * json))
  (keys : list pystr) (blocks : dict) :
  (forall k kv, f k = Some kv -> kv.1 = k) ->
  mapM f keys = Some blocks -> NoDup keys ->
  (forall k, k ∈ keys ->
     exists v, f k = Some (k, v) /\ alookup k (rev blocks) = Some v)
  /\ (forall k, k ∉ keys -> alookup k (rev blocks) = None).
Proof.
  intros Hkey H. apply mapM_Some in H.
  induction H as [|k0 [k0' v0] keys blocks Hf _ IH]; intros Hnd.
  - split; [intros k Hk; apply elem_of_nil in Hk; destruct Hk|reflexivity].
  - pose proof (NoDup_cons_1_1 _ _ Hnd) as Hk0.
    apply NoDup_cons_1_2 in Hnd.
    destruct (IH Hnd) as [IH1 IH2].
    pose proof (Hkey _ _ Hf) as Hfst. simpl in Hfst. subst k0'.
    split.
    + intros k Hk. simpl. rewrite alookup_app.
      apply elem_of_cons in Hk. destruct Hk as [->|Hk].
      * exists v0. split; [exact Hf|]. rewrite (IH2 _ Hk0). simpl.
        rewrite str_eqb_refl. reflexivity.
      * destruct (IH1 _ Hk) as (v & Hv & Hl). exists v.
        split; [exact Hv|]. rewrite Hl. reflexivity.
    + intros k Hk. apply not_elem_of_cons in Hk. destruct Hk as [Hne Hk].
      simpl. rewrite alookup_app, (IH2 _ Hk). simpl.
      rewrite str_eqb_ne by exact Hne. reflexivity.
Qed.

(** The members of a list of assignments whose keys and kinds are known. *)
Ltac texts_at_tac :=
  let k := fresh "k" in
  let Hk := fresh "Hk" in
  intros k Hk;
  repeat (apply elem_of_cons in Hk as [->|Hk]);
  [..|apply elem_of_nil in Hk; destruct Hk];
  (eexists; vm_compute; reflexivity).

Ltac fields_ok_tac :=
  split; [eexists; split; [vm_compute; reflexivity|texts_at_tac]|];
  split; [texts_at_tac|];
  split; [eexists; split; [vm_compute; reflexivity|];
          repeat constructor; eexists _, _; reflexivity|];
  vm_compute; reflexivity.

Section generator.

Import content_generators.


End generator.

Section localizer.

Import i18n_translator.

Lemma LANGS_NoDup : NoDup LANGS.
Proof. apply (bool_decide_eq_true_1 (NoDup LANGS)). vm_compute. reflexivity. Qed.

(** What the loop assigns for a declared language: the seven members, the
    title as it is and every other member with a value that is not empty. *)
Lemma localized_fields_spec (name brand country size : pystr)
  (years : list json) (lang : pystr) :
  lang ∈ LANGS ->
  exists fields,
    localized_fields name brand country size years lang = Some fields
    /\ dict_keys fields = localized_keys
    /\ alookup (py "title") (rev fields) = Some (JStr name)
    /\ (forall k, k ∈ localized_keys -> k <> py "title" ->
          exists v, alookup k (rev fields) = Some v /\ truthy v = true)
    /\ (exists h1 h2 h3,
          alookup (py "history") (rev fields) = Some (JArr [h1; h2; h3]))
    /\ fields_ok fields
    /\ (exists m, alookup (py "meta") (rev fields) = Some (JObj m)
                  /\ texts_at meta_keys m).
Proof.
  intros Hlang. unfold LANGS in Hlang.
  repeat (apply elem_of_cons in Hlang as [->|Hlang]);
    [..|apply elem_of_nil in Hlang; destruct Hlang];
    (eexists; split; [vm_compute; reflexivity|];
     split; [vm_compute; reflexivity|];
     split; [vm_compute; reflexivity|];
     split;
     [intros k Hk Hne; unfold localized_keys in Hk;
      repeat (apply elem_of_cons in Hk as [->|Hk]);
      [..|apply elem_of_nil in Hk; destruct Hk];
      try congruence;
      (eexists; split; [vm_compute; reflexivity|];
       first [reflexivity | destruct name; reflexivity])|];
     split; [eexists _, _, _; vm_compute; reflexivity|];
     split; [|eexists; split; [vm_compute; reflexivity|texts_at_tac]];
     fields_ok_tac).
Qed.

(** The steps of the Localizer on a record it completes on. *)
Lemma generate_i18n_from_en_inv (data data' : dict) :
  generate_i18n_from_en data = Some data' ->
  exists (i18n en blocks : dict) (name brand country size : pystr)
         (years : list json),
    alookup (py "i18n") data = Some (JObj i18n)
    /\ alookup (py "en") i18n = Some (JObj en)
    /\ py_or (py_or (dict_get (py "name") JNull data)
                    (dict_get (py "title") JNull en)) (JStr []) = JStr name
    /\ mapM (fun lang =>
               block ← localized_block en (py_strip name) brand country size
                         years lang;
               Some (lang, JObj block)) LANGS = Some blocks
    /\ data' = dict_set (py "i18n") (JObj (dict_update i18n blocks)) data.
Proof.
  unfold generate_i18n_from_en. intros H.
  destruct (alookup (py "i18n") data) as [[| | | | |i18n]|] eqn:Ei;
    try discriminate H.
  cbn -[py mapM py_or dict_get dict_set dict_update history_years
       localized_block] in H.
  destruct (alookup (py "en") i18n) as [[| | | | |en]|] eqn:Ee;
    try discriminate H.
  cbn -[py mapM py_or dict_get dict_set dict_update history_years
       localized_block] in H.
  destruct (py_or (py_or (dict_get (py "name") JNull data)
                         (dict_get (py "title") JNull en)) (JStr []))
    as [| | |name| |] eqn:En; try discriminate H.
  cbn -[py mapM py_or dict_get dict_set dict_update history_years
       localized_block] in H.
  destruct (py_or (dict_get (py "brand") JNull data) (JStr []))
    as [| | |brand| |]; try discriminate H.
  cbn -[py mapM py_or dict_get dict_set dict_update history_years
       localized_block] in H.
  destruct (py_or (dict_get (py "country_of_origin") JNull data) (JStr []))
    as [| | |country| |]; try discriminate H.
  cbn -[py mapM py_or dict_get dict_set dict_update history_years
       localized_block] in H.
  destruct (py_or (dict_get (py "size") JNull data) (JStr []))
    as [| | |size| |]; try discriminate H.
  cbn -[py mapM py_or dict_get dict_set dict_update history_years
       localized_block] in H.
  destruct (history_years en) as [years|]; [|discriminate H].
  cbn -[py mapM py_or dict_get dict_set dict_update history_years
       localized_block] in H.
  destruct (mapM _ LANGS) as [blocks|] eqn:Eb; [|discriminate H].
  cbn -[py mapM py_or dict_get dict_set dict_update history_years
       localized_block] in H.
  injection H as <-.
  exists i18n, en, blocks, name, (py_strip brand), (py_strip country),
    (py_strip size), years.
  repeat split; try reflexivity; assumption.
Qed.

(** The record after the Localizer: the record with a new member i18n, in
    which the English block is as before and every declared language has the
    copy of the English block with the members assigned by the loop. *)
Lemma localizer_result (data data' : dict) :
  generate_i18n_from_en data = Some data' ->
  exists (i18n en all' : dict) (name brand country size : pystr)
         (years : list json),
    alookup (py "i18n") data = Some (JObj i18n)
    /\ alookup (py "en") i18n = Some (JObj en)
    /\ py_or (py_or (dict_get (py "name") JNull data)
                    (dict_get (py "title") JNull en)) (JStr []) = JStr name
    /\ data' = dict_set (py "i18n") (JObj all') data
    /\ alookup (py "en") all' = Some (JObj en)
    /\ (forall lang, lang ∈ LANGS ->
          exists fields,
            localized_fields (py_strip name) brand country size years lang
            = Some fields
            /\ alookup lang all' = Some (JObj (dict_update en fields))).
Proof.
  intros H.
  destruct (generate_i18n_from_en_inv _ _ H)
    as (i18n & en & blocks & name & brand & country & size & years
        & Hi & He & Hname & Hb & ->).
  exists i18n, en, (dict_update i18n blocks), name, brand, country, size,
    years.
  assert (Hkey : forall k kv,
            (block ← localized_block en (py_strip name) brand country size
                       years k; Some (k, JObj block)) = Some kv -> kv.1 = k).
  { intros k kv Hkv.
    destruct (localized_block en (py_strip name) brand country size years k);
      [|discriminate Hkv].
    cbn [mbind option_bind] in Hkv. injection Hkv as <-. reflexivity. }
  destruct (alookup_rev_keyed _ _ _ Hkey Hb LANGS_NoDup) as [Hin Hout].
  repeat split; try assumption.
  - rewrite alookup_dict_update_miss; [exact He|].
    apply Hout. apply (bool_decide_eq_true_1 (py "en" ∉ LANGS)).
    vm_compute. reflexivity.
  - intros lang Hlang. destruct (Hin _ Hlang) as (v & Hv & Hl).
    unfold localized_block in Hv.
    destruct (localized_fields (py_strip name) brand country size years lang)
      as [fields|]; [|discriminate Hv].
    cbn [mbind option_bind] in Hv. injection Hv as <-.
    exists fields. split; [reflexivity|].
    apply alookup_dict_update_hit. exact Hl.
Qed.



(** C6: after the Localizer, the block of every declared language has the
    keys of the English block together with the seven members the Localizer
    assigns (sections, meta, title, description, ingredients, precautions,
    history); so it has the keys of the English block, in the same order,
    when the English block has these seven members already, and otherwise
    more keys (meta is not written by the Content Generator).  Each of the
    seven members is there, not empty but for the title; the title is the
    name of the product (the name of the record or, without one, the English
    title) without the whitespace around it; and the English block is left
    as it was. *)
Theorem localizer_block_keys (data data' en : dict) (lang : pystr) :
  generate_i18n_from_en data = Some data' ->
  jpath (JObj data) [py "i18n"; py "en"] = Some (JObj en) ->
  lang ∈ LANGS ->
  exists block : dict,
    jpath (JObj data') [py "i18n"; lang] = Some (JObj block)
    /\ (forall k, k ∈ dict_keys block <->
                  k ∈ dict_keys en \/ k ∈ localized_keys)
    /\ ((forall k, k ∈ localized_keys -> k ∈ dict_keys en) ->
        dict_keys block = dict_keys en)
    /\ (forall k, k ∈ localized_keys ->
          exists v, alookup k block = Some v
                    /\ (k = py "title" \/ truthy v = true))
    /\ (exists name,
          py_or (py_or (dict_get (py "name") JNull data)
                       (dict_get (py "title") JNull en)) (JStr [])
          = JStr name
          /\ alookup (py "title") block = Some (JStr (py_strip name)))
    /\ jpath (JObj data') [py "i18n"; py "en"] = Some (JObj en).
Proof.
  intros H Hen Hlang.
  destruct (localizer_result _ _ H)
    as (i18n & en0 & all' & name & brand & country & size & years
        & Hi & He & Hname & -> & He' & Hblocks).
  destruct (jpath_2_inv _ _ _ _ Hen) as (i18n' & Hi' & He0).
  rewrite Hi in Hi'. injection Hi' as <-.
  rewrite He in He0. injection He0 as ->.
  destruct (Hblocks _ Hlang) as (fields & Hf & Hl).
  destruct (localized_fields_spec (py_strip name) brand country size years
              lang Hlang) as (fields' & Hf' & Hkeys & Htitle & Hfull & _).
  rewrite Hf in Hf'. injection Hf' as <-.
  exists (dict_update en fields). split.
  { rewrite jpath_2. simpl. rewrite alookup_dict_set_eq. simpl. exact Hl. }
  split.
  { intros k. rewrite elem_of_dict_keys_update, Hkeys. reflexivity. }
  split.
  { intros Hall. apply dict_keys_update_same. rewrite Hkeys. exact Hall. }
  split.
  { intros k Hk. destruct (decide (k = py "title")) as [->|Hne].
    - eexists. split; [|left; reflexivity].
      apply alookup_dict_update_hit. exact Htitle.
    - destruct (Hfull k Hk Hne) as (w & Hw & Tw). exists w.
      split; [|right; exact Tw]. apply alookup_dict_update_hit. exact Hw. }
  split.
  { exists name. split; [exact Hname|].
    apply alookup_dict_update_hit. exact Htitle. }
  rewrite jpath_2. simpl. rewrite alookup_dict_set_eq. simpl. exact He'.
Qed.

End localizer.

Lemma localizer_block_keys_witness :
  exists (data' block : dict),
    i18n_translator.generate_i18n_from_en fields_K100 = Some data'
    /\ jpath (JObj data') [py "i18n"; py "ru"] = Some (JObj block)
    /\ (forall k, k ∈ dict_keys block <->
          k ∈ [py "title"; py "description"; py "ingredients"; py "history"]
          \/ k ∈ localized_keys)
    /\ alookup (py "title") block = Some (JStr (py "Olives 500g")).
Proof.
  destruct (i18n_translator.generate_i18n_from_en fields_K100)
    as [data'|] eqn:E.
  2: { vm_compute in E. discriminate E. }
  destruct (localizer_block_keys fields_K100 data'
              [ (py "title", JStr (py "Olives 500g"));
                (py "description", JStr (py "Olives in brine."));
                (py "ingredients", JStr (py "Olives, water, salt."));
                (py "history", JArr []) ] (py "ru") E)
    as (block & H1 & H2 & _ & _ & (name & Hname & Htitle) & _).
  - vm_compute. reflexivity.
  - apply (bool_decide_eq_true_1 (py "ru" ∈ i18n_translator.LANGS)).
    vm_compute. reflexivity.
  - exists data', block. split; [reflexivity|]. split; [exact H1|].
    split; [exact H2|].
    vm_compute in Hname. injection Hname as <-. exact Htitle.
Defined.

(** C6, as the claim states it, fails on the record that the Content
    Generator builds from a template with an empty English block: the
    Russian block has the key meta, the English block has not. *)
Lemma localizer_adds_meta_key :
  exists product : dict,
    generate_json_from_excel.process_row template_min row_K100
    = Some (Some (py "content/K100.json", product))
    /\ block_keys (JObj product) (py "en")
       = Some [ py "title"; py "sections"; py "description";
                py "ingredients"; py "precautions"; py "history" ]
    /\ block_keys (JObj product) (py "ru")
       = Some [ py "title"; py "sections"; py "description";
                py "ingredients"; py "precautions"; py "history";
                py "meta" ].
Proof.
  eexists. split; [vm_compute; reflexivity|].
  split; vm_compute; reflexivity.
Qed.


(** ** Word patterns *)

Section words.

Context (U : unicode).

Local Abbreviation word := (fun c => uni_word U c = true).
Local Abbreviation word_end := (word_end U).

Lemma span_word (s : pystr) :
  exists w rest, s = w ++ rest /\ Forall word w /\ word_end rest.
Proof.
  induction s as [|c s (w & rest & -> & Hw & Hr)].
  - exists [], []. repeat split. constructor.
  - destruct (uni_word U c) eqn:E.
    + exists (c :: w), rest. repeat split; [|exact Hr].
      constructor; assumption.
    + exists [], (c :: w ++ rest). repeat split; [constructor|exact E].
Qed.

Lemma fold_eq_length (pat w : pystr) :
  fold_eq U pat w = true -> length pat = length w.
Proof.
  revert w. induction pat as [|p pat IH]; intros [|c w] H; simpl in H;
    try discriminate H; [reflexivity|].
  apply andb_true_iff in H. simpl. f_equal. apply IH, H.
Qed.

Section pattern.

Context (pat rep : pystr) (Hwordy : wordy U pat) (Hpat : pat <> []).

(** A character that is no word character starts no match. *)
Lemma match_word_nonword (prev : option N) (d : N) (r : pystr) :
  uni_word U d = false -> match_word U pat prev (d :: r) = false.
Proof using Hwordy Hpat.
  intros Hd. unfold match_word. destruct pat as [|p pat']; [congruence|].
  simpl. destruct (uni_fold U p d) eqn:E.
  - rewrite (Hwordy p ltac:(left) d E) in Hd. discriminate.
  - apply andb_false_r.
Qed.

(** The literal and the boundary after it, at the head of a word. *)
Lemma match_lit_word (q w rest : pystr) (prev : option N) :
  (forall p, p ∈ q -> forall c, uni_fold U p c = true -> uni_word U c = true) ->
  is_wordb U prev = true -> Forall word w -> word_end rest ->
  match match_lit U q prev (w ++ rest) with
  | Some (l, r') => boundary U l (head r')
  | None => false
  end = fold_eq U q w.
Proof.
  revert w prev. induction q as [|p q IH]; intros w prev Hq Hprev Hw Hr.
  - simpl. unfold boundary. rewrite Hprev.
    destruct w as [|c w]; simpl.
    + destruct rest as [|d rest]; simpl; [reflexivity|].
      simpl in Hr. rewrite Hr. reflexivity.
    + apply Forall_cons_1 in Hw. destruct Hw as [Hc _]. rewrite Hc.
      reflexivity.
  - destruct w as [|c w]; simpl.
    + destruct rest as [|d rest]; simpl; [reflexivity|].
      simpl in Hr. destruct (uni_fold U p d) eqn:E; [|reflexivity].
      rewrite (Hq p ltac:(left) d E) in Hr. discriminate.
    + apply Forall_cons_1 in Hw. destruct Hw as [Hc Hw].
      destruct (uni_fold U p c); [|reflexivity]. simpl.
      apply IH; try assumption.
      intros p' Hp'. apply Hq. right. exact Hp'.
Qed.

(** At the start of a word, the pattern matches when the whole word does. *)
Lemma match_word_start (prev : option N) (c : N) (w rest : pystr) :
  is_wordb U prev = false -> Forall word (c :: w) -> word_end rest ->
  match_word U pat prev (c :: w ++ rest) = fold_eq U pat (c :: w).
Proof using Hwordy Hpat.
  intros Hprev Hw Hr. unfold match_word.
  pose proof (Forall_cons_1 _ _ _ Hw) as [Hc Hw'].
  replace (boundary U prev (head (c :: w ++ rest))) with true
    by (unfold boundary; simpl; rewrite Hprev, Hc; reflexivity).
  simpl andb.
  destruct pat as [|p q] eqn:Ep; [congruence|].
  simpl. destruct (uni_fold U p c); [|reflexivity]. simpl.
  apply match_lit_word; try assumption.
  intros p' Hp'. apply Hwordy. right. exact Hp'.
Qed.

(** Inside a word nothing matches. *)
Lemma match_word_inside (prev : option N) (c : N) (r : pystr) :
  is_wordb U prev = true -> uni_word U c = true ->
  match_word U pat prev (c :: r) = false.
Proof.
  intros Hprev Hc. unfold match_word, boundary. simpl.
  rewrite Hprev, Hc. reflexivity.
Qed.

Local Abbreviation sub_tail := (sub_tail U pat rep).

Lemma re_sub_go_end (prev : option N) (rest : pystr) :
  word_end rest -> re_sub_go U pat rep 0 prev rest = sub_tail rest.
Proof using Hwordy Hpat.
  destruct rest as [|d r]; simpl; [reflexivity|]. intros Hd.
  rewrite (match_word_nonword prev d r Hd). reflexivity.
Qed.

Lemma re_sub_go_inside (prev : option N) (w rest : pystr) :
  is_wordb U prev = true -> Forall word w -> word_end rest ->
  re_sub_go U pat rep 0 prev (w ++ rest) = w ++ sub_tail rest.
Proof using Hwordy Hpat.
  revert prev. induction w as [|c w IH]; intros prev Hprev Hw Hr.
  - apply re_sub_go_end. exact Hr.
  - apply Forall_cons_1 in Hw. destruct Hw as [Hc Hw].
    change ((c :: w) ++ rest) with (c :: w ++ rest).
    cbn [re_sub_go]. rewrite (match_word_inside prev c _ Hprev Hc).
    rewrite IH; [reflexivity|exact Hc|exact Hw|exact Hr].
Qed.

Lemma re_sub_go_skip (prev : option N) (w rest : pystr) :
  word_end rest ->
  re_sub_go U pat rep (length w) prev (w ++ rest) = sub_tail rest.
Proof using Hwordy Hpat.
  revert prev. induction w as [|c w IH]; intros prev Hr.
  - apply re_sub_go_end. exact Hr.
  - simpl. apply IH. exact Hr.
Qed.

(** The substitution on a word and what follows it. *)
Lemma re_sub_go_word (prev : option N) (c : N) (w rest : pystr) :
  is_wordb U prev = false -> Forall word (c :: w) -> word_end rest ->
  re_sub_go U pat rep 0 prev (c :: w ++ rest)
  = replace_word U pat rep (c :: w) ++ sub_tail rest.
Proof using Hwordy Hpat.
  intros Hprev Hw Hr. cbn [re_sub_go].
  rewrite (match_word_start prev c w rest Hprev Hw Hr).
  unfold replace_word.
  pose proof (Forall_cons_1 _ _ _ Hw) as [Hc Hw'].
  destruct (fold_eq U pat (c :: w)) eqn:E.
  - apply fold_eq_length in E. simpl in E. rewrite E.
    replace (S (length w) - 1)%nat with (length w) by lia.
    rewrite re_sub_go_skip by exact Hr. reflexivity.
  - rewrite re_sub_go_inside; [reflexivity|exact Hc|exact Hw'|exact Hr].
Qed.

Lemma re_search_word_end (prev : option N) (rest : pystr) :
  word_end rest ->
  re_search_word U pat prev rest = search_tail U pat rest.
Proof using Hwordy Hpat.
  destruct rest as [|d r]; simpl.
  - intros _. unfold match_word. destruct pat; [congruence|].
    simpl. rewrite andb_false_r. reflexivity.
  - intros Hd. rewrite (match_word_nonword prev d r Hd). reflexivity.
Qed.

Lemma re_search_word_inside (prev : option N) (w rest : pystr) :
  is_wordb U prev = true -> Forall word w -> word_end rest ->
  re_search_word U pat prev (w ++ rest) = search_tail U pat rest.
Proof using Hwordy Hpat.
  revert prev. induction w as [|c w IH]; intros prev Hprev Hw Hr.
  - apply re_search_word_end. exact Hr.
  - apply Forall_cons_1 in Hw. destruct Hw as [Hc Hw].
    change ((c :: w) ++ rest) with (c :: w ++ rest).
    cbn [re_search_word]. rewrite (match_word_inside prev c _ Hprev Hc).
    simpl. apply IH; assumption.
Qed.

Lemma re_search_word_word (prev : option N) (c : N) (w rest : pystr) :
  is_wordb U prev = false -> Forall word (c :: w) -> word_end rest ->
  re_search_word U pat prev (c :: w ++ rest)
  = fold_eq U pat (c :: w) || search_tail U pat rest.
Proof using Hwordy Hpat.
  intros Hprev Hw Hr. cbn [re_search_word].
  rewrite (match_word_start prev c w rest Hprev Hw Hr).
  pose proof (Forall_cons_1 _ _ _ Hw) as [Hc Hw'].
  rewrite re_search_word_inside; [reflexivity|exact Hc|exact Hw'|exact Hr].
Qed.

End pattern.

(** *** Word by word *)

Lemma map_words_word (g : pystr -> pystr) (acc w rest : pystr) :
  Forall word w ->
  map_words U g acc (w ++ rest) = map_words U g (rev w ++ acc) rest.
Proof.
  revert acc. induction w as [|c w IH]; intros acc Hw; [reflexivity|].
  apply Forall_cons_1 in Hw. destruct Hw as [Hc Hw].
  simpl. rewrite Hc, IH by exact Hw. rewrite <- app_assoc. reflexivity.
Qed.

Lemma any_word_word (P : pystr -> bool) (acc w rest : pystr) :
  Forall word w ->
  any_word U P acc (w ++ rest) = any_word U P (rev w ++ acc) rest.
Proof.
  revert acc. induction w as [|c w IH]; intros acc Hw; [reflexivity|].
  apply Forall_cons_1 in Hw. destruct Hw as [Hc Hw].
  simpl. rewrite Hc, IH by exact Hw. rewrite <- app_assoc. reflexivity.
Qed.

(** [re.sub] of a word pattern rewrites the words that match, whole. *)
Lemma re_sub_go_words (pat rep : pystr) :
  wordy U pat -> pat <> [] ->
  forall (s : pystr) (prev : option N),
    is_wordb U prev = false ->
    re_sub_go U pat rep 0 prev s
    = map_words U (replace_word U pat rep) [] s.
Proof.
  intros Hwordy Hpat s.
  induction (Nat.lt_wf_0_projected length s) as [s _ IH]. intros prev Hprev.
  assert (Hnil : replace_word U pat rep [] = []).
  { unfold replace_word. destruct pat; [congruence|reflexivity]. }
  assert (Htail : forall rest, (length rest <= length s)%nat ->
            rest <> s -> word_end rest ->
            sub_tail U pat rep rest
            = match rest with
              | [] => []
              | d :: r => d :: map_words U (replace_word U pat rep) [] r
              end).
  { intros [|d r] Hlen Hne Hr; [reflexivity|]. simpl. f_equal.
    apply IH; [simpl in Hlen; lia|exact Hr]. }
  destruct s as [|c s']; [simpl; rewrite Hnil; reflexivity|].
  destruct (uni_word U c) eqn:Ec.
  - destruct (span_word s') as (w & rest & -> & Hw & Hr).
    rewrite (re_sub_go_word pat rep Hwordy Hpat prev c w rest Hprev
               ltac:(constructor; assumption) Hr).
    change (c :: w ++ rest) with ((c :: w) ++ rest).
    rewrite map_words_word by (constructor; assumption).
    rewrite app_nil_r.
    rewrite Htail; [|simpl; rewrite length_app; lia| |exact Hr].
    2: { intros E. apply (f_equal length) in E. simpl in E.
         rewrite length_app in E. lia. }
    destruct rest as [|d r]; cbn [map_words].
    + rewrite rev_involutive, app_nil_r. reflexivity.
    + simpl in Hr. rewrite Hr, rev_involutive. reflexivity.
  - cbn [re_sub_go].
    rewrite (match_word_nonword pat Hwordy Hpat prev c s' Ec).
    simpl. rewrite Ec, Hnil. simpl. f_equal.
    apply IH; [simpl; lia|exact Ec].
Qed.

Lemma re_sub_word_words (pat rep s : pystr) :
  wordy U pat -> pat <> [] ->
  re_sub_word U pat rep s = map_words U (replace_word U pat rep) [] s.
Proof.
  intros Hw Hp. unfold re_sub_word. apply re_sub_go_words; auto.
Qed.

(** [re.search] of a word pattern finds a word that matches, whole. *)
Lemma re_search_go_words (pat : pystr) :
  wordy U pat -> pat <> [] ->
  forall (s : pystr) (prev : option N),
    is_wordb U prev = false ->
    re_search_word U pat prev s = any_word U (fold_eq U pat) [] s.
Proof.
  intros Hwordy Hpat s.
  induction (Nat.lt_wf_0_projected length s) as [s _ IH]. intros prev Hprev.
  assert (Hnil : fold_eq U pat [] = false)
    by (destruct pat; [congruence|reflexivity]).
  destruct s as [|c s'].
  - simpl. rewrite Hnil. unfold match_word. destruct pat; [congruence|].
    simpl. rewrite !andb_false_r. reflexivity.
  - destruct (uni_word U c) eqn:Ec.
    + destruct (span_word s') as (w & rest & -> & Hw & Hr).
      rewrite (re_search_word_word pat Hwordy Hpat prev c w rest Hprev
                 ltac:(constructor; assumption) Hr).
      change (c :: w ++ rest) with ((c :: w) ++ rest).
      rewrite any_word_word by (constructor; assumption).
      rewrite app_nil_r.
      destruct rest as [|d r]; cbn [any_word search_tail].
      * rewrite rev_involutive, orb_false_r. reflexivity.
      * simpl in Hr. rewrite Hr, rev_involutive. f_equal.
        apply IH; [simpl; rewrite length_app; simpl; lia|exact Hr].
    + cbn [re_search_word].
      rewrite (match_word_nonword pat Hwordy Hpat prev c s' Ec).
      simpl. rewrite Ec, Hnil. simpl.
      apply IH; [simpl; lia|exact Ec].
Qed.

Lemma map_words_compose (g1 g2 : pystr -> pystr) :
  (forall w, Forall word w -> Forall word (g1 w)) ->
  forall s acc, Forall word acc ->
    map_words U g2 [] (map_words U g1 acc s)
    = map_words U (fun w => g2 (g1 w)) acc s.
Proof.
  intros Hg1.
  assert (Hout : forall v rest, Forall word v ->
            map_words U g2 [] (v ++ rest) = map_words U g2 (rev v) rest).
  { intros v rest Hv. rewrite map_words_word by exact Hv.
    rewrite app_nil_r. reflexivity. }
  assert (Hend : forall v, Forall word v -> map_words U g2 [] v = g2 v).
  { intros v Hv. specialize (Hout v [] Hv). rewrite app_nil_r in Hout.
    rewrite Hout. cbn [map_words]. rewrite rev_involutive. reflexivity. }
  induction s as [|c s IH]; intros acc Hacc.
  - cbn [map_words]. apply Hend, Hg1, Forall_rev, Hacc.
  - cbn [map_words]. destruct (uni_word U c) eqn:Ec.
    + apply IH. constructor; assumption.
    + rewrite Hout by (apply Hg1, Forall_rev, Hacc).
      cbn [map_words]. rewrite Ec, rev_involutive, IH by constructor.
      reflexivity.
Qed.

Lemma any_word_compose (g : pystr -> pystr) (P : pystr -> bool) :
  (forall w, Forall word w -> Forall word (g w)) ->
  forall s acc, Forall word acc ->
    any_word U P [] (map_words U g acc s)
    = any_word U (fun w => P (g w)) acc s.
Proof.
  intros Hg.
  assert (Hout : forall v rest, Forall word v ->
            any_word U P [] (v ++ rest) = any_word U P (rev v) rest).
  { intros v rest Hv. rewrite any_word_word by exact Hv.
    rewrite app_nil_r. reflexivity. }
  assert (Hend : forall v, Forall word v -> any_word U P [] v = P v).
  { intros v Hv. specialize (Hout v [] Hv). rewrite app_nil_r in Hout.
    rewrite Hout. cbn [any_word]. rewrite rev_involutive. reflexivity. }
  induction s as [|c s IH]; intros acc Hacc.
  - cbn [map_words any_word]. apply Hend, Hg, Forall_rev, Hacc.
  - cbn [map_words any_word]. destruct (uni_word U c) eqn:Ec.
    + apply IH. constructor; assumption.
    + rewrite Hout by (apply Hg, Forall_rev, Hacc).
      cbn [any_word]. rewrite Ec, rev_involutive, IH by constructor.
      reflexivity.
Qed.

Lemma map_words_ext (g g' : pystr -> pystr) :
  (forall w, Forall word w -> g w = g' w) ->
  forall s acc, Forall word acc ->
    map_words U g acc s = map_words U g' acc s.
Proof.
  intros Hg. induction s as [|c s IH]; intros acc Hacc; cbn [map_words].
  - apply Hg, Forall_rev, Hacc.
  - destruct (uni_word U c) eqn:Ec.
    + apply IH. constructor; assumption.
    + rewrite (Hg (rev acc)) by apply Forall_rev, Hacc.
      rewrite IH by constructor. reflexivity.
Qed.

Lemma any_word_mono (P Q : pystr -> bool) :
  (forall w, Forall word w -> P w = true -> Q w = true) ->
  forall s acc, Forall word acc ->
    any_word U P acc s = true -> any_word U Q acc s = true.
Proof.
  intros HPQ. induction s as [|c s IH]; intros acc Hacc; cbn [any_word].
  - apply HPQ, Forall_rev, Hacc.
  - destruct (uni_word U c) eqn:Ec.
    + apply IH. constructor; assumption.
    + rewrite !orb_true_iff. intros [H|H].
      * left. apply HPQ; [apply Forall_rev, Hacc|exact H].
      * right. apply IH; [constructor|exact H].
Qed.

Lemma any_word_none (P : pystr -> bool) :
  (forall w, Forall word w -> P w = false) ->
  forall s acc, Forall word acc -> any_word U P acc s = false.
Proof.
  intros HP. induction s as [|c s IH]; intros acc Hacc; cbn [any_word].
  - apply HP, Forall_rev, Hacc.
  - destruct (uni_word U c) eqn:Ec.
    + apply IH. constructor; assumption.
    + rewrite (HP (rev acc)) by apply Forall_rev, Hacc.
      apply IH. constructor.
Qed.

(** A word that satisfies [P] leaves its image in the output. *)
Lemma any_word_image (g : pystr -> pystr) (P : pystr -> bool) (rep : pystr) :
  (forall w, P w = true -> g w = rep) ->
  forall s acc, any_word U P acc s = true ->
    exists a b, map_words U g acc s = a ++ rep ++ b.
Proof.
  intros Hg. induction s as [|c s IH]; intros acc; cbn [any_word map_words].
  - intros H. exists [], []. rewrite (Hg _ H), app_nil_r. reflexivity.
  - destruct (uni_word U c) eqn:Ec; [apply IH|].
    rewrite orb_true_iff. intros [H|H].
    + exists [], (c :: map_words U g [] s). rewrite (Hg _ H). reflexivity.
    + destruct (IH _ H) as (a & b & ->).
      exists (g (rev acc) ++ c :: a), b.
      rewrite <- app_assoc. reflexivity.
Qed.

End words.

(** ** Substrings *)

Lemma starts_with_app (p b : pystr) : starts_with p (p ++ b) = true.
Proof.
  induction p as [|c p IH]; simpl; [reflexivity|].
  rewrite N.eqb_refl. exact IH.
Qed.

Lemma starts_with_inv (p s : pystr) :
  starts_with p s = true -> exists b, s = p ++ b.
Proof.
  revert s. induction p as [|c p IH]; intros s H.
  - exists s. reflexivity.
  - destruct s as [|d s]; simpl in H; [discriminate H|].
    apply andb_true_iff in H. destruct H as [Hc H].
    apply N.eqb_eq in Hc. subst d.
    destruct (IH _ H) as [b ->]. exists b. reflexivity.
Qed.

Lemma contains_head (sub s : pystr) :
  starts_with sub s = true -> contains sub s = true.
Proof. intros H. destruct s; simpl; rewrite H; reflexivity. Qed.

Lemma contains_app (sub a b : pystr) : contains sub (a ++ sub ++ b) = true.
Proof.
  induction a as [|c a IH].
  - change ([] ++ sub ++ b) with (sub ++ b).
    apply contains_head, starts_with_app.
  - simpl. rewrite IH. apply orb_true_r.
Qed.

Lemma contains_inv (sub s : pystr) :
  contains sub s = true -> exists a b, s = a ++ sub ++ b.
Proof.
  induction s as [|c s IH]; simpl; rewrite orb_true_iff.
  - intros [H|H]; [|discriminate H].
    destruct (starts_with_inv _ _ H) as [b ->]. exists [], b. reflexivity.
  - intros [H|H].
    + destruct (starts_with_inv _ _ H) as [b ->]. exists [], b. reflexivity.
    + destruct (IH H) as (a & b & ->). exists (c :: a), b. reflexivity.
Qed.

(** ** Post-QC (post_qc.py) *)

Section water.

Context (U : unicode) (HU : unicode_ok U).

Local Abbreviation word := (fun c => uni_word U c = true).

Lemma letters_wordy (pat : pystr) :
  Forall (fun p => ascii_letter p = true) pat -> wordy U pat.
Proof using HU.
  intros H p Hp c Hc. rewrite Forall_forall in H.
  apply list_elem_of_In in Hp.
  apply (fold_word U HU p c (H p Hp) Hc).
Qed.

Lemma letters_word (w : pystr) :
  Forall (fun c => c < 128 /\ ascii_letter c = true) w -> Forall word w.
Proof using HU.
  apply Forall_impl. intros c [Hc Hl].
  rewrite (word_ascii U HU c Hc). unfold ascii_alnum.
  unfold ascii_letter in Hl. apply orb_true_iff in Hl.
  rewrite !orb_true_iff. tauto.
Qed.

Lemma fold_eq_refl (w : pystr) :
  Forall (fun c => c < 128) w -> fold_eq U w w = true.
Proof using HU.
  induction 1 as [|c w Hc _ IH]; simpl; [reflexivity|].
  rewrite (fold_ascii U HU c c Hc Hc), N.eqb_refl. exact IH.
Qed.

Lemma py_upper_app (a b : pystr) :
  py_upper U (a ++ b) = py_upper U a ++ py_upper U b.
Proof. unfold py_upper. apply flat_map_app. Qed.

Lemma py_upper_capitals (w : pystr) :
  Forall (fun c => c < 128 /\ ascii_upper c = c) w -> py_upper U w = w.
Proof using HU.
  unfold py_upper. induction 1 as [|c w [Hc Hu] _ IH]; simpl; [reflexivity|].
  rewrite (upper_ascii U HU c Hc), Hu, IH. reflexivity.
Qed.

(** A marker in capitals that the title holds is in its upper case too. *)
Lemma py_upper_contains (k t : pystr) :
  Forall (fun c => c < 128 /\ ascii_upper c = c) k ->
  contains k t = true -> contains k (py_upper U t) = true.
Proof using HU.
  intros Hk H. destruct (contains_inv _ _ H) as (a & b & ->).
  rewrite !py_upper_app, (py_upper_capitals k Hk). apply contains_app.
Qed.

(** The two words of the water correction. *)
Lemma still_letters :
  Forall (fun c => c < 128 /\ ascii_letter c = true) (py "still").
Proof. vm_compute. repeat constructor. Qed.

Lemma sparkling_letters :
  Forall (fun c => c < 128 /\ ascii_letter c = true) (py "sparkling").
Proof. vm_compute. repeat constructor. Qed.

Local Abbreviation still := (py "still").
Local Abbreviation sparkling := (py "sparkling").
Local Abbreviation to_still := (replace_word U sparkling still).
Local Abbreviation to_sparkling := (replace_word U still sparkling).

Lemma still_wordy : wordy U still.
Proof using HU.
  apply letters_wordy. eapply Forall_impl; [|apply still_letters].
  intros c [_ H]. exact H.
Qed.

Lemma sparkling_wordy : wordy U sparkling.
Proof using HU.
  apply letters_wordy. eapply Forall_impl; [|apply sparkling_letters].
  intros c [_ H]. exact H.
Qed.

Lemma still_not_sparkling (w : pystr) :
  fold_eq U still w = true -> fold_eq U sparkling w = false.
Proof.
  intros H. apply fold_eq_length in H.
  destruct (fold_eq U sparkling w) eqn:E; [|reflexivity].
  apply fold_eq_length in E. rewrite <- H in E. vm_compute in E.
  discriminate E.
Qed.

Lemma sparkling_not_still (w : pystr) :
  fold_eq U sparkling w = true -> fold_eq U still w = false.
Proof.
  intros H. destruct (fold_eq U still w) eqn:E; [|reflexivity].
  rewrite (still_not_sparkling w E) in H. discriminate H.
Qed.

Lemma fold_still : fold_eq U still still = true.
Proof using HU.
  apply fold_eq_refl. eapply Forall_impl; [|apply still_letters].
  intros c [H _]. exact H.
Qed.

Lemma fold_sparkling : fold_eq U sparkling sparkling = true.
Proof using HU.
  apply fold_eq_refl. eapply Forall_impl; [|apply sparkling_letters].
  intros c [H _]. exact H.
Qed.

Lemma replace_word_word (pat rep w : pystr) :
  Forall word rep -> Forall word w -> Forall word (replace_word U pat rep w).
Proof. intros Hr Hw. unfold replace_word. destruct (fold_eq U pat w); auto. Qed.

Lemma to_still_word (w : pystr) : Forall word w -> Forall word (to_still w).
Proof using HU.
  intros Hw. apply replace_word_word; [|exact Hw].
  apply letters_word, still_letters.
Qed.

Lemma to_sparkling_word (w : pystr) :
  Forall word w -> Forall word (to_sparkling w).
Proof using HU.
  intros Hw. apply replace_word_word; [|exact Hw].
  apply letters_word, sparkling_letters.
Qed.

Lemma map_words_id (s acc : pystr) :
  map_words U (fun w => w) acc s = rev acc ++ s.
Proof.
  revert acc. induction s as [|c s IH]; intros acc; cbn [map_words].
  - rewrite app_nil_r. reflexivity.
  - destruct (uni_word U c).
    + rewrite IH. simpl. rewrite <- app_assoc. reflexivity.
    + rewrite IH. reflexivity.
Qed.

Lemma py_nonempty_still : still <> [].
Proof. vm_compute. discriminate. Qed.

Lemma py_nonempty_sparkling : sparkling <> [].
Proof. vm_compute. discriminate. Qed.

Lemma fix_word_word (t w : pystr) :
  Forall word w -> Forall word (post_qc.fix_word U t w).
Proof using HU.
  intros Hw. unfold post_qc.fix_word.
  destruct (post_qc.still_marked t), (post_qc.sparkling_marked t);
    auto using to_still_word, to_sparkling_word.
Qed.

(** The correction rewrites the text word by word. *)
Lemma fix_text_words (t d : pystr) :
  post_qc.fix_text U t d = map_words U (post_qc.fix_word U t) [] d.
Proof using HU.
  unfold post_qc.fix_text, post_qc.fix_word.
  destruct (post_qc.still_marked t), (post_qc.sparkling_marked t).
  - rewrite (re_sub_word_words U sparkling still d sparkling_wordy
               py_nonempty_sparkling).
    rewrite (re_sub_word_words U still sparkling _ still_wordy
               py_nonempty_still).
    apply map_words_compose; [apply to_still_word|constructor].
  - apply re_sub_word_words;
      [apply sparkling_wordy|apply py_nonempty_sparkling].
  - apply re_sub_word_words; [apply still_wordy|apply py_nonempty_still].
  - rewrite map_words_id. reflexivity.
Qed.

Lemma fix_word_idem (t w : pystr) :
  post_qc.fix_word U t (post_qc.fix_word U t w) = post_qc.fix_word U t w.
Proof using HU.
  unfold post_qc.fix_word, replace_word.
  destruct (post_qc.still_marked t), (post_qc.sparkling_marked t);
    [| | |reflexivity].
  - destruct (fold_eq U sparkling w) eqn:E1.
    + rewrite fold_still, fold_sparkling, fold_still. reflexivity.
    + destruct (fold_eq U still w) eqn:E2.
      * rewrite fold_sparkling, fold_still. reflexivity.
      * rewrite E1, E2. reflexivity.
  - destruct (fold_eq U sparkling w) eqn:E1.
    + rewrite (still_not_sparkling _ fold_still). reflexivity.
    + rewrite E1. reflexivity.
  - destruct (fold_eq U still w) eqn:E2.
    + rewrite (sparkling_not_still _ fold_sparkling). reflexivity.
    + rewrite E2. reflexivity.
Qed.

Lemma fix_text_idem (t d : pystr) :
  post_qc.fix_text U t (post_qc.fix_text U t d) = post_qc.fix_text U t d.
Proof using HU.
  rewrite !fix_text_words.
  rewrite map_words_compose; [|apply fix_word_word|constructor].
  apply map_words_ext; [|constructor].
  intros w _. apply fix_word_idem.
Qed.

(** With a marker of sparkling water in the title, a description that has
    the word still gets the word sparkling and loses the word still. *)
Lemma fix_text_sparkling (t d : pystr) :
  post_qc.sparkling_marked t = true ->
  re_search_word U still None d = true ->
  contains sparkling (post_qc.fix_text U t d) = true
  /\ re_search_word U still None (post_qc.fix_text U t d) = false.
Proof using HU.
  intros Hm Hs.
  rewrite (re_search_go_words U still still_wordy py_nonempty_still)
    in Hs |- * by reflexivity.
  rewrite fix_text_words. split.
  - destruct (any_word_image U (post_qc.fix_word U t) (fold_eq U still)
                sparkling) with (s := d) (acc := @nil N)
      as (a & b & ->); [|exact Hs|apply contains_app].
    intros w Hw. unfold post_qc.fix_word, replace_word. rewrite Hm.
    destruct (post_qc.still_marked t).
    + rewrite (still_not_sparkling _ Hw), Hw. reflexivity.
    + rewrite Hw. reflexivity.
  - rewrite any_word_compose; [|apply fix_word_word|constructor].
    apply any_word_none; [|constructor].
    intros w _. unfold post_qc.fix_word. rewrite Hm.
    set (w1 := if post_qc.still_marked t then to_still w else w).
    unfold replace_word. destruct (fold_eq U still w1) eqn:E; [|exact E].
    apply sparkling_not_still, fold_sparkling.
Qed.

(** The word put in place of a match is found by the pattern of its own. *)
Lemma fix_text_sparkling_word (t d : pystr) :
  post_qc.sparkling_marked t = true ->
  re_search_word U still None d = true ->
  re_search_word U sparkling None (post_qc.fix_text U t d) = true.
Proof using HU.
  intros Hm Hs.
  rewrite (re_search_go_words U still still_wordy py_nonempty_still)
    in Hs by reflexivity.
  rewrite (re_search_go_words U sparkling sparkling_wordy
             py_nonempty_sparkling) by reflexivity.
  rewrite fix_text_words.
  rewrite any_word_compose; [|apply fix_word_word|constructor].
  eapply any_word_mono; [|constructor|exact Hs].
  intros w _ Hw. cbv beta. unfold post_qc.fix_word, replace_word. rewrite Hm.
  destruct (post_qc.still_marked t).
  - rewrite (still_not_sparkling _ Hw), Hw. apply fold_sparkling.
  - rewrite Hw. apply fold_sparkling.
Qed.

Lemma fix_water_description_str (d t0 : pystr) (title : json) :
  as_str (py_or title (JStr [])) = Some t0 ->
  post_qc.fix_water_description U (JStr d) title
  = Some (JStr (post_qc.fix_text U (py_upper U t0) d)).
Proof.
  intros Ht. unfold post_qc.fix_water_description, post_qc.fix_text.
  rewrite Ht. cbn [mbind option_bind].
  destruct (post_qc.still_marked (py_upper U t0)),
           (post_qc.sparkling_marked (py_upper U t0)); reflexivity.
Qed.

(** A second correction of the description changes nothing more. *)
Lemma fix_water_description_idem (desc title new : json) :
  post_qc.fix_water_description U desc title = Some new ->
  post_qc.fix_water_description U new title = Some new.
Proof using HU.
  intros H.
  destruct (as_str (py_or title (JStr []))) as [t0|] eqn:Ht.
  2: { unfold post_qc.fix_water_description in H. rewrite Ht in H.
       discriminate H. }
  destruct desc as [| | |d| |];
    try (unfold post_qc.fix_water_description in H |- *; rewrite Ht in *;
         cbn [mbind option_bind] in H |- *;
         destruct (post_qc.still_marked (py_upper U t0));
         [discriminate H|];
         cbn [mbind option_bind] in H |- *;
         destruct (post_qc.sparkling_marked (py_upper U t0));
         [discriminate H|];
         injection H as <-; reflexivity).
  rewrite (fix_water_description_str d t0 title Ht) in H.
  injection H as <-.
  rewrite (fix_water_description_str _ t0 title Ht), fix_text_idem.
  reflexivity.
Qed.

Lemma capitals_SPARKLING :
  Forall (fun c => c < 128 /\ ascii_upper c = c) (py "SPARKLING").
Proof. vm_compute. repeat constructor. Qed.

Lemma fix_water_description_sparkling (desc title : pystr) :
  contains (py "SPARKLING") title = true ->
  re_search_word U still None desc = true ->
  exists out,
    post_qc.fix_water_description U (JStr desc) (JStr title)
    = Some (JStr out)
    /\ contains sparkling out = true
    /\ re_search_word U still None out = false.
Proof using HU.
  intros Ht Hs.
  assert (Hor : as_str (py_or (JStr title) (JStr [])) = Some title).
  { destruct title; [vm_compute in Ht; discriminate Ht|reflexivity]. }
  eexists. split; [apply fix_water_description_str; exact Hor|].
  apply fix_text_sparkling; [|exact Hs].
  unfold post_qc.sparkling_marked. cbn [existsb].
  rewrite (py_upper_contains _ _ capitals_SPARKLING Ht). reflexivity.
Qed.

Lemma fix_water_description_corrected (desc title : pystr) :
  contains (py "SPARKLING") title = true ->
  re_search_word U still None desc = true ->
  exists out,
    post_qc.fix_water_description U (JStr desc) (JStr title)
    = Some (JStr out)
    /\ re_search_word U sparkling None out = true
    /\ contains sparkling out = true
    /\ re_search_word U still None out = false.
Proof using HU.
  intros Ht Hs.
  assert (Hor : as_str (py_or (JStr title) (JStr [])) = Some title).
  { destruct title; [vm_compute in Ht; discriminate Ht|reflexivity]. }
  assert (Hm : post_qc.sparkling_marked (py_upper U title) = true).
  { unfold post_qc.sparkling_marked. cbn [existsb].
    rewrite (py_upper_contains _ _ capitals_SPARKLING Ht). reflexivity. }
  eexists. split; [apply fix_water_description_str; exact Hor|].
  split; [apply fix_text_sparkling_word; assumption|].
  apply fix_text_sparkling; assumption.
Qed.

End water.

Section post_qc_record.

Import post_qc.

Context (U : unicode) (HU : unicode_ok U) (netloc : pystr -> option pystr).

Lemma clean_sources_idem (brand : json) (items clean : list json) :
  clean_sources U netloc brand items = Some clean ->
  clean_sources U netloc brand clean = Some clean.
Proof.
  revert clean. induction items as [|s items IH]; intros clean H.
  - simpl in H. injection H as <-. reflexivity.
  - cbn [clean_sources] in H.
    destruct (py_get s (py "url") (JStr [])) as [url|] eqn:Eu;
      [|discriminate H].
    cbn [mbind option_bind] in H.
    destruct (is_relevant_source U netloc url brand) as [keep|] eqn:Ek;
      [|discriminate H].
    cbn [mbind option_bind] in H.
    destruct (clean_sources U netloc brand items) as [rest|];
      [|discriminate H].
    cbn [mbind option_bind] in H. injection H as <-.
    specialize (IH rest eq_refl). destruct keep; [|exact IH].
    cbn [clean_sources]. rewrite Eu. cbn [mbind option_bind].
    rewrite Ek. cbn [mbind option_bind]. rewrite IH. reflexivity.
Qed.

Lemma clean_sources_placeholder (brand : json) :
  clean_sources U netloc brand [placeholder_source] = Some [].
Proof. reflexivity. Qed.

(** What SOURCES CLEAN does: nothing, or the list of sources is replaced by
    a list that is not empty and that a second cleaning gives again. *)
Lemma sources_clean_spec (brand : json) (en en1 : dict) (c : bool) :
  sources_clean U netloc brand en = Some (en1, c) ->
  (en1 = en /\ truthy (dict_get (py "sources") (JArr []) en) = false)
  \/ (exists kept again,
        en1 = dict_set (py "sources") (JArr kept) en
        /\ kept <> []
        /\ clean_sources U netloc brand kept = Some again
        /\ match again with [] => [placeholder_source] | _ => again end
           = kept).
Proof.
  unfold sources_clean. intros H.
  destruct (truthy (dict_get (py "sources") (JArr []) en)) eqn:T.
  2: { injection H as <- <-. left. auto. }
  destruct (py_iter (dict_get (py "sources") (JArr []) en)) as [items|];
    [|discriminate H].
  cbn [mbind option_bind] in H.
  destruct (clean_sources U netloc brand items) as [clean|] eqn:Ec;
    [|discriminate H].
  cbn [mbind option_bind] in H. injection H as <- <-. right.
  apply clean_sources_idem in Ec.
  destruct clean as [|p clean].
  - exists [placeholder_source], []. split; [reflexivity|].
    split; [discriminate|]. split; reflexivity.
  - exists (p :: clean), (p :: clean). split; [reflexivity|].
    split; [discriminate|]. split; [exact Ec|reflexivity].
Qed.

Lemma sources_clean_frame (brand : json) (en en1 : dict) (c : bool)
  (k : pystr) :
  sources_clean U netloc brand en = Some (en1, c) -> k <> py "sources" ->
  alookup k en1 = alookup k en.
Proof.
  intros H Hk. apply sources_clean_spec in H.
  destruct H as [[-> _]|(kept & again & -> & _)]; [reflexivity|].
  apply alookup_dict_set_ne. exact Hk.
Qed.

(** A block that SOURCES CLEAN produced is one it leaves as it is, also
    after another member was assigned. *)
Lemma sources_clean_fixed (brand : json) (en en1 : dict) (c : bool) :
  sources_clean U netloc brand en = Some (en1, c) ->
  forall en2, (en2 = en1
               \/ exists k v, k <> py "sources" /\ en2 = dict_set k v en1) ->
  exists c', sources_clean U netloc brand en2 = Some (en2, c').
Proof.
  intros H en2 H2.
  assert (Hsrc : dict_get (py "sources") (JArr []) en2
                 = dict_get (py "sources") (JArr []) en1).
  { destruct H2 as [->|(k & v & Hk & ->)]; [reflexivity|].
    apply dict_get_set_ne. congruence. }
  pose proof H as Hspec. apply sources_clean_spec in Hspec.
  destruct Hspec as [[-> T]|(kept & again & -> & Hne & Hagain & Hnorm)].
  - unfold sources_clean. rewrite Hsrc, T. eauto.
  - unfold sources_clean. rewrite Hsrc, dict_get_set_eq.
    assert (T : truthy (JArr kept) = true)
      by (destruct kept; [congruence|reflexivity]).
    rewrite T. cbn [py_iter mbind option_bind]. rewrite Hagain.
    cbn [mbind option_bind]. rewrite Hnorm. eexists. f_equal. f_equal.
    apply dict_set_id.
    destruct H2 as [->|(k & v & Hk & ->)].
    + apply alookup_dict_set_eq.
    + rewrite alookup_dict_set_ne by congruence. apply alookup_dict_set_eq.
Qed.

Lemma water_fix_spec (cat : json) (en1 en2 : dict) (c : bool) :
  water_fix U cat en1 = Some (en2, c) ->
  en2 = en1
  \/ (exists new,
        en2 = dict_set (py "description") new en1
        /\ py_eq cat (JStr (py "Water")) = true
        /\ fix_water_description U
             (dict_get (py "description") (JStr []) en1)
             (dict_get (py "title") (JStr []) en1) = Some new).
Proof.
  unfold water_fix. intros H.
  destruct (py_eq cat (JStr (py "Water"))) eqn:Ec;
    [|injection H as <- <-; left; reflexivity].
  destruct (fix_water_description U _ _) as [new|] eqn:En;
    [|discriminate H].
  cbn [mbind option_bind] in H.
  destruct (negb (py_eq new (dict_get (py "description") (JStr []) en1)));
    injection H as <- <-; [right|left; reflexivity].
  exists new. auto.
Qed.

Lemma water_fix_fixed (cat : json) (en1 en2 : dict) (c : bool) :
  water_fix U cat en1 = Some (en2, c) ->
  exists c', water_fix U cat en2 = Some (en2, c').
Proof using HU.
  intros H. pose proof H as Hspec. apply water_fix_spec in Hspec.
  destruct Hspec as [->|(new & -> & Ec & Hnew)]; [eauto|].
  unfold water_fix. rewrite Ec, dict_get_set_eq.
  rewrite (dict_get_set_ne (py "title")) by key_ne.
  rewrite (fix_water_description_idem U HU _ _ _ Hnew).
  cbn [mbind option_bind].
  destruct (negb (py_eq new new)); [|eauto].
  rewrite dict_set_set. eauto.
Qed.

Lemma put_en_cases (d en2 : dict) :
  put_en d en2 = d
  \/ (exists i, alookup (py "i18n") d = Some (JObj i)
                /\ dict_has (py "en") i = true
                /\ put_en d en2
                   = dict_set (py "i18n")
                       (JObj (dict_set (py "en") (JObj en2) i)) d).
Proof.
  unfold put_en. destruct (alookup (py "i18n") d) as [[| | | | |i]|]; auto.
  destruct (dict_has (py "en") i) eqn:E; [|auto]. right. exists i. auto.
Qed.

(** The steps of one turn of Post-QC. *)
Lemma post_qc_record_inv (d : dict) (r : json * bool) :
  post_qc_record U netloc (JObj d) = Some r ->
  exists (i en en1 en2 : dict) (c1 c2 : bool),
    dict_get (py "i18n") (JObj []) d = JObj i
    /\ dict_get (py "en") (JObj []) i = JObj en
    /\ sources_clean U netloc (dict_get (py "brand") (JStr []) d) en
       = Some (en1, c1)
    /\ water_fix U (dict_get (py "category") (JStr []) d) en1 = Some (en2, c2)
    /\ r = (JObj (put_en d en2), c1 || c2).
Proof.
  unfold post_qc_record. cbn [as_dict mbind option_bind]. intros H.
  destruct (dict_get (py "i18n") (JObj []) d) as [| | | | |i] eqn:Hi;
    try discriminate H.
  cbn [as_dict mbind option_bind] in H.
  destruct (dict_get (py "en") (JObj []) i) as [| | | | |en] eqn:He;
    try discriminate H.
  cbn [as_dict mbind option_bind] in H.
  destruct (sources_clean U netloc _ en) as [[en1 c1]|] eqn:E1;
    [|discriminate H].
  cbn [mbind option_bind] in H.
  destruct (water_fix U _ en1) as [[en2 c2]|] eqn:E2; [|discriminate H].
  cbn [mbind option_bind] in H. injection H as <-.
  exists i, en, en1, en2, c1, c2. repeat split; assumption.
Qed.

(** A second turn of Post-QC changes nothing more in the record. *)
Lemma post_qc_settled (r r1 : json) :
  post_qc U netloc r = Some r1 -> post_qc U netloc r1 = Some r1.
Proof using HU.
  unfold post_qc. intros H.
  destruct (post_qc_record U netloc r) as [[r1' c]|] eqn:E;
    [|discriminate H].
  cbn [mbind option_bind fst] in H. injection H as ->.
  destruct r as [| | | | |d]; try discriminate E.
  destruct (post_qc_record_inv _ _ E)
    as (i & en & en1 & en2 & c1 & c2 & Hi & He & S1 & S2 & [= -> ->]).
  destruct (put_en_cases d en2) as [Hsame|(i' & Hi' & Hhas & Hput)].
  { rewrite Hsame in E |- *. rewrite E. reflexivity. }
  rewrite Hput.
  assert (i' = i) as ->.
  { unfold dict_get in Hi. rewrite Hi' in Hi. congruence. }
  assert (Hfix1 : exists c', sources_clean U netloc
                    (dict_get (py "brand") (JStr []) d) en2 = Some (en2, c')).
  { apply (sources_clean_fixed _ _ _ _ S1).
    apply water_fix_spec in S2.
    destruct S2 as [->|(new & -> & _)]; [left; reflexivity|].
    right. exists (py "description"), new. split; [key_ne|reflexivity]. }
  destruct Hfix1 as [c1' Hfix1].
  destruct (water_fix_fixed _ _ _ _ S2) as [c2' Hfix2].
  unfold post_qc_record. cbn [as_dict mbind option_bind].
  rewrite dict_get_set_eq. cbn [as_dict mbind option_bind].
  rewrite dict_get_set_eq. cbn [as_dict mbind option_bind].
  rewrite !(dict_get_set_ne _ (py "i18n")) by key_ne.
  rewrite Hfix1. cbn [mbind option_bind].
  rewrite Hfix2. cbn [mbind option_bind fst].
  unfold put_en. rewrite alookup_dict_set_eq.
  rewrite dict_has_set, str_eqb_refl. cbn [orb].
  rewrite !dict_set_set. reflexivity.
Qed.

(** C8: Post-QC on a Water record whose English title holds SPARKLING and
    whose English description has the word still (a match of the pattern of
    the source, whole word and without regard to case) leaves a description
    that has the word sparkling, under the same kind of match (and so holds
    the text sparkling), and has the word still no more. *)
Theorem water_correction (d en : dict) (title desc : pystr) (data' : json)
  (changed : bool) :
  post_qc_record U netloc (JObj d) = Some (data', changed) ->
  dict_get (py "category") (JStr []) d = JStr (py "Water") ->
  jpath (JObj d) [py "i18n"; py "en"] = Some (JObj en) ->
  alookup (py "title") en = Some (JStr title) ->
  alookup (py "description") en = Some (JStr desc) ->
  contains (py "SPARKLING") title = true ->
  re_search_word U (py "still") None desc = true ->
  exists out,
    jpath data' [py "i18n"; py "en"; py "description"] = Some (JStr out)
    /\ re_search_word U (py "sparkling") None out = true
    /\ contains (py "sparkling") out = true
    /\ re_search_word U (py "still") None out = false.
Proof using HU.
  intros H Hcat Hpath Htitle Hdesc Hmark Hstill.
  destruct (jpath_2_inv _ _ _ _ Hpath) as (i & Hi & He).
  destruct (post_qc_record_inv _ _ H)
    as (i' & en' & en1 & en2 & c1 & c2 & Hi' & He' & S1 & S2 & [= -> ->]).
  unfold dict_get in Hi'. rewrite Hi in Hi'. injection Hi' as <-.
  unfold dict_get in He'. rewrite He in He'. injection He' as <-.
  destruct (fix_water_description_corrected U HU desc title Hmark Hstill)
    as (out & Hfix & Hout0 & Hout1 & Hout2).
  exists out. split; [|split; [|split]; assumption].
  assert (Hd1 : dict_get (py "description") (JStr []) en1 = JStr desc).
  { unfold dict_get.
    rewrite (sources_clean_frame _ _ _ _ _ S1) by key_ne.
    rewrite Hdesc. reflexivity. }
  assert (Ht1 : dict_get (py "title") (JStr []) en1 = JStr title).
  { unfold dict_get.
    rewrite (sources_clean_frame _ _ _ _ _ S1) by key_ne.
    rewrite Htitle. reflexivity. }
  assert (Hd2 : alookup (py "description") en2 = Some (JStr out)).
  { unfold water_fix in S2. rewrite Hcat, Hd1, Ht1, Hfix in S2.
    replace (py_eq (JStr (py "Water")) (JStr (py "Water"))) with true in S2
      by (symmetry; apply str_eqb_refl).
    cbn [mbind option_bind] in S2.
    destruct (py_eq (JStr out) (JStr desc)) eqn:Eq; cbn [negb] in S2;
      injection S2 as <- _.
    - apply str_eqb_eq in Eq. subst out.
      rewrite (sources_clean_frame _ _ _ _ _ S1) by key_ne. exact Hdesc.
    - apply alookup_dict_set_eq. }
  unfold put_en. rewrite Hi.
  replace (dict_has (py "en") i) with true
    by (unfold dict_has; rewrite He; reflexivity).
  rewrite jpath_3. simpl. rewrite alookup_dict_set_eq. simpl.
  rewrite alookup_dict_set_eq. simpl. exact Hd2.
Qed.

End post_qc_record.

(** ** The tables cut down to ASCII *)

Lemma ascii_lower_letter (p : N) :
  ascii_letter p = true -> 97 <= ascii_lower p <= 122.
Proof.
  unfold ascii_letter, ascii_lower.
  destruct (N.leb_spec 65 p), (N.leb_spec p 90), (N.leb_spec 97 p),
    (N.leb_spec p 122); simpl; try discriminate; lia.
Qed.

Lemma ascii_letter_lower (c : N) :
  97 <= ascii_lower c <= 122 -> ascii_letter c = true.
Proof.
  unfold ascii_letter, ascii_lower.
  destruct (N.leb_spec 65 c), (N.leb_spec c 90), (N.leb_spec 97 c),
    (N.leb_spec c 122); simpl; try reflexivity; lia.
Qed.

Lemma ascii_letter_alnum (c : N) :
  ascii_letter c = true -> ascii_alnum c = true.
Proof.
  unfold ascii_letter, ascii_alnum. rewrite !orb_true_iff. tauto.
Qed.

Lemma ascii_tables_ok : unicode_ok ascii_tables.
Proof.
  split; simpl.
  - reflexivity.
  - intros c Hc. apply N.ltb_lt in Hc. rewrite Hc. reflexivity.
  - intros p c _ Hc. apply N.ltb_lt in Hc. rewrite Hc. reflexivity.
  - intros p c Hp H. apply andb_true_iff in H. destruct H as [Hc H].
    rewrite Hc. simpl. apply N.eqb_eq in H.
    rewrite ascii_letter_alnum; [reflexivity|].
    apply ascii_letter_lower. rewrite <- H. apply ascii_lower_letter, Hp.
Defined.

Lemma water_correction_witness :
  exists (data' : json) (changed : bool) (out : pystr),
    post_qc.post_qc_record ascii_tables netloc_K100 (JObj fields_water)
    = Some (data', changed)
    /\ jpath data' [py "i18n"; py "en"; py "description"] = Some (JStr out)
    /\ re_search_word ascii_tables (py "sparkling") None out = true
    /\ contains (py "sparkling") out = true
    /\ re_search_word ascii_tables (py "still") None out = false.
Proof.
  destruct (post_qc.post_qc_record ascii_tables netloc_K100
              (JObj fields_water)) as [[data' c]|] eqn:E.
  2: { vm_compute in E. discriminate E. }
  destruct (water_correction ascii_tables ascii_tables_ok netloc_K100
              fields_water
              [ (py "title", JStr (py "BORJOMI SPARKLING 0.5L"));
                (py "description",
                 JStr (py "A classic still mineral water. Still refreshing."));
                (py "sources",
                 JArr [ JObj [ (py "name", JStr (py "Borjomi"));
                               (py "url",
                                JStr (py "https://en.wikipedia.org/wiki/Borjomi")) ] ]) ]
              (py "BORJOMI SPARKLING 0.5L")
              (py "A classic still mineral water. Still refreshing.")
              data' c E) as (out & H).
  - vm_compute. reflexivity.
  - vm_compute. reflexivity.
  - vm_compute. reflexivity.
  - vm_compute. reflexivity.
  - vm_compute. reflexivity.
  - vm_compute. reflexivity.
  - exists data', c, out. split; [reflexivity|exact H].
Defined.

(** ** Running a pass twice *)

(** C2, as the claim states it, fails for the Premium Pass on a record with
    short texts: the second run pads the description and the ingredients
    again. *)
Lemma premium_pass_pads_again :
  exists r1 r2 : json,
    premium_pass.premium_pass ascii_tables record_short_texts = Some r1
    /\ premium_pass.premium_pass ascii_tables r1 = Some r2
    /\ r2 <> r1.
Proof.
  eexists _, _. split; [vm_compute; reflexivity|].
  split; [vm_compute; reflexivity|]. discriminate.
Qed.

(** ** Page Renderer (generate_pages.py) *)

Section render.

Import generate_pages.











End render.

(** ** The end-to-end scenario *)


Section end_to_end.

Import content_generators i18n_translator generate_json_from_excel.
Import generate_pages.




End end_to_end.



(* ====================================================================== *)
(** * Further properties of the sources *)
(* ====================================================================== *)

(** ** Whitespace ([str.strip] and the runs of [re.sub]) *)

Lemma lstrip_head (s : pystr) (c : N) (r : pystr) :
  lstrip s = c :: r -> is_space c = false.
Proof.
  induction s as [|a s IH]; simpl; [discriminate|].
  destruct (is_space a) eqn:E; [exact IH|]. intros [= <- _]. exact E.
Qed.

Lemma lstrip_id (c : N) (r : pystr) :
  is_space c = false -> lstrip (c :: r) = c :: r.
Proof. simpl. intros ->. reflexivity. Qed.

Lemma lstrip_idem (s : pystr) : lstrip (lstrip s) = lstrip s.
Proof.
  destruct (lstrip s) as [|c r] eqn:E; [reflexivity|].
  apply lstrip_id. exact (lstrip_head _ _ _ E).
Qed.

Lemma lstrip_snoc (x : pystr) (c : N) :
  is_space c = false -> lstrip (x ++ [c]) = lstrip x ++ [c].
Proof.
  intros Hc. induction x as [|a x IH]; simpl; [rewrite Hc; reflexivity|].
  destruct (is_space a); [exact IH|reflexivity].
Qed.

Lemma rstrip_cons (c : N) (r : pystr) :
  is_space c = false -> rstrip (c :: r) = c :: rstrip r.
Proof.
  intros Hc. unfold rstrip. simpl. rewrite lstrip_snoc by exact Hc.
  rewrite rev_app_distr. reflexivity.
Qed.

Lemma rstrip_idem (s : pystr) : rstrip (rstrip s) = rstrip s.
Proof. unfold rstrip. rewrite rev_involutive, lstrip_idem. reflexivity. Qed.

Lemma rstrip_last (s x : pystr) (c : N) :
  rstrip s = x ++ [c] -> is_space c = false.
Proof.
  unfold rstrip. intros H. apply (f_equal (@rev N)) in H.
  rewrite rev_involutive, rev_app_distr in H. simpl in H.
  exact (lstrip_head _ _ _ H).
Qed.

Lemma rstrip_id (s : pystr) :
  (forall x c, s = x ++ [c] -> is_space c = false) -> rstrip s = s.
Proof.
  intros H. unfold rstrip. destruct (rev s) as [|c r] eqn:E.
  - apply (f_equal (@rev N)) in E. rewrite rev_involutive in E. subst s.
    reflexivity.
  - rewrite lstrip_id.
    + rewrite <- E. apply rev_involutive.
    + apply (H (rev r)). apply (f_equal (@rev N)) in E.
      rewrite rev_involutive in E. exact E.
Qed.

(** [py_strip] answers the empty text or a text that begins and ends with a
    character that is no whitespace. *)
Lemma py_strip_ends (s : pystr) :
  py_strip s = []
  \/ (exists c r, py_strip s = c :: r /\ is_space c = false
                  /\ forall x d, py_strip s = x ++ [d] -> is_space d = false).
Proof.
  unfold py_strip. destruct (lstrip s) as [|c r] eqn:E; [left; reflexivity|].
  right. pose proof (lstrip_head _ _ _ E) as Hc.
  exists c, (rstrip r). split; [apply rstrip_cons; exact Hc|].
  split; [exact Hc|]. intros x d. apply rstrip_last.
Qed.

Lemma py_strip_idem (s : pystr) : py_strip (py_strip s) = py_strip s.
Proof.
  destruct (py_strip_ends s) as [->|(c & r & E & Hc & Hlast)]; [reflexivity|].
  unfold py_strip at 1. rewrite E, lstrip_id by exact Hc. rewrite <- E.
  apply rstrip_id. exact Hlast.
Qed.

Lemma elem_of_lstrip (s : pystr) (c : N) : c ∈ lstrip s -> c ∈ s.
Proof.
  induction s as [|a s IH]; simpl; [auto|].
  destruct (is_space a); [|auto]. intros H. right. apply IH, H.
Qed.

Lemma elem_of_py_strip (s : pystr) (c : N) : c ∈ py_strip s -> c ∈ s.
Proof.
  unfold py_strip, rstrip. intros H.
  apply list_elem_of_In in H. apply (proj2 (in_rev _ _)) in H.
  apply list_elem_of_In, elem_of_lstrip, list_elem_of_In in H.
  apply (proj2 (in_rev _ _)) in H.
  apply list_elem_of_In, elem_of_lstrip in H. exact H.
Qed.

Lemma elem_of_sub_runs (cls : N -> bool) (rep : pystr) (b : bool) (s : pystr)
  (c : N) :
  c ∈ sub_runs cls rep b s -> c ∈ rep \/ (c ∈ s /\ cls c = false).
Proof.
  revert b. induction s as [|a s IH]; intros b; simpl.
  - intros H. apply elem_of_nil in H. destruct H.
  - destruct (cls a) eqn:E.
    + destruct b.
      * intros H. destruct (IH _ H) as [?|[? ?]]; [left; assumption|].
        right. split; [right; assumption|assumption].
      * rewrite elem_of_app. intros [H|H]; [left; exact H|].
        destruct (IH _ H) as [?|[? ?]]; [left; assumption|].
        right. split; [right; assumption|assumption].
    + rewrite elem_of_cons. intros [->|H].
      * right. split; [left|exact E].
      * destruct (IH _ H) as [?|[? ?]]; [left; assumption|].
        right. split; [right; assumption|assumption].
Qed.

Lemma space_32 (c : N) : c ∈ py " " -> c = 32.
Proof. intros H. apply (list_elem_of_singleton c 32). exact H. Qed.

Lemma not_space_32 (c : N) : is_space c = false -> (32 =? c) = false.
Proof. intros Hc. apply N.eqb_neq. intros <-. discriminate Hc. Qed.

Lemma sub_runs_single (s : pystr) :
  (forall b, contains (py "  ") (sub_runs is_space (py " ") b s) = false)
  /\ starts_with (py " ") (sub_runs is_space (py " ") true s) = false.
Proof.
  change (py "  ") with [32; 32]. change (py " ") with [32].
  induction s as [|c r [IH1 IH2]].
  - split; [intros b|]; reflexivity.
  - split.
    + intros b. cbn [sub_runs]. destruct (is_space c) eqn:E.
      * destruct b; [apply IH1|].
        cbn [app contains starts_with]. rewrite N.eqb_refl.
        cbn [andb]. 
        change (starts_with [32] (sub_runs is_space [32] true r)
                || contains [32; 32] (sub_runs is_space [32] true r) = false).
        rewrite IH2, IH1. reflexivity.
      * cbn [contains starts_with]. rewrite (not_space_32 _ E), IH1. reflexivity.
    + cbn [sub_runs]. destruct (is_space c) eqn:E; [exact IH2|].
      cbn [starts_with]. rewrite (not_space_32 _ E). reflexivity.
Qed.

(** X1: the name that [safe_filename] answers holds none of the characters
    backslash, slash, colon, star, question mark, double quote, angle
    brackets and bar, whatever the input. *)
Theorem safe_filename_no_forbidden (value : pystr) (c : N) :
  c ∈ generate_json_from_excel.safe_filename value ->
  generate_json_from_excel.forbidden c = false.
Proof.
  unfold generate_json_from_excel.safe_filename. intros H.
  apply elem_of_sub_runs in H. destruct H as [H|[H _]].
  - apply space_32 in H. subst c. reflexivity.
  - apply elem_of_sub_runs in H. destruct H as [H|[_ H]]; [|exact H].
    apply (list_elem_of_singleton c 45) in H. subst c. reflexivity.
Qed.

Lemma safe_filename_no_forbidden_witness :
  45 ∈ generate_json_from_excel.safe_filename (py "A/B:C")
  /\ generate_json_from_excel.forbidden 45 = false.
Proof.
  assert (H : 45 ∈ generate_json_from_excel.safe_filename (py "A/B:C")).
  { apply (bool_decide_eq_true_1 _). vm_compute. reflexivity. }
  split; [exact H|].
  apply (safe_filename_no_forbidden (py "A/B:C") 45 H).
Defined.

(** X2: in the name that [safe_filename] answers every whitespace
    character is a plain space, and no two spaces are next to each other. *)
Theorem safe_filename_single_spaces (value : pystr) :
  (forall c, c ∈ generate_json_from_excel.safe_filename value ->
             is_space c = true -> c = 32)
  /\ contains (py "  ") (generate_json_from_excel.safe_filename value) = false.
Proof.
  unfold generate_json_from_excel.safe_filename. split.
  - intros c H Hc. apply elem_of_sub_runs in H.
    destruct H as [H|[_ H]]; [apply space_32; exact H|congruence].
  - apply sub_runs_single.
Qed.

Lemma words_spaced_last (x : pystr) (c : N) :
  words_spaced (x ++ [c]) = true -> is_space c = false.
Proof.
  induction x as [|a x IH]; simpl.
  - destruct (is_space c); [|reflexivity].
    rewrite andb_false_r. discriminate.
  - destruct (is_space a); [|exact IH].
    intros H. apply andb_true_iff in H. destruct H as [_ H]. exact (IH H).
Qed.

Lemma sub_runs_tidy (s : pystr) :
  words_spaced s = true -> sub_runs is_space (py " ") false s = s.
Proof.
  change (py " ") with [32].
  induction s as [|c r IH]; [reflexivity|].
  cbn [words_spaced sub_runs]. destruct (is_space c) eqn:E.
  - intros H. apply andb_true_iff in H. destruct H as [H Hr].
    apply andb_true_iff in H. destruct H as [Hc Hd].
    apply N.eqb_eq in Hc. subst c.
    destruct r as [|d r']; [discriminate Hd|].
    apply negb_true_iff in Hd. specialize (IH Hr).
    cbn [sub_runs] in IH |- *. rewrite Hd in IH |- *.
    cbn [app]. rewrite IH. reflexivity.
  - intros H. rewrite (IH H). reflexivity.
Qed.

Lemma py_strip_tidy (s : pystr) : tidy s = true -> py_strip s = s.
Proof.
  unfold tidy. intros H. apply andb_true_iff in H. destruct H as [Hh Hw].
  unfold py_strip. destruct s as [|c r]; [reflexivity|].
  apply negb_true_iff in Hh. rewrite lstrip_id by exact Hh.
  apply rstrip_id. intros x d Hx. rewrite Hx in Hw.
  exact (words_spaced_last _ _ Hw).
Qed.

Lemma sub_runs_true_head (r : pystr) :
  r <> [] -> (forall x d, r = x ++ [d] -> is_space d = false) ->
  exists d o, sub_runs is_space (py " ") true r = d :: o
              /\ is_space d = false.
Proof.
  induction r as [|a r IH]; [congruence|]. intros _ Hlast.
  cbn [sub_runs]. destruct (is_space a) eqn:E; [|eauto].
  apply IH.
  - intros ->. rewrite (Hlast [] a eq_refl) in E. discriminate E.
  - intros x d ->. apply (Hlast (a :: x) d). reflexivity.
Qed.

Lemma sub_runs_words_spaced (t : pystr) (b : bool) :
  (forall x d, t = x ++ [d] -> is_space d = false) ->
  words_spaced (sub_runs is_space (py " ") b t) = true.
Proof.
  revert b. induction t as [|c r IH]; intros b Hlast; [reflexivity|].
  assert (Hr : forall x d, r = x ++ [d] -> is_space d = false).
  { intros x d ->. apply (Hlast (c :: x) d). reflexivity. }
  cbn [sub_runs]. destruct (is_space c) eqn:E.
  - destruct b; [apply IH; exact Hr|].
    destruct (sub_runs_true_head r) as (d & o & Ho & Hd).
    { intros ->. rewrite (Hlast [] c eq_refl) in E. discriminate E. }
    { exact Hr. }
    specialize (IH true Hr). rewrite Ho in IH |- *.
    change (py " ") with [32]. cbn [app words_spaced].
    change (is_space 32) with true. cbn iota. rewrite Hd, N.eqb_refl.
    cbn [negb andb]. cbn [words_spaced] in IH. rewrite Hd in IH. exact IH.
  - cbn [words_spaced]. rewrite E. apply IH. exact Hr.
Qed.

Lemma clean_spaces_tidy (s : pystr) :
  tidy (enrich_products.clean_spaces s) = true.
Proof.
  unfold enrich_products.clean_spaces.
  destruct (py_strip_ends s) as [->|(c & r & E & Hc & Hlast)]; [reflexivity|].
  pose proof (sub_runs_words_spaced (py_strip s) false Hlast) as Hw.
  rewrite E in Hw |- *. cbn [sub_runs] in Hw |- *. rewrite Hc in Hw |- *.
  unfold tidy. rewrite Hc, Hw. reflexivity.
Qed.

Lemma clean_spaces_fixed (s : pystr) :
  tidy s = true -> enrich_products.clean_spaces s = s.
Proof.
  intros H. unfold enrich_products.clean_spaces.
  rewrite (py_strip_tidy _ H). apply sub_runs_tidy.
  unfold tidy in H. apply andb_true_iff in H. apply H.
Qed.

(** X3: [clean_spaces] answers a text in normal form (words separated by
    single spaces, no whitespace at either end); it leaves its own results as
    they are, and the texts it leaves as they are are exactly those in
    normal form. *)
Theorem clean_spaces_normal_form (s : pystr) :
  tidy (enrich_products.clean_spaces s) = true
  /\ enrich_products.clean_spaces (enrich_products.clean_spaces s)
     = enrich_products.clean_spaces s
  /\ (enrich_products.clean_spaces s = s <-> tidy s = true).
Proof.
  split; [apply clean_spaces_tidy|].
  split; [apply clean_spaces_fixed, clean_spaces_tidy|].
  split; [|apply clean_spaces_fixed].
  intros H. rewrite <- H. apply clean_spaces_tidy.
Qed.

Lemma elem_of_split_on (sep : N) (s cur p : pystr) :
  p ∈ split_on sep cur s -> sep ∉ cur -> sep ∉ p.
Proof.
  revert cur. induction s as [|c r IH]; intros cur; simpl.
  - intros H Hcur. apply list_elem_of_singleton in H. subst p.
    intros Hin. apply Hcur.
    apply list_elem_of_In. apply in_rev. apply list_elem_of_In. exact Hin.
  - destruct (c =? sep) eqn:E.
    + rewrite elem_of_cons. intros [->|H] Hcur.
      * intros Hin. apply Hcur.
        apply list_elem_of_In. apply in_rev. apply list_elem_of_In. exact Hin.
      * apply (IH [] H). apply not_elem_of_nil.
    + intros H Hcur. apply (IH _ H). apply not_elem_of_cons. split; [|exact Hcur].
      intros <-. rewrite N.eqb_refl in E. discriminate E.
Qed.

(** X4: every tag that the generator stores is a text that is not empty,
    has no whitespace at either end and holds no comma. *)
Theorem split_tags_clean (tags : pystr) (x : json) :
  x ∈ generate_json_from_excel.split_tags tags ->
  exists t, x = JStr t /\ t <> [] /\ py_strip t = t /\ 44 ∉ t.
Proof.
  unfold generate_json_from_excel.split_tags. intros H.
  apply list_elem_of_fmap_1 in H. destruct H as (t0 & -> & H).
  apply list_elem_of_filter in H. destruct H as [Hne H].
  exists (py_strip t0). split; [reflexivity|]. split; [exact Hne|].
  split; [apply py_strip_idem|].
  intros Hin. apply elem_of_py_strip in Hin. revert Hin.
  apply (elem_of_split_on 44 tags [] t0 H). apply not_elem_of_nil.
Qed.

Lemma split_tags_clean_witness :
  JStr (py "olives") ∈ generate_json_from_excel.split_tags (py "greek , olives,,")
  /\ exists t, JStr (py "olives") = JStr t /\ t <> [] /\ py_strip t = t
               /\ 44 ∉ t.
Proof.
  assert (H : JStr (py "olives")
              ∈ generate_json_from_excel.split_tags (py "greek , olives,,")).
  { replace (generate_json_from_excel.split_tags (py "greek , olives,,"))
      with [JStr (py "greek"); JStr (py "olives")] by (vm_compute; reflexivity).
    right. left. }
  split; [exact H|].
  apply (split_tags_clean (py "greek , olives,,") (JStr (py "olives")) H).
Defined.

(** ** The cache of the Enricher, further *)

Section cache.

Context (sha1 : pystr -> pystr).

(** X6: a query is sent to the network at most once.  After one call of
    [ddg_search], every later call for the same query answers the same
    results from the cache and leaves the cache as it is, whatever the
    network does. *)
Theorem ddg_search_asks_once (W W' : web) (query : pystr) (n n' : nat)
  (cache : WebCache) :
  ddg_search sha1 W' query n' (ddg_search sha1 W query n cache).2
  = ddg_search sha1 W query n cache.
Proof.
  unfold ddg_search at 2 3.
  destruct (load_search sha1 cache query) as [cached|] eqn:E; cbn [snd].
  - unfold ddg_search. rewrite E. reflexivity.
  - unfold ddg_search, load_search, save_search. cbn [search_dir].
    rewrite lookup_insert_eq. reflexivity.
Qed.

(** X7: a page that [fetch_and_extract] answered is answered again from
    the cache, without the network, and the cache stays as it is. *)
Theorem fetch_is_cached (W W' : web) (u : pystr) (cache cache' : WebCache)
  (doc : WebDoc) :
  fetch_and_extract sha1 W u cache = (Some doc, cache') ->
  fetch_and_extract sha1 W' u cache' = (Some doc, cache').
Proof.
  unfold fetch_and_extract.
  destruct (load_page sha1 cache u) as [cached|] eqn:E.
  - intros [= <- <-]. rewrite E. reflexivity.
  - destruct (fetch_body sha1 W u cache) as [r|] eqn:Eb; [|discriminate].
    intros ->. unfold fetch_body in Eb.
    destruct (requests_get W u) as [[st html]|]; [|discriminate Eb].
    cbn [mbind option_bind fst snd] in Eb.
    destruct (400 <=? st)%Z; [discriminate Eb|].
    destruct (trafilatura_extract W html) as [downloaded|];
      [|discriminate Eb].
    cbn [mbind option_bind] in Eb.
    match type of Eb with
    | (?m ≫= _) = _ => destruct m as [t|]; [|discriminate Eb]
    end.
    cbn [mbind option_bind] in Eb. injection Eb as <- <-.
    unfold load_page, save_page. cbn [page_dir url].
    rewrite lookup_insert_eq. reflexivity.
Qed.

(** X8: [fetch_and_extract] keeps the page cache within the limit of
    40000 characters of text per page, and a document it answers from such a
    cache is within the limit as well. *)
Theorem fetch_keeps_pages_bounded (W : web) (u : pystr) (cache : WebCache) :
  pages_bounded cache ->
  pages_bounded (fetch_and_extract sha1 W u cache).2
  /\ forall doc, (fetch_and_extract sha1 W u cache).1 = Some doc ->
                 (length (text doc) <= MAX_FETCH_CHARS)%nat.
Proof.
  intros Hc. unfold fetch_and_extract.
  destruct (load_page sha1 cache u) as [cached|] eqn:E; cbn [fst snd].
  - split; [exact Hc|]. intros doc [= <-]. exact (Hc _ _ E).
  - destruct (fetch_body sha1 W u cache) as [[r c']|] eqn:Eb; cbn [fst snd].
    2: { split; [exact Hc|]. discriminate. }
    unfold fetch_body in Eb.
    destruct (requests_get W u) as [[st html]|]; [|discriminate Eb].
    cbn [mbind option_bind fst snd] in Eb.
    destruct (400 <=? st)%Z.
    { injection Eb as <- <-. split; [exact Hc|]. discriminate. }
    destruct (trafilatura_extract W html) as [downloaded|];
      [|discriminate Eb].
    cbn [mbind option_bind] in Eb.
    match type of Eb with
    | (?m ≫= _) = _ => destruct m as [t|]; [|discriminate Eb]
    end.
    cbn [mbind option_bind] in Eb. injection Eb as <- <-.
    assert (Hlen : (length (take MAX_FETCH_CHARS t) <= MAX_FETCH_CHARS)%nat)
      by (rewrite length_take; apply Nat.le_min_l).
    split.
    + intros f doc. unfold save_page. cbn [page_dir url].
      destruct (decide (f = cache_file sha1 u)) as [->|Hne].
      * rewrite lookup_insert_eq. intros [= <-]. exact Hlen.
      * rewrite lookup_insert_ne by congruence. apply Hc.
    + intros doc [= <-]. exact Hlen.
Qed.

End cache.

Lemma fetch_is_cached_witness :
  fetch_and_extract (fun s => s) web_down (py "https://krinos.com/olives")
    (fetch_and_extract (fun s => s) web_up (py "https://krinos.com/olives")
       empty_cache).2
  = fetch_and_extract (fun s => s) web_up (py "https://krinos.com/olives")
      empty_cache.
Proof.
  destruct (fetch_and_extract (fun s => s) web_up
              (py "https://krinos.com/olives") empty_cache)
    as [[doc|] cache'] eqn:E.
  - cbn [snd].
    apply (fetch_is_cached (fun s => s) web_up web_down _ empty_cache).
    exact E.
  - vm_compute in E. discriminate E.
Defined.

Lemma fetch_keeps_pages_bounded_witness :
  pages_bounded empty_cache
  /\ pages_bounded
       (fetch_and_extract (fun s => s) web_up (py "https://krinos.com/olives")
          empty_cache).2.
Proof.
  assert (H : pages_bounded empty_cache).
  { intros f doc Hf. cbn [empty_cache page_dir] in Hf.
    rewrite lookup_empty in Hf. discriminate Hf. }
  split; [exact H|].
  apply (fetch_keeps_pages_bounded (fun s => s) web_up
           (py "https://krinos.com/olives") empty_cache H).
Defined.

(** ** From a row to its pages, for every row *)

Lemma py_or_str (a b : pystr) :
  py_or (JStr a) (JStr b) = JStr (match a with [] => b | _ => a end).
Proof. destruct a; reflexivity. Qed.

Lemma mapM_keys {A} (f : pystr -> option (pystr * A)) (keys : list pystr)
  (kvs : list (pystr * A)) :
  (forall k kv, f k = Some kv -> kv.1 = k) ->
  mapM f keys = Some kvs -> map fst kvs = keys.
Proof.
  intros Hkey H. apply mapM_Some in H.
  induction H as [|k kv keys kvs Hf _ IH]; [reflexivity|].
  simpl. rewrite (Hkey _ _ Hf), IH. reflexivity.
Qed.



Section rows.

Import content_generators i18n_translator generate_json_from_excel.
Import generate_pages.







Lemma mapM_head_None {A B} (f : A -> option B) (x : A) (l : list A) :
  f x = None -> mapM f (x :: l) = None.
Proof. intros H. cbn [mapM]. rewrite H. reflexivity. Qed.

(** X12: the renderer raises on a content file with a SKU and without the
    member i18n (the loop reads [data[i18n]] without a default), so no page
    of that record is written. *)
Theorem render_needs_i18n (TEMPLATE sku : pystr) (data : dict) :
  alookup (py "i18n") data = None ->
  dict_get (py "sku") (JStr []) data = JStr sku ->
  py_strip sku <> [] ->
  render_product TEMPLATE data = None.
Proof.
  intros Hi Hsku Hdir. unfold render_product, text_of. rewrite Hsku.
  cbn [as_str mbind option_bind].
  destruct (py_strip sku) as [|c rest]; [congruence|].
  destruct (as_str _) as [name|]; [|reflexivity].
  cbn [mbind option_bind]. unfold LANG_MAP. apply mapM_head_None.
  cbn [fst]. unfold page. rewrite Hi. reflexivity.
Qed.

(** X13: the renderer never shows the year of a history entry: two
    histories whose entries have the same texts give the same HTML, whatever
    their years (the label is looked up under the member key, which the
    generators do not write). *)
Theorem history_html_ignores_year (block : dict) (hs hs' : list json) :
  Forall2 (fun h h' => exists y y' t,
             h = JObj [(py "year", y); (py "text", t)]
             /\ h' = JObj [(py "year", y'); (py "text", t)]) hs hs' ->
  history_html (dict_set (py "history") (JArr hs) block)
  = history_html (dict_set (py "history") (JArr hs') block).
Proof.
  intros H. unfold history_html.
  rewrite !(dict_get_set_ne (py "history_labels") (py "history")) by key_ne.
  rewrite !dict_get_set_eq.
  destruct (as_dict _) as [labels|]; [|reflexivity].
  cbn [py_iter mbind option_bind].
  match goal with
  | |- ?a ≫= _ = ?b ≫= _ => assert (E : a = b); [|rewrite E; reflexivity]
  end.
  induction H as [|h h' hs hs' (y & y' & t & -> & ->) _ IH]; [reflexivity|].
  cbn [mapM]. rewrite IH. reflexivity.
Qed.

End rows.




Lemma render_needs_i18n_witness :
  generate_pages.render_product page_min [(py "sku", JStr (py "K100"))] = None.
Proof.
  apply (render_needs_i18n page_min (py "K100")).
  - vm_compute. reflexivity.
  - vm_compute. reflexivity.
  - vm_compute. discriminate.
Defined.

Lemma history_html_ignores_year_witness :
  generate_pages.history_html
    (dict_set (py "history")
       (JArr [JObj [(py "year", JStr (py "1957"));
                    (py "text", JStr (py "Founded."))]]) [])
  = generate_pages.history_html
      (dict_set (py "history")
         (JArr [JObj [(py "year", JStr []);
                      (py "text", JStr (py "Founded."))]]) []).
Proof.
  apply (history_html_ignores_year []).
  constructor; [|constructor]. eexists _, _, _. split; reflexivity.
Defined.

(** ** The generators, further *)

Lemma alookup_None (k : pystr) (d : dict) :
  k ∉ dict_keys d -> alookup k d = None.
Proof.
  intros H. destruct (alookup k d) eqn:E; [|reflexivity].
  destruct H. apply elem_of_dict_keys. unfold dict_has. rewrite E. reflexivity.
Qed.

Lemma alookup_rev_NoDup (k : pystr) (v : json) (kvs : dict) :
  NoDup (dict_keys kvs) -> (k, v) ∈ kvs -> alookup k (rev kvs) = Some v.
Proof.
  induction kvs as [|[k0 v0] kvs IH]; intros Hnd Hin.
  - apply elem_of_nil in Hin. destruct Hin.
  - change (dict_keys ((k0, v0) :: kvs)) with (k0 :: dict_keys kvs) in Hnd.
    pose proof (NoDup_cons_1_1 _ _ Hnd) as Hk0.
    apply NoDup_cons_1_2 in Hnd.
    simpl. rewrite alookup_app.
    apply elem_of_cons in Hin as [[= -> ->]|Hin].
    + rewrite alookup_None.
      * simpl. rewrite str_eqb_refl. reflexivity.
      * intros H. apply Hk0. unfold dict_keys in *.
        rewrite map_rev in H. apply list_elem_of_In, in_rev in H.
        apply list_elem_of_In. exact H.
    + rewrite (IH Hnd Hin). reflexivity.
Qed.

Lemma dict_update_same (d kvs : dict) :
  (forall k v, (k, v) ∈ kvs -> alookup k d = Some v) ->
  dict_update d kvs = d.
Proof.
  unfold dict_update. induction kvs as [|[k0 v0] kvs IH]; intros H; simpl.
  - reflexivity.
  - rewrite dict_set_id by (apply H; left). apply IH.
    intros k v Hin. apply H. right. exact Hin.
Qed.

Lemma dict_update_idem (d kvs : dict) :
  NoDup (dict_keys kvs) ->
  dict_update (dict_update d kvs) kvs = dict_update d kvs.
Proof.
  intros Hnd. apply dict_update_same. intros k v Hin.
  apply alookup_dict_update_hit. apply alookup_rev_NoDup; assumption.
Qed.

Section localizer_more.

Import i18n_translator.

(** The steps of the Localizer, with the values it reads. *)
Lemma generate_i18n_from_en_steps (data data' : dict) :
  generate_i18n_from_en data = Some data' <->
  exists (i18n en blocks : dict) (name brand country size : pystr)
         (years : list json),
    alookup (py "i18n") data = Some (JObj i18n)
    /\ alookup (py "en") i18n = Some (JObj en)
    /\ py_or (py_or (dict_get (py "name") JNull data)
                    (dict_get (py "title") JNull en)) (JStr []) = JStr name
    /\ py_or (dict_get (py "brand") JNull data) (JStr []) = JStr brand
    /\ py_or (dict_get (py "country_of_origin") JNull data) (JStr [])
       = JStr country
    /\ py_or (dict_get (py "size") JNull data) (JStr []) = JStr size
    /\ history_years en = Some years
    /\ mapM (fun lang =>
               block ← localized_block en (py_strip name) (py_strip brand)
                         (py_strip country) (py_strip size) years lang;
               Some (lang, JObj block)) LANGS = Some blocks
    /\ data' = dict_set (py "i18n") (JObj (dict_update i18n blocks)) data.
Proof.
  unfold generate_i18n_from_en. split.
  - intros H.
    destruct (alookup (py "i18n") data) as [[| | | | |i18n]|] eqn:Ei;
      try discriminate H.
    cbn -[py mapM py_or dict_get dict_set dict_update history_years
         localized_block] in H.
    destruct (alookup (py "en") i18n) as [[| | | | |en]|] eqn:Ee;
      try discriminate H.
    cbn -[py mapM py_or dict_get dict_set dict_update history_years
         localized_block] in H.
    destruct (py_or (py_or (dict_get (py "name") JNull data)
                           (dict_get (py "title") JNull en)) (JStr []))
      as [| | |name| |] eqn:En; try discriminate H.
    cbn -[py mapM py_or dict_get dict_set dict_update history_years
         localized_block] in H.
    destruct (py_or (dict_get (py "brand") JNull data) (JStr []))
      as [| | |brand| |] eqn:Eb; try discriminate H.
    cbn -[py mapM py_or dict_get dict_set dict_update history_years
         localized_block] in H.
    destruct (py_or (dict_get (py "country_of_origin") JNull data) (JStr []))
      as [| | |country| |] eqn:Ec; try discriminate H.
    cbn -[py mapM py_or dict_get dict_set dict_update history_years
         localized_block] in H.
    destruct (py_or (dict_get (py "size") JNull data) (JStr []))
      as [| | |size| |] eqn:Es; try discriminate H.
    cbn -[py mapM py_or dict_get dict_set dict_update history_years
         localized_block] in H.
    destruct (history_years en) as [years|] eqn:Ey; [|discriminate H].
    cbn -[py mapM py_or dict_get dict_set dict_update history_years
         localized_block] in H.
    destruct (mapM _ LANGS) as [blocks|] eqn:Em; [|discriminate H].
    cbn -[py mapM py_or dict_get dict_set dict_update history_years
         localized_block] in H.
    injection H as <-.
    exists i18n, en, blocks, name, brand, country, size, years.
    repeat split; try reflexivity; assumption.
  - intros (i18n & en & blocks & name & brand & country & size & years
            & Hi & He & Hn & Hb & Hc & Hs & Hy & Hm & ->).
    rewrite Hi. cbn [as_dict mbind option_bind]. rewrite He.
    cbn [as_dict mbind option_bind]. rewrite Hn, Hb, Hc, Hs, Hy.
    cbn [as_str mbind option_bind]. rewrite Hm. reflexivity.
Qed.

Lemma localized_blocks_keys (en : dict) (name brand country size : pystr)
  (years : list json) (blocks : dict) :
  mapM (fun lang =>
          block ← localized_block en name brand country size years lang;
          Some (lang, JObj block)) LANGS = Some blocks ->
  dict_keys blocks = LANGS.
Proof.
  intros H. apply (mapM_keys _ _ _) in H; [exact H|].
  intros k kv Hkv.
  destruct (localized_block en name brand country size years k);
    [|discriminate Hkv].
  cbn [mbind option_bind] in Hkv. injection Hkv as <-. reflexivity.
Qed.

(** X14: the Localizer is idempotent: on the record it produced it
    completes again and produces the same record. *)
Theorem generate_i18n_from_en_idem (data data' : dict) :
  generate_i18n_from_en data = Some data' ->
  generate_i18n_from_en data' = Some data'.
Proof.
  intros H. apply generate_i18n_from_en_steps in H.
  destruct H as (i18n & en & blocks & name & brand & country & size & years
                 & Hi & He & Hn & Hb & Hc & Hs & Hy & Hm & ->).
  pose proof (localized_blocks_keys _ _ _ _ _ _ _ Hm) as Hkeys.
  apply generate_i18n_from_en_steps.
  exists (dict_update i18n blocks), en, blocks, name, brand, country, size,
    years.
  split; [apply alookup_dict_set_eq|].
  split.
  { rewrite alookup_dict_update_miss; [exact He|].
    apply alookup_None. unfold dict_keys. rewrite map_rev.
    intros Hin. apply list_elem_of_In, in_rev, list_elem_of_In in Hin.
    change (map fst blocks) with (dict_keys blocks) in Hin.
    rewrite Hkeys in Hin. revert Hin.
    apply (bool_decide_eq_true_1 (py "en" ∉ LANGS)). vm_compute. reflexivity. }
  rewrite !(dict_get_set_ne _ (py "i18n")) by key_ne.
  repeat (split; [assumption|]).
  rewrite dict_update_idem by (rewrite Hkeys; apply LANGS_NoDup).
  rewrite dict_set_set. reflexivity.
Qed.

(** The history that the loop assigns: three entries, each with the year
    of the English entry of the same rank, if any. *)
Lemma localized_history_spec (name brand country size : pystr)
  (years : list json) (lang : pystr) :
  lang ∈ LANGS ->
  exists fields t0 t1 t2,
    localized_fields name brand country size years lang = Some fields
    /\ alookup (py "history") (rev fields)
       = Some (JArr [ JObj [ (py "year", default (JStr []) (years !! 0%nat));
                             (py "text", JStr t0) ];
                      JObj [ (py "year", default (JStr []) (years !! 1%nat));
                             (py "text", JStr t1) ];
                      JObj [ (py "year", default (JStr []) (years !! 2%nat));
                             (py "text", JStr t2) ] ]).
Proof.
  intros Hlang. unfold LANGS in Hlang.
  repeat (apply elem_of_cons in Hlang as [->|Hlang]);
    [..|apply elem_of_nil in Hlang; destruct Hlang];
    (eexists _, _, _, _; split; vm_compute; reflexivity).
Qed.

Lemma history_years_lookup (en : dict) (hs years : list json) (i : nat) :
  dict_get (py "history") (JArr []) en = JArr hs ->
  history_years en = Some years ->
  default (JStr []) (years !! i) = year_at hs i.
Proof.
  intros Hh. unfold history_years. rewrite Hh.
  cbn [py_iter mbind option_bind]. intros H. apply mapM_Some in H.
  clear Hh. unfold year_at. revert i.
  induction H as [|h y hs years Hy _ IH]; intros i; [destruct i; reflexivity|].
  destruct i as [|i]; [|apply IH].
  cbn [lookup list_lookup default]. destruct h; try discriminate Hy.
  cbn in Hy. injection Hy as <-. reflexivity.
Qed.

(** The record after the Localizer, with the years it read. *)
Lemma localizer_blocks (data data' : dict) :
  generate_i18n_from_en data = Some data' ->
  exists (i18n en all' : dict) (name brand country size : pystr)
         (years : list json),
    alookup (py "i18n") data = Some (JObj i18n)
    /\ alookup (py "en") i18n = Some (JObj en)
    /\ history_years en = Some years
    /\ data' = dict_set (py "i18n") (JObj all') data
    /\ (forall lang, lang ∈ LANGS ->
          exists fields,
            localized_fields name brand country size years lang = Some fields
            /\ alookup lang all' = Some (JObj (dict_update en fields))).
Proof.
  intros H. apply generate_i18n_from_en_steps in H.
  destruct H as (i18n & en & blocks & name & brand & country & size & years
                 & Hi & He & _ & _ & _ & _ & Hy & Hm & ->).
  exists i18n, en, (dict_update i18n blocks), (py_strip name),
    (py_strip brand), (py_strip country), (py_strip size), years.
  repeat (split; [assumption || reflexivity|]).
  assert (Hkey : forall k kv,
            (block ← localized_block en (py_strip name) (py_strip brand)
                       (py_strip country) (py_strip size) years k;
             Some (k, JObj block)) = Some kv -> kv.1 = k).
  { intros k kv Hkv.
    destruct (localized_block en (py_strip name) (py_strip brand)
                (py_strip country) (py_strip size) years k);
      [|discriminate Hkv].
    cbn [mbind option_bind] in Hkv. injection Hkv as <-. reflexivity. }
  destruct (alookup_rev_keyed _ _ _ Hkey Hm LANGS_NoDup) as [Hin _].
  intros lang Hlang. destruct (Hin _ Hlang) as (v & Hv & Hl).
  unfold localized_block in Hv.
  destruct (localized_fields (py_strip name) (py_strip brand)
              (py_strip country) (py_strip size) years lang)
    as [fields|]; [|discriminate Hv].
  cbn [mbind option_bind] in Hv. injection Hv as <-.
  exists fields. split; [reflexivity|].
  apply alookup_dict_update_hit. exact Hl.
Qed.

(** X15: the history of every localized block has exactly three entries,
    whatever the length of the English history: entry [i] carries the year
    of the English entry [i], or the empty text when the English history is
    shorter, and English entries beyond the third leave no trace. *)
Theorem localizer_history_years (data data' en : dict) (hs : list json)
  (lang : pystr) :
  generate_i18n_from_en data = Some data' ->
  jpath (JObj data) [py "i18n"; py "en"] = Some (JObj en) ->
  dict_get (py "history") (JArr []) en = JArr hs ->
  lang ∈ LANGS ->
  exists t0 t1 t2 : pystr,
    jpath (JObj data') [py "i18n"; lang; py "history"]
    = Some (JArr [ JObj [ (py "year", year_at hs 0); (py "text", JStr t0) ];
                   JObj [ (py "year", year_at hs 1); (py "text", JStr t1) ];
                   JObj [ (py "year", year_at hs 2); (py "text", JStr t2) ] ]).
Proof.
  intros H Hen Hhs Hlang.
  destruct (localizer_blocks _ _ H)
    as (i18n & en1 & all' & name & brand & country & size & years
        & Hi & He & Hy & -> & Hblocks).
  destruct (jpath_2_inv _ _ _ _ Hen) as (i18n' & Hi' & He').
  rewrite Hi in Hi'. injection Hi' as <-.
  rewrite He in He'. injection He' as ->.
  destruct (Hblocks _ Hlang) as (fields & Hf & Hl).
  destruct (localized_history_spec name brand country size years
              lang Hlang) as (fields' & t0 & t1 & t2 & Hf' & Hhist).
  rewrite Hf in Hf'. injection Hf' as <-.
  exists t0, t1, t2.
  rewrite jpath_3. cbn [jget mbind option_bind].
  rewrite alookup_dict_set_eq. cbn [jget mbind option_bind].
  rewrite Hl. cbn [jget mbind option_bind].
  rewrite (alookup_dict_update_hit _ _ _ _ Hhist).
  rewrite !(history_years_lookup en hs years _ Hhs Hy). reflexivity.
Qed.

End localizer_more.

Section generator_more.

Import content_generators.

Lemma en_values_keys (title brand country : pystr) :
  exists fields,
    en_values title brand country = Some fields
    /\ dict_keys fields = generated_keys
    /\ alookup (py "title") (rev fields) = Some (JStr title).
Proof. eexists. split; [|split]; vm_compute; reflexivity. Qed.

(** X16: the Content Generator assigns six members of the English block
    (title, sections, description, ingredients, precautions, history) and
    keeps every other member as it was; the title is the stripped name, or
    the brand when that is empty; and a second call on its result changes
    nothing. *)
Theorem generate_en_content_keeps_the_rest (product en_block : dict)
  (name brand country : pystr) :
  dict_get (py "name") (JStr []) product = JStr name ->
  dict_get (py "brand") (JStr []) product = JStr brand ->
  dict_get (py "country_of_origin") (JStr []) product = JStr country ->
  exists en,
    generate_en_content product en_block = Some en
    /\ (forall k, k ∈ dict_keys en
                  <-> k ∈ dict_keys en_block \/ k ∈ generated_keys)
    /\ (forall k, k ∉ generated_keys -> alookup k en = alookup k en_block)
    /\ alookup (py "title") en
       = Some (JStr (match py_strip name with
                     | [] => brand
                     | _ => py_strip name
                     end))
    /\ generate_en_content product en = Some en.
Proof.
  intros Hn Hb Hc.
  destruct (en_values_keys (match py_strip name with
                            | [] => brand
                            | _ => py_strip name
                            end) brand country)
    as (F & HF & Hkeys & Htitle).
  assert (E : forall d, generate_en_content product d = Some (dict_update d F)).
  { intros d. unfold generate_en_content, en_fields.
    rewrite Hn, Hb, Hc. cbn [as_str mbind option_bind].
    rewrite py_or_str. cbn [as_str mbind option_bind]. rewrite HF.
    reflexivity. }
  exists (dict_update en_block F).
  split; [apply E|].
  split; [intros k; rewrite elem_of_dict_keys_update, Hkeys; reflexivity|].
  split.
  { intros k Hk. apply alookup_dict_update_miss. apply alookup_None.
    unfold dict_keys. rewrite map_rev. intros Hin.
    apply list_elem_of_In, in_rev, list_elem_of_In in Hin.
    change (map fst F) with (dict_keys F) in Hin. rewrite Hkeys in Hin.
    exact (Hk Hin). }
  split; [apply alookup_dict_update_hit; exact Htitle|].
  rewrite E, dict_update_idem; [reflexivity|].
  rewrite Hkeys. apply (bool_decide_eq_true_1 (NoDup generated_keys)).
  vm_compute. reflexivity.
Qed.

End generator_more.

Lemma generate_i18n_from_en_idem_witness :
  exists data',
    i18n_translator.generate_i18n_from_en fields_K100 = Some data'
    /\ i18n_translator.generate_i18n_from_en data' = Some data'.
Proof.
  destruct (i18n_translator.generate_i18n_from_en fields_K100)
    as [data'|] eqn:E.
  - exists data'. split; [reflexivity|].
    apply (generate_i18n_from_en_idem fields_K100 data' E).
  - vm_compute in E. discriminate E.
Defined.

Lemma localizer_history_years_witness :
  exists (data' : dict) (t0 t1 t2 : pystr),
    i18n_translator.generate_i18n_from_en fields_short_history = Some data'
    /\ jpath (JObj data') [py "i18n"; py "de"; py "history"]
       = Some (JArr [ JObj [ (py "year", JStr (py "1240"));
                             (py "text", JStr t0) ];
                      JObj [ (py "year", JStr []); (py "text", JStr t1) ];
                      JObj [ (py "year", JStr []); (py "text", JStr t2) ] ]).
Proof.
  destruct (i18n_translator.generate_i18n_from_en fields_short_history)
    as [data'|] eqn:E.
  2: { vm_compute in E. discriminate E. }
  destruct (localizer_history_years fields_short_history data'
              [ (py "title", JStr (py "Leffe Blonde"));
                (py "history",
                 JArr [ JObj [ (py "year", JStr (py "1240"));
                               (py "text", JStr (py "Abbey of Leffe.")) ] ]) ]
              [ JObj [ (py "year", JStr (py "1240"));
                       (py "text", JStr (py "Abbey of Leffe.")) ] ]
              (py "de") E)
    as (t0 & t1 & t2 & H).
  - vm_compute. reflexivity.
  - vm_compute. reflexivity.
  - apply (bool_decide_eq_true_1 (py "de" ∈ i18n_translator.LANGS)).
    vm_compute. reflexivity.
  - exists data', t0, t1, t2. split; [reflexivity|exact H].
Defined.

Lemma generate_en_content_keeps_the_rest_witness :
  exists en,
    content_generators.generate_en_content fields_K100
      [(py "meta", JObj [])] = Some en
    /\ alookup (py "meta") en = Some (JObj [])
    /\ content_generators.generate_en_content fields_K100 en = Some en.
Proof.
  destruct (generate_en_content_keeps_the_rest fields_K100
              [(py "meta", JObj [])] (py "Olives 500g") (py "KRINOS") [])
    as (en & H1 & _ & H3 & _ & H5).
  - vm_compute. reflexivity.
  - vm_compute. reflexivity.
  - vm_compute. reflexivity.
  - exists en. split; [exact H1|]. split; [|exact H5].
    rewrite H3; [vm_compute; reflexivity|].
    apply (bool_decide_eq_true_1 (py "meta" ∉ generated_keys)).
    vm_compute. reflexivity.
Defined.

(** ** Equality of values, and the merger, further *)

Lemma json_ind_nested (P : json -> Prop) :
  P JNull -> (forall b, P (JBool b)) -> (forall n, P (JNum n)) ->
  (forall s, P (JStr s)) ->
  (forall l, Forall P l -> P (JArr l)) ->
  (forall d, Forall (fun kv => P kv.2) d -> P (JObj d)) ->
  forall x, P x.
Proof.
  intros HN HB HZ HS HA HO.
  refine (fix IH (x : json) : P x :=
            match x with
            | JNull => HN
            | JBool b => HB b
            | JNum n => HZ n
            | JStr s => HS s
            | JArr l =>
              HA l ((fix go (l : list json) : Forall P l :=
                       match l with
                       | [] => Forall_nil _
                       | a :: l' => Forall_cons _ _ _ (IH a) (go l')
                       end) l)
            | JObj d =>
              HO d ((fix go (d : list (pystr * json))
                     : Forall (fun kv => P kv.2) d :=
                       match d with
                       | [] => Forall_nil _
                       | (k, v) :: d' => Forall_cons _ (k, v) _ (IH v) (go d')
                       end) d)
            end).
Qed.

Lemma alookup_NoDup (k : pystr) (v : json) (d : dict) :
  NoDup (map fst d) -> (k, v) ∈ d -> alookup k d = Some v.
Proof.
  induction d as [|[k0 v0] d IH]; intros Hnd Hin.
  - apply elem_of_nil in Hin. destruct Hin.
  - simpl in Hnd. pose proof (NoDup_cons_1_1 _ _ Hnd) as Hk0.
    apply NoDup_cons_1_2 in Hnd. simpl.
    apply elem_of_cons in Hin as [[= -> ->]|Hin].
    + rewrite str_eqb_refl. reflexivity.
    + rewrite str_eqb_ne; [exact (IH Hnd Hin)|].
      intros ->. apply Hk0. apply list_elem_of_fmap. exists (k0, v). auto.
Qed.

Lemma py_eq_refl (x : json) : regular x = true -> py_eq x x = true.
Proof.
  induction x as [| | | |l IH|d IH] using json_ind_nested; simpl; intros Hr.
  - reflexivity.
  - apply bool_decide_eq_true. reflexivity.
  - apply Z.eqb_refl.
  - apply str_eqb_refl.
  - induction IH as [|a l Ha _ IHl]; [reflexivity|].
    simpl in Hr. apply andb_true_iff in Hr. destruct Hr as [Hr1 Hr2].
    rewrite (Ha Hr1). exact (IHl Hr2).
  - apply andb_true_iff in Hr. destruct Hr as [Hnd Hall].
    apply bool_decide_eq_true in Hnd. rewrite Nat.eqb_refl. simpl.
    assert (Hsub : forall d', (forall kv, kv ∈ d' -> kv ∈ d) ->
              Forall (fun kv => regular kv.2 = true -> py_eq kv.2 kv.2 = true) d' ->
              forallb (fun kv => regular kv.2) d' = true ->
              (fix all (d0 : dict) : bool :=
                 match d0 with
                 | [] => true
                 | (k, v) :: d'0 =>
                   match alookup k d with
                   | Some w => py_eq v w
                   | None => false
                   end && all d'0
                 end) d' = true).
    { intros d' Hin Hd'. induction Hd' as [|[k v] d' Hkv _ IHd'];
        intros Hreg; [reflexivity|].
      simpl in Hreg. apply andb_true_iff in Hreg. destruct Hreg as [R1 R2].
      rewrite (alookup_NoDup k v d Hnd) by (apply Hin; left).
      simpl in Hkv. rewrite (Hkv R1). simpl. apply IHd'; [|exact R2].
      intros kv Hkv'. apply Hin. right. exact Hkv'. }
    apply Hsub; auto.
Qed.

Lemma regular_member (d : dict) (k : pystr) (v : json) :
  regular (JObj d) = true -> alookup k d = Some v -> regular v = true.
Proof.
  simpl. intros H Hk. apply andb_true_iff in H. destruct H as [_ H].
  induction d as [|[k0 v0] d IH]; [discriminate Hk|].
  simpl in H, Hk. apply andb_true_iff in H. destruct H as [H0 H].
  destruct (str_eqb k k0); [congruence|auto].
Qed.

Section merge_more.

Import merge_enriched_into_content.

(** A turn of the loop keeps an English block that is an object an object,
    and a turn that stores or compares a value needs one. *)
Lemma merge_field_obj (en_new o o' : json) (c c' : bool) (f : pystr) :
  merge_field en_new (o, c) f = Some (o', c') ->
  ((exists d, o = JObj d) -> exists d', o' = JObj d')
  /\ (forall v, jget en_new f = Some v -> truthy v = true ->
        exists d', o' = JObj d').
Proof.
  unfold merge_field, py_in, py_index, py_get. intros H.
  destruct en_new as [| | |s|l|d]; simpl in H; try discriminate H.
  - destruct (contains f s); simpl in H; [discriminate H|].
    injection H as <- <-. split; [auto|]. intros v Hv. discriminate Hv.
  - destruct (existsb _ l); simpl in H; [discriminate H|].
    injection H as <- <-. split; [auto|]. intros v Hv. discriminate Hv.
  - unfold dict_has in H. simpl.
    destruct (alookup f d) as [v|] eqn:Ev; simpl in H.
    + destruct (truthy v) eqn:Tv; simpl in H.
      * destruct o as [| | | | |od]; simpl in H; try discriminate H.
        destruct (py_eq _ v); injection H as <- <-; split; eauto.
      * injection H as <- <-. split; [auto|].
        intros v' [= <-] Hv'. congruence.
    + injection H as <- <-. split; [auto|]. intros v' Hv'. discriminate Hv'.
Qed.

Lemma merge_fields_obj (en_new : json) (fs : list pystr) :
  forall (o o' : json) (c c' : bool),
    merge_fields en_new (o, c) fs = Some (o', c') ->
    ((exists d, o = JObj d) -> exists d', o' = JObj d')
    /\ (forall f v, f ∈ fs -> jget en_new f = Some v -> truthy v = true ->
          exists d', o' = JObj d').
Proof.
  induction fs as [|f0 fs IH]; intros o o' c c' H; simpl in H.
  - injection H as <- <-. split; [auto|].
    intros f v Hf. apply elem_of_nil in Hf. destruct Hf.
  - destruct (merge_field en_new (o, c) f0) as [[o1 c1]|] eqn:E;
      simpl in H; [|discriminate H].
    destruct (merge_field_obj _ _ _ _ _ _ E) as [E1 E2].
    destruct (IH _ _ _ _ H) as [I1 I2]. split; [auto|].
    intros f v Hf Hv Tv. apply elem_of_cons in Hf as [->|Hf].
    + apply I1. exact (E2 v Hv Tv).
    + exact (I2 f v Hf Hv Tv).
Qed.

(** A turn of the loop on a block that holds the merged value already. *)
Lemma merge_field_settled (en_new o' : json) (f : pystr) :
  is_Some (py_in f en_new) ->
  (forall v, jget en_new f = Some v -> truthy v = true ->
     exists d', o' = JObj d'
                /\ py_eq (dict_get f JNull d') v = true) ->
  (forall s, en_new = JStr s -> contains f s = false) ->
  (forall l, en_new = JArr l -> existsb (py_eq (JStr f)) l = false) ->
  merge_field en_new (o', false) f = Some (o', false).
Proof.
  unfold merge_field, py_in, py_index, py_get. intros [b Hb] Hv Hs Hl.
  destruct en_new as [| | |s|l|d]; try discriminate Hb;
    cbn [mbind option_bind as_dict fst].
  - rewrite (Hs s eq_refl). reflexivity.
  - rewrite (Hl l eq_refl). reflexivity.
  - unfold dict_has. destruct (alookup f d) as [v|] eqn:Ev;
      cbn [mbind option_bind]; [|reflexivity].
    destruct (truthy v) eqn:Tv; [|reflexivity].
    destruct (Hv v) as (d' & -> & Heq); [simpl; exact Ev|exact Tv|].
    cbn [mbind option_bind as_dict]. rewrite Heq. reflexivity.
Qed.

Lemma merge_fields_settled (en_new st : json * bool) :
  forall fs,
    (forall f, f ∈ fs -> merge_field en_new.1 st f = Some st) ->
    merge_fields en_new.1 st fs = Some st.
Proof.
  induction fs as [|f fs IH]; intros H; simpl; [reflexivity|].
  rewrite (H f) by left. simpl. apply IH. intros g Hg. apply H. right.
  exact Hg.
Qed.

Lemma merge_field_in (en_new o o' : json) (c c' : bool) (f : pystr) :
  merge_field en_new (o, c) f = Some (o', c') ->
  is_Some (py_in f en_new)
  /\ (forall s, en_new = JStr s -> contains f s = false)
  /\ (forall l, en_new = JArr l -> existsb (py_eq (JStr f)) l = false).
Proof.
  unfold merge_field, py_in, py_index. intros H.
  destruct en_new as [| | |s|l|d]; simpl in H; try discriminate H.
  - destruct (contains f s) eqn:E; simpl in H; [discriminate H|].
    split; [eexists; reflexivity|]. split; [|discriminate].
    intros s' [= <-]. exact E.
  - destruct (existsb _ l) eqn:E; simpl in H; [discriminate H|].
    split; [eexists; reflexivity|]. split; [discriminate|].
    intros l' [= <-]. exact E.
  - split; [eexists; reflexivity|]. split; discriminate.
Qed.

Lemma merge_fields_in (en_new : json) (fs : list pystr) :
  forall (o o' : json) (c c' : bool),
    merge_fields en_new (o, c) fs = Some (o', c') ->
    forall f, f ∈ fs ->
      is_Some (py_in f en_new)
      /\ (forall s, en_new = JStr s -> contains f s = false)
      /\ (forall l, en_new = JArr l -> existsb (py_eq (JStr f)) l = false).
Proof.
  induction fs as [|f0 fs IH]; intros o o' c c' H f Hf; simpl in H.
  - apply elem_of_nil in Hf. destruct Hf.
  - destruct (merge_field en_new (o, c) f0) as [[o1 c1]|] eqn:E;
      simpl in H; [|discriminate H].
    apply elem_of_cons in Hf as [->|Hf].
    + exact (merge_field_in _ _ _ _ _ _ E).
    + exact (IH _ _ _ _ H f Hf).
Qed.

(** A second pass over the fields finds every field merged already. *)
Lemma merge_fields_again (en_new o o' : json) (c c' : bool)
  (fs : list pystr) :
  NoDup fs ->
  (forall f v, jget en_new f = Some v -> py_eq v v = true) ->
  merge_fields en_new (o, c) fs = Some (o', c') ->
  merge_fields en_new (o', false) fs = Some (o', false).
Proof.
  intros Hnd Hrefl H.
  pose proof (merge_fields_spec _ _ _ _ _ _ Hnd H) as [Hval _].
  pose proof (merge_fields_obj _ _ _ _ _ _ H) as [_ Hobj].
  pose proof (merge_fields_in _ _ _ _ _ _ H) as Hin.
  apply (merge_fields_settled (en_new, false) (o', false)).
  cbn [fst]. intros f Hf. destruct (Hin f Hf) as (Hp & Hs & Hl).
  apply merge_field_settled; try assumption.
  intros v Hv Tv. destruct (Hobj f v Hf Hv Tv) as [d' ->].
  exists d'. split; [reflexivity|].
  specialize (Hval f). rewrite bool_decide_eq_true_2 in Hval by exact Hf.
  rewrite Hv in Hval. unfold merged_value in Hval. rewrite Tv in Hval.
  simpl in Hval. unfold dict_get.
  destruct (py_eq (default JNull (jget o f)) v) eqn:Eq; simpl in Hval.
  - rewrite Hval. exact Eq.
  - rewrite Hval. exact (Hrefl f v Hv).
Qed.

(** X17: the merger is idempotent.  A second run over the file it wrote,
    with the same enriched store, finds every field merged already and
    leaves the file as it is (the enriched entry being a value as
    [json.load] builds it). *)
Theorem merge_file_idem (enriched : dict) (sku : pystr)
  (product merged : json) :
  (forall entry, alookup sku enriched = Some entry -> regular entry = true) ->
  merge_file enriched sku product = Some merged ->
  merge_file enriched sku merged = Some merged.
Proof.
  intros Hreg H. unfold merge_file in *.
  destruct (alookup sku enriched) as [entry|] eqn:He; [|congruence].
  specialize (Hreg entry eq_refl).
  destruct (merge_record product entry) as [[m ch]|] eqn:Em;
    cbn [mbind option_bind] in H; [|discriminate H].
  destruct ch; injection H as <-; [|rewrite Em; reflexivity].
  unfold merge_record in *.
  pose proof FIELDS_TO_MERGE_NoDup as Hnd.
  revert Em Hnd. generalize FIELDS_TO_MERGE. intros fields Em Hnd.
  destruct product as [| | | | |p]; try discriminate Em.
  cbn [as_dict mbind option_bind] in Em.
  destruct (dict_get (py "i18n") (JObj []) p) as [| | | | |i] eqn:Ei;
    try discriminate Em.
  cbn [as_dict mbind option_bind] in Em.
  destruct (py_get entry (py "i18n") (JObj [])) as [e18n|] eqn:E1;
    [|discriminate Em].
  cbn [mbind option_bind] in Em.
  destruct (py_get e18n (py "en") (JObj [])) as [en_new|] eqn:E2;
    [|discriminate Em].
  cbn [mbind option_bind] in Em.
  destruct (merge_fields en_new (dict_get (py "en") (JObj []) i, false) fields)
    as [[o' c']|] eqn:Efs; [|discriminate Em].
  cbn [mbind option_bind fst snd] in Em. injection Em as <- ->.
  cbn [as_dict mbind option_bind].
  rewrite dict_get_set_eq. cbn [as_dict mbind option_bind]. rewrite E2.
  cbn [mbind option_bind].
  rewrite dict_get_set_eq.
  rewrite (fun Hr => merge_fields_again _ _ _ _ _ _ Hnd Hr Efs);
    [reflexivity|].
  intros f v Hv. apply py_eq_refl.
  assert (R1 : regular e18n = true).
  { unfold py_get in E1. destruct entry as [| | | | |e]; try discriminate E1.
    cbn [as_dict mbind option_bind] in E1. injection E1 as <-.
    unfold dict_get. destruct (alookup (py "i18n") e) as [x|] eqn:Ex;
      [exact (regular_member _ _ _ Hreg Ex)|reflexivity]. }
  assert (R2 : regular en_new = true).
  { unfold py_get in E2. destruct e18n as [| | | | |e]; try discriminate E2.
    cbn [as_dict mbind option_bind] in E2. injection E2 as <-.
    unfold dict_get. destruct (alookup (py "en") e) as [x|] eqn:Ex;
      [exact (regular_member _ _ _ R1 Ex)|reflexivity]. }
  destruct en_new as [| | | | |en]; try discriminate Hv.
  exact (regular_member _ _ _ R2 Hv).
Qed.

(** X18: the merger touches nothing but the five fields of the English
    block: the other members of that block, the blocks of the other
    languages and the other top-level fields of the record are as before. *)
Theorem merge_file_frame (enriched : dict) (sku : pystr)
  (product merged : json) :
  merge_file enriched sku product = Some merged ->
  (forall k, k ∉ FIELDS_TO_MERGE ->
     jpath merged [py "i18n"; py "en"; k]
     = jpath product [py "i18n"; py "en"; k])
  /\ (forall l, l <> py "en" ->
        jpath merged [py "i18n"; l] = jpath product [py "i18n"; l])
  /\ (forall k, k <> py "i18n" -> jget merged k = jget product k).
Proof.
  intros H. unfold merge_file in H.
  destruct (alookup sku enriched) as [entry|] eqn:He;
    [|injection H as <-; auto].
  destruct (merge_record product entry) as [[m ch]|] eqn:Em;
    cbn [mbind option_bind] in H; [|discriminate H].
  destruct ch; injection H as <-; [|auto].
  unfold merge_record in Em.
  pose proof FIELDS_TO_MERGE_NoDup as Hnd.
  revert Em Hnd. generalize FIELDS_TO_MERGE. intros fields Em Hnd.
  destruct product as [| | | | |p]; try discriminate Em.
  cbn [as_dict mbind option_bind] in Em.
  destruct (dict_get (py "i18n") (JObj []) p) as [| | | | |i] eqn:Ei;
    try discriminate Em.
  cbn [as_dict mbind option_bind] in Em.
  destruct (py_get entry (py "i18n") (JObj [])) as [e18n|] eqn:E1;
    [|discriminate Em].
  cbn [mbind option_bind] in Em.
  destruct (py_get e18n (py "en") (JObj [])) as [en_new|] eqn:E2;
    [|discriminate Em].
  cbn [mbind option_bind] in Em.
  destruct (merge_fields en_new (dict_get (py "en") (JObj []) i, false) fields)
    as [[o' c']|] eqn:Efs; [|discriminate Em].
  cbn [mbind option_bind fst snd] in Em. injection Em as <- _.
  destruct (merge_fields_spec _ _ _ _ _ _ Hnd Efs) as [Hval _].
  assert (Hp : forall l, jpath (JObj p) [py "i18n"; l] = alookup l i).
  { intros l. rewrite jpath_2. cbn [jget mbind option_bind].
    unfold dict_get in Ei. destruct (alookup (py "i18n") p) as [x|].
    - subst x. reflexivity.
    - injection Ei as <-. reflexivity. }
  split; [|split].
  - intros k Hk. rewrite !jpath_3. cbn [jget mbind option_bind].
    rewrite alookup_dict_set_eq. cbn [jget mbind option_bind].
    rewrite alookup_dict_set_eq. cbn [mbind option_bind].
    rewrite Hval, (bool_decide_eq_false_2 _ Hk).
    specialize (Hp (py "en")). rewrite jpath_2 in Hp.
    cbn [jget mbind option_bind] in Hp.
    destruct (alookup (py "i18n") p) as [x|]; cbn [mbind option_bind] in *.
    + rewrite Hp. unfold dict_get. destruct (alookup (py "en") i); reflexivity.
    + unfold dict_get. rewrite <- Hp. reflexivity.
  - intros l Hl. rewrite Hp, jpath_2. cbn [jget mbind option_bind].
    rewrite alookup_dict_set_eq. cbn [jget mbind option_bind].
    apply alookup_dict_set_ne. exact Hl.
  - intros k Hk. cbn [jget]. apply alookup_dict_set_ne. exact Hk.
Qed.

End merge_more.

Lemma merge_file_idem_witness :
  exists merged,
    merge_enriched_into_content.merge_file enriched_K100 (py "K100")
      record_K100 = Some merged
    /\ merge_enriched_into_content.merge_file enriched_K100 (py "K100") merged
       = Some merged.
Proof.
  destruct (merge_enriched_into_content.merge_file enriched_K100 (py "K100")
              record_K100) as [merged|] eqn:E.
  - exists merged. split; [reflexivity|].
    apply (merge_file_idem enriched_K100 (py "K100") record_K100 merged);
      [|exact E].
    intros entry He. vm_compute in He. injection He as <-.
    vm_compute. reflexivity.
  - vm_compute in E. discriminate E.
Defined.

Lemma merge_file_frame_witness :
  exists merged,
    merge_enriched_into_content.merge_file enriched_K100 (py "K100")
      record_K100 = Some merged
    /\ jpath merged [py "i18n"; py "en"; py "title"]
       = jpath record_K100 [py "i18n"; py "en"; py "title"].
Proof.
  destruct (merge_enriched_into_content.merge_file enriched_K100 (py "K100")
              record_K100) as [merged|] eqn:E.
  - exists merged. split; [reflexivity|].
    apply (merge_file_frame enriched_K100 (py "K100") record_K100 merged E).
    apply (bool_decide_eq_true_1
             (py "title" ∉ merge_enriched_into_content.FIELDS_TO_MERGE)).
    vm_compute. reflexivity.
  - vm_compute in E. discriminate E.
Defined.

(** ** Post-QC, further *)

Lemma contains_sub (a b s : pystr) :
  contains (a ++ b) s = true -> contains b s = true.
Proof.
  intros H. apply contains_inv in H. destruct H as (x & y & ->).
  rewrite <- app_assoc, app_assoc. apply contains_app.
Qed.

Section post_qc_more.

Import post_qc.

Context (U : unicode) (netloc : pystr -> option pystr).

(** The entries that the loop over the sources keeps: some of the entries,
    in their order, each with an address that is relevant for the brand. *)
Lemma clean_sources_kept (brand : json) (items clean : list json) :
  clean_sources U netloc brand items = Some clean ->
  sublist clean items
  /\ Forall (fun s => exists url,
               py_get s (py "url") (JStr []) = Some url
               /\ is_relevant_source U netloc url brand = Some true) clean
  /\ (length clean = length items -> clean = items).
Proof.
  revert clean. induction items as [|s items IH]; intros clean H.
  - injection H as <-. split; [constructor|]. split; [constructor|auto].
  - cbn [clean_sources] in H.
    destruct (py_get s (py "url") (JStr [])) as [url|] eqn:Eu;
      [|discriminate H].
    cbn [mbind option_bind] in H.
    destruct (is_relevant_source U netloc url brand) as [keep|] eqn:Ek;
      [|discriminate H].
    cbn [mbind option_bind] in H.
    destruct (clean_sources U netloc brand items) as [clean'|];
      [|discriminate H].
    cbn [mbind option_bind] in H. injection H as <-.
    destruct (IH clean' eq_refl) as (I1 & I2 & I3).
    destruct keep.
    + split; [constructor; exact I1|].
      split; [constructor; [exists url; auto|exact I2]|].
      intros Hlen. simpl in Hlen. f_equal. apply I3. lia.
    + split; [constructor; exact I1|]. split; [exact I2|].
      intros Hlen. apply sublist_length in I1. simpl in Hlen. lia.
Qed.

(** SOURCES CLEAN on a block whose sources are a list that is not empty. *)
Lemma sources_clean_list (brand : json) (en en1 : dict) (c : bool)
  (items : list json) :
  sources_clean U netloc brand en = Some (en1, c) ->
  dict_get (py "sources") (JArr []) en = JArr items -> items <> [] ->
  exists clean,
    clean_sources U netloc brand items = Some clean
    /\ en1 = dict_set (py "sources")
               (JArr match clean with
                     | [] => [placeholder_source]
                     | _ => clean
                     end) en
    /\ c = negb (length clean =? length items)%nat.
Proof.
  unfold sources_clean. intros H Hs Hne. rewrite Hs in H.
  destruct items as [|s items]; [congruence|].
  cbn [truthy py_iter mbind option_bind] in H.
  destruct (clean_sources U netloc brand (s :: items)) as [clean|];
    [|discriminate H].
  cbn [mbind option_bind] in H. injection H as <- <-.
  exists clean. auto.
Qed.

(** X19: Post-QC never leaves a list of sources empty.  A record whose
    English block has sources keeps, in their order, exactly entries whose
    address is relevant for the brand, or gets the one placeholder entry when
    no entry is kept. *)
Theorem post_qc_sources (d en : dict) (items : list json) (data' : json)
  (changed : bool) :
  post_qc_record U netloc (JObj d) = Some (data', changed) ->
  jpath (JObj d) [py "i18n"; py "en"] = Some (JObj en) ->
  dict_get (py "sources") (JArr []) en = JArr items -> items <> [] ->
  exists kept,
    jpath data' [py "i18n"; py "en"; py "sources"] = Some (JArr kept)
    /\ kept <> []
    /\ (kept = [placeholder_source]
        \/ (sublist kept items
            /\ Forall (fun s => exists url,
                         py_get s (py "url") (JStr []) = Some url
                         /\ is_relevant_source U netloc url
                              (dict_get (py "brand") (JStr []) d)
                            = Some true) kept)).
Proof.
  intros H Hen Hs Hne.
  destruct (post_qc_record_inv U netloc _ _ H)
    as (i & en0 & en1 & en2 & c1 & c2 & Hi & He & S1 & S2 & [= -> ->]).
  destruct (jpath_2_inv _ _ _ _ Hen) as (i' & Hi' & He').
  unfold dict_get in Hi. rewrite Hi' in Hi. injection Hi as ->.
  unfold dict_get in He. rewrite He' in He. injection He as <-.
  destruct (sources_clean_list _ _ _ _ _ S1 Hs Hne) as (clean & Hc & -> & _).
  destruct (clean_sources_kept _ _ _ Hc) as (K1 & K2 & _).
  assert (Hput : put_en d en2
                 = dict_set (py "i18n")
                     (JObj (dict_set (py "en") (JObj en2) i)) d).
  { unfold put_en. rewrite Hi'. unfold dict_has. rewrite He'. reflexivity. }
  assert (Hsrc : alookup (py "sources") en2
                 = Some (JArr match clean with
                              | [] => [placeholder_source]
                              | _ => clean
                              end)).
  { apply water_fix_spec in S2. destruct S2 as [->|(new & -> & _)].
    - apply alookup_dict_set_eq.
    - rewrite alookup_dict_set_ne by key_ne. apply alookup_dict_set_eq. }
  eexists. split.
  { rewrite Hput, jpath_3. cbn [jget mbind option_bind].
    rewrite alookup_dict_set_eq. cbn [jget mbind option_bind].
    rewrite alookup_dict_set_eq. cbn [jget mbind option_bind]. exact Hsrc. }
  destruct clean as [|s clean].
  - split; [discriminate|]. left. reflexivity.
  - split; [discriminate|]. right. auto.
Qed.

(** X20: when Post-QC does not set its flag [changed], the record in
    memory is the record it read: skipping the write loses no correction. *)
Theorem post_qc_flag_sound (data data' : json) :
  post_qc_record U netloc data = Some (data', false) -> data' = data.
Proof.
  intros H. destruct data as [| | | | |d]; try discriminate H.
  destruct (post_qc_record_inv U netloc _ _ H)
    as (i & en & en1 & en2 & c1 & c2 & Hi & He & S1 & S2 & [= -> Hc]).
  symmetry in Hc. apply orb_false_iff in Hc. destruct Hc as [-> ->].
  assert (E2 : en2 = en1).
  { unfold water_fix in S2. destruct (py_eq _ _); [|congruence].
    destruct (fix_water_description U _ _) as [new|];
      [|discriminate S2].
    cbn [mbind option_bind] in S2. destruct (negb _); congruence. }
  subst en2.
  assert (E1 : en1 = en).
  { pose proof S1 as S1'. unfold sources_clean in S1'.
    destruct (truthy (dict_get (py "sources") (JArr []) en)) eqn:T;
      [|congruence].
    destruct (dict_get (py "sources") (JArr []) en)
      as [| | |s|items|o] eqn:Es; try discriminate S1'.
    - destruct s as [|ch s]; [discriminate T|discriminate S1'].
    - destruct items as [|s items]; [discriminate T|].
      destruct (sources_clean_list _ _ _ _ _ S1 Es) as (clean & Hc & -> & Hf);
        [discriminate|].
      destruct (clean_sources_kept _ _ _ Hc) as (_ & _ & K3).
      symmetry in Hf. apply negb_false_iff, Nat.eqb_eq in Hf.
      rewrite (K3 Hf). apply dict_set_id.
      unfold dict_get in Es. destruct (alookup (py "sources") en) as [x|];
        [congruence|discriminate Es].
    - destruct o as [|[k v] o]; [discriminate T|discriminate S1']. }
  subst en1. f_equal.
  destruct (put_en_cases d en) as [Hsame|(i' & Hi' & Hhas & ->)];
    [exact Hsame|].
  unfold dict_get in Hi. rewrite Hi' in Hi. injection Hi as ->.
  unfold dict_has in Hhas. unfold dict_get in He.
  destruct (alookup (py "en") i) as [x|] eqn:Ex; [|discriminate Hhas].
  subst x. rewrite (dict_set_id _ _ _ Ex). apply dict_set_id. exact Hi'.
Qed.

End post_qc_more.

Section water_more.

Context (U : unicode) (HU : unicode_ok U).

Lemma capitals_CARBONATED :
  Forall (fun c => c < 128 /\ ascii_upper c = c) (py "CARBONATED").
Proof. vm_compute. repeat constructor. Qed.

(** X21: a title marked NON-CARBONATED is corrected as a sparkling
    water.  CARBONATED is part of NON-CARBONATED, so both tests of
    [fix_water_description] fire, and a description with the word still
    ends up with sparkling in its place. *)
Theorem non_carbonated_becomes_sparkling (desc title : pystr) :
  contains (py "NON-CARBONATED") title = true ->
  re_search_word U (py "still") None desc = true ->
  exists out,
    post_qc.fix_water_description U (JStr desc) (JStr title)
    = Some (JStr out)
    /\ contains (py "sparkling") out = true
    /\ re_search_word U (py "still") None out = false.
Proof using HU.
  intros Ht Hs.
  assert (Hor : as_str (py_or (JStr title) (JStr [])) = Some title).
  { destruct title; [vm_compute in Ht; discriminate Ht|reflexivity]. }
  eexists. split; [apply fix_water_description_str; exact Hor|].
  apply (fix_text_sparkling U HU); [|exact Hs].
  unfold post_qc.sparkling_marked. cbn [existsb].
  assert (Hc : contains (py "CARBONATED") title = true).
  { apply (contains_sub (py "NON-")). exact Ht. }
  rewrite (py_upper_contains U HU _ _ capitals_CARBONATED Hc).
  apply orb_true_r.
Qed.

End water_more.

Lemma post_qc_sources_witness :
  exists (data' : json) (changed : bool) (kept : list json),
    post_qc.post_qc_record ascii_tables netloc_K100 (JObj fields_water)
    = Some (data', changed)
    /\ jpath data' [py "i18n"; py "en"; py "sources"] = Some (JArr kept)
    /\ kept <> [].
Proof.
  destruct (post_qc.post_qc_record ascii_tables netloc_K100
              (JObj fields_water)) as [[data' c]|] eqn:E.
  2: { vm_compute in E. discriminate E. }
  edestruct (post_qc_sources ascii_tables netloc_K100 fields_water)
    as (kept & Hk & Hne & _).
  - exact E.
  - vm_compute. reflexivity.
  - vm_compute. reflexivity.
  - discriminate.
  - exists data', c, kept. auto.
Defined.

(** The sources are cleaned and every one is kept, the description needs no
    correction: the flag stays unset. *)
Lemma post_qc_flag_sound_witness :
  exists (data' : json) (kept : list json),
    post_qc.post_qc_record ascii_tables netloc_kept (JObj fields_sources_kept)
    = Some (data', false)
    /\ post_qc.clean_sources ascii_tables netloc_kept (JStr (py "Borjomi"))
         [ JObj [ (py "name", JStr (py "Borjomi"));
                  (py "url", JStr (py "https://www.borjomi.com/water")) ] ]
       = Some kept
    /\ length kept = 1%nat
    /\ data' = JObj fields_sources_kept.
Proof.
  destruct (post_qc.post_qc_record ascii_tables netloc_kept
              (JObj fields_sources_kept)) as [[data' [|]]|] eqn:E.
  - vm_compute in E. discriminate E.
  - eexists data', _. split; [reflexivity|].
    split; [vm_compute; reflexivity|]. split; [reflexivity|].
    apply (post_qc_flag_sound ascii_tables netloc_kept
             (JObj fields_sources_kept) data' E).
  - vm_compute in E. discriminate E.
Defined.

Lemma non_carbonated_becomes_sparkling_witness :
  exists out,
    post_qc.fix_water_description ascii_tables
      (JStr (py "A still mineral water."))
      (JStr (py "AQUA NON-CARBONATED 1L"))
    = Some (JStr out)
    /\ contains (py "sparkling") out = true.
Proof.
  destruct (non_carbonated_becomes_sparkling ascii_tables ascii_tables_ok
              (py "A still mineral water.") (py "AQUA NON-CARBONATED 1L"))
    as (out & H1 & H2 & _).
  - vm_compute. reflexivity.
  - vm_compute. reflexivity.
  - exists out. auto.
Defined.

(** ** The Premium Pass, further *)

Lemma solid_inv (s : pystr) :
  solid s = true ->
  exists c r, s = c :: r /\ is_space c = false
              /\ forall x d, s = x ++ [d] -> is_space d = false.
Proof.
  unfold solid. intros H. apply andb_true_iff in H. destruct H as [H1 H2].
  destruct s as [|c r]; [discriminate H1|].
  exists c, r. split; [reflexivity|]. split; [apply negb_true_iff; exact H1|].
  intros x d E. rewrite E, rev_app_distr in H2. apply negb_true_iff. exact H2.
Qed.

Lemma solid_intro (c : N) (r : pystr) :
  is_space c = false ->
  (forall x d, c :: r = x ++ [d] -> is_space d = false) ->
  solid (c :: r) = true.
Proof.
  intros Hc Hl. unfold solid. rewrite Hc. cbn [negb andb].
  destruct (rev (c :: r)) as [|d x] eqn:E.
  - apply (f_equal (@rev N)) in E. rewrite rev_involutive in E. discriminate E.
  - apply negb_true_iff. apply (Hl (rev x) d).
    apply (f_equal (@rev N)) in E. rewrite rev_involutive in E. exact E.
Qed.

Lemma py_strip_solid (s : pystr) : solid s = true -> py_strip s = s.
Proof.
  intros H. destruct (solid_inv s H) as (c & r & -> & Hc & Hl).
  unfold py_strip. rewrite lstrip_id by exact Hc. apply rstrip_id. exact Hl.
Qed.

Lemma solid_app (s x e : pystr) :
  solid s = true -> solid e = true -> solid (s ++ x ++ e) = true.
Proof.
  intros Hs He. destruct (solid_inv s Hs) as (c & r & -> & Hc & _).
  destruct (solid_inv e He) as (a & e' & -> & _ & Hl).
  cbn [app]. apply solid_intro; [exact Hc|].
  intros y d E. destruct (rev (a :: e')) as [|z w] eqn:Er.
  - apply (f_equal (@rev N)) in Er. rewrite rev_involutive in Er.
    discriminate Er.
  - apply (f_equal (@rev N)) in Er. rewrite rev_involutive in Er.
    simpl in Er. rewrite Er in E, Hl.
    rewrite app_comm_cons, !app_assoc in E.
    apply app_inj_tail in E. destruct E as [_ <-].
    apply (Hl (rev w) z). reflexivity.
Qed.

Lemma py_strip_space_solid (e : pystr) :
  solid e = true -> py_strip (py " " ++ e) = e.
Proof.
  intros H. unfold py_strip. change (py " " ++ e) with (32 :: e).
  cbn [lstrip]. change (is_space 32) with true. cbn iota.
  apply (py_strip_solid e H).
Qed.

(** Padding with [e] a text stripped first: once, twice and three times. *)
Lemma pad_lengths (e d : pystr) :
  solid e = true ->
  let T := fun d => py_strip d ++ py " " ++ e in
  (length e < length (T d))%nat
  /\ (2 * length e < length (T (T d)))%nat
  /\ (3 * length e < length (T (T (T d))))%nat.
Proof.
  intros He T.
  assert (HT : forall d, length (T d) = (length (py_strip d) + 1 + length e)%nat).
  { intros d0. unfold T. rewrite !length_app. change (length (py " ")) with 1%nat.
    lia. }
  assert (H1 : solid (py_strip (T d)) = true
               /\ (length e <= length (py_strip (T d)))%nat).
  { unfold T. destruct (py_strip_ends d) as [->|(c & r & E & Hc & Hl)].
    - cbn [app]. rewrite (py_strip_space_solid e He). split; [exact He|lia].
    - assert (Hs : solid (py_strip d ++ py " " ++ e) = true).
      { apply solid_app; [|exact He]. rewrite E. apply solid_intro; [exact Hc|].
        rewrite <- E. exact Hl. }
      rewrite (py_strip_solid _ Hs). split; [exact Hs|].
      rewrite !length_app. lia. }
  destruct H1 as [S1 L1].
  assert (S2 : solid (T (T d)) = true)
    by (unfold T at 1; apply solid_app; assumption).
  split; [rewrite HT; lia|].
  split; [rewrite HT; lia|].
  rewrite HT, (py_strip_solid _ S2), HT. lia.
Qed.

Section premium_more.

Import premium_pass.

Context (U : unicode).

Lemma extra_solid (k : pystr) :
  let e := default
             (py "Valued for its consistent quality and suitability for everyday use.")
             (alookup k additions) in
  solid e = true /\ (67 <= length e)%nat.
Proof.
  unfold additions. cbn [alookup].
  repeat match goal with
         | |- context [str_eqb k ?s] => destruct (str_eqb k s)
         end;
    cbn [default]; split; vm_compute; try reflexivity; lia.
Qed.

(** Three runs of [enhance_description] leave a text that a further run
    does not pad. *)
Lemma enhance_description_thrice (category v0 v1 v2 v3 : json) :
  enhance_description U v0 category = Some v1 ->
  enhance_description U v1 category = Some v2 ->
  enhance_description U v2 category = Some v3 ->
  dense 180 v3.
Proof.
  assert (Hstep : forall v w, enhance_description U v category = Some w ->
            (w = v /\ dense 180 v)
            \/ (exists c d, category = JStr c /\ v = JStr d
                  /\ w = JStr (py_strip d ++ py " "
                               ++ default
                                    (py "Valued for its consistent quality and suitability for everyday use.")
                                    (alookup (py_upper U c) additions)))).
  { intros v w H. unfold enhance_description in H.
    destruct (truthy v) eqn:T; cbn [negb] in H.
    2: { injection H as <-. left. split; [reflexivity|left; exact T]. }
    destruct (py_len v) as [n|] eqn:En; [|discriminate H].
    cbn [mbind option_bind] in H.
    destruct (180 <? n)%nat eqn:E180.
    { injection H as <-. left. split; [reflexivity|].
      right. exists n. split; [exact En|]. apply Nat.ltb_lt. exact E180. }
    destruct category as [| | |c| |]; try discriminate H.
    cbn [as_str mbind option_bind] in H.
    destruct v as [| | |d| |]; try discriminate H.
    cbn [as_str mbind option_bind] in H. injection H as <-.
    right. exists c, d. auto. }
  assert (Hkeep : forall v w, dense 180 v ->
            enhance_description U v category = Some w -> w = v).
  { intros v w Hd H. rewrite (enhance_description_dense U _ _ Hd) in H.
    congruence. }
  assert (Hlong : forall s, (180 < length s)%nat -> dense 180 (JStr s)).
  { intros s Hs. right. exists (length s). auto. }
  intros H0 H1 H2.
  destruct (Hstep _ _ H0) as [[-> D0]|(c & d0 & -> & -> & ->)].
  { rewrite (Hkeep _ _ D0 H1) in H2. rewrite (Hkeep _ _ D0 H2). exact D0. }
  set (e := default _ (alookup (py_upper U c) additions)) in *.
  destruct (extra_solid (py_upper U c)) as [He Hlen]. fold e in He, Hlen.
  destruct (pad_lengths e d0 He) as (_ & _ & L3). cbv zeta in L3.
  destruct (Hstep _ _ H1) as [[-> D1]|(c1 & d1 & Ec & Ed & ->)].
  { rewrite (Hkeep _ _ D1 H2). exact D1. }
  assert (c1 = c) as -> by congruence.
  assert (d1 = py_strip d0 ++ py " " ++ e) as ->
    by (injection Ed as Ed; symmetry; exact Ed).
  fold e in H2 |- *. clear Ec Ed.
  destruct (Hstep _ _ H2) as [[-> D2]|(c2 & d2 & Ec & Ed & ->)].
  { exact D2. }
  assert (c2 = c) as -> by congruence.
  assert (d2 = py_strip (py_strip d0 ++ py " " ++ e) ++ py " " ++ e) as ->
    by (injection Ed as Ed; symmetry; exact Ed).
  fold e. apply Hlong. lia.
Qed.

Lemma enhance_ingredients_thrice (v0 v1 v2 v3 : json) :
  enhance_ingredients v0 = Some v1 ->
  enhance_ingredients v1 = Some v2 ->
  enhance_ingredients v2 = Some v3 ->
  dense 60 v3.
Proof.
  set (e := py "Commonly used in traditional recipes and everyday cooking.").
  assert (Hstep : forall v w, enhance_ingredients v = Some w ->
            (w = v /\ dense 60 v)
            \/ (exists d, v = JStr d /\ w = JStr (py_strip d ++ py " " ++ e))).
  { intros v w H. unfold enhance_ingredients in H.
    destruct (truthy v) eqn:T; cbn [negb] in H.
    2: { injection H as <-. left. split; [reflexivity|left; exact T]. }
    destruct (py_len v) as [n|] eqn:En; [|discriminate H].
    cbn [mbind option_bind] in H.
    destruct (60 <? n)%nat eqn:E60.
    { injection H as <-. left. split; [reflexivity|].
      right. exists n. split; [exact En|]. apply Nat.ltb_lt. exact E60. }
    destruct v as [| | |d| |]; try discriminate H.
    cbn [as_str mbind option_bind] in H. injection H as <-.
    right. exists d. split; [reflexivity|].
    replace (py " Commonly used in traditional recipes and everyday cooking.")
      with (py " " ++ e) by (vm_compute; reflexivity).
    reflexivity. }
  assert (Hkeep : forall v w, dense 60 v ->
            enhance_ingredients v = Some w -> w = v).
  { intros v w Hd H. rewrite (enhance_ingredients_dense _ Hd) in H.
    congruence. }
  assert (He : solid e = true) by (vm_compute; reflexivity).
  assert (Hlen : length e = 58%nat) by (vm_compute; reflexivity).
  intros H0 H1 H2.
  destruct (Hstep _ _ H0) as [[-> D0]|(d0 & -> & ->)].
  { rewrite (Hkeep _ _ D0 H1) in H2. rewrite (Hkeep _ _ D0 H2). exact D0. }
  destruct (pad_lengths e d0 He) as (_ & _ & L3). cbv zeta in L3.
  destruct (Hstep _ _ H1) as [[-> D1]|(d1 & Ed & ->)].
  { rewrite (Hkeep _ _ D1 H2). exact D1. }
  assert (d1 = py_strip d0 ++ py " " ++ e) as ->
    by (injection Ed as Ed; symmetry; exact Ed).
  clear Ed.
  destruct (Hstep _ _ H2) as [[-> D2]|(d2 & Ed & ->)].
  { exact D2. }
  assert (d2 = py_strip (py_strip d0 ++ py " " ++ e) ++ py " " ++ e) as ->
    by (injection Ed as Ed; symmetry; exact Ed).
  right. eexists. split; [reflexivity|]. lia.
Qed.

Lemma enhance_description_eq (v category new : json) :
  enhance_description U v category = Some new ->
  py_eq new v = true -> new = v.
Proof.
  unfold enhance_description.
  destruct (negb (truthy v)); [congruence|].
  destruct (py_len v) as [n|]; [|discriminate].
  cbn [mbind option_bind]. destruct (180 <? n)%nat; [congruence|].
  destruct (as_str category) as [c|]; [|discriminate].
  cbn [mbind option_bind]. destruct v as [| | |d| |]; try discriminate.
  cbn [as_str mbind option_bind]. intros [= <-] H. cbn [py_eq] in H.
  apply str_eqb_eq in H. congruence.
Qed.

Lemma enhance_ingredients_eq (v new : json) :
  enhance_ingredients v = Some new -> py_eq new v = true -> new = v.
Proof.
  unfold enhance_ingredients.
  destruct (negb (truthy v)); [congruence|].
  destruct (py_len v) as [n|]; [|discriminate].
  cbn [mbind option_bind]. destruct (60 <? n)%nat; [congruence|].
  destruct v as [| | |d| |]; try discriminate.
  cbn [as_str mbind option_bind]. intros [= <-] H. cbn [py_eq] in H.
  apply str_eqb_eq in H. congruence.
Qed.

(** A step that stores what [f] answers leaves the field at that value. *)
Lemma step_value (field : pystr) (dflt : json) (f : json -> option json)
  (en en' : dict) (c c' : bool) :
  (forall v new, f v = Some new -> py_eq new v = true -> new = v) ->
  step field dflt f (en, c) = Some (en', c') ->
  f (dict_get field dflt en) = Some (dict_get field dflt en')
  /\ (c' = false -> en' = en /\ c = false).
Proof.
  intros Hf H. apply step_spec in H.
  destruct H as (new & Hnew & [(Heq & -> & ->)|(_ & -> & ->)]).
  - rewrite Hnew. rewrite (Hf _ _ Hnew Heq). auto.
  - rewrite dict_get_set_eq. split; [exact Hnew|discriminate].
Qed.

(** The English block that the pass works on, if it is not empty. *)
Lemma premium_pass_block (d : dict) (r : json * bool) :
  premium_pass_record U (JObj d) = Some r ->
  (r = (JObj d, false)
   /\ forall f, en_text (JObj d) f = JStr [])
  \/ (exists all en,
        alookup (py "i18n") d = Some (JObj all)
        /\ alookup (py "en") all = Some (JObj en) /\ en <> []).
Proof.
  intros E. unfold premium_pass_record in E.
  cbn -[py step dict_get dict_set truthy] in E.
  destruct (dict_get (py "i18n") (JObj []) d) as [| | | | |all] eqn:Hgi;
    try discriminate E.
  cbn -[py step dict_get dict_set truthy] in E.
  destruct (truthy (dict_get (py "en") (JObj []) all)) eqn:T.
  - right.
    destruct (dict_get (py "en") (JObj []) all) as [| | | | |en] eqn:Hge;
      try discriminate E.
    assert (Hne : en <> []) by (destruct en; [discriminate T|discriminate]).
    assert (Hen : alookup (py "en") all = Some (JObj en)).
    { unfold dict_get in Hge. destruct (alookup (py "en") all) as [x|].
      - rewrite Hge. reflexivity.
      - injection Hge as <-. congruence. }
    exists all, en. split; [|auto].
    unfold dict_get in Hgi. destruct (alookup (py "i18n") d) as [x|].
    + rewrite Hgi. reflexivity.
    + injection Hgi as <-. discriminate Hen.
  - left. cbn in E. injection E as <-. split; [reflexivity|].
    intros f. unfold en_text. rewrite jpath_3. cbn [jget mbind option_bind].
    unfold dict_get in Hgi, T.
    destruct (alookup (py "i18n") d) as [x|]; [|reflexivity].
    subst x. cbn [jget mbind option_bind].
    destruct (alookup (py "en") all) as [x|]; [|reflexivity].
    cbn [mbind option_bind].
    destruct x as [|b|n|s|l|o]; try reflexivity.
    destruct o; [reflexivity|discriminate T].
Qed.

(** X22: when the Premium Pass does not set its flag [changed], the
    record in memory is the record it read: skipping the write loses
    nothing. *)
Theorem premium_pass_flag_sound (data data' : json) :
  premium_pass_record U data = Some (data', false) -> data' = data.
Proof.
  intros E. destruct data as [| | | | |d]; try discriminate E.
  destruct (premium_pass_block _ _ E) as [[[= ->] _]|(all & en & Hall & Hen & Hne)];
    [reflexivity|].
  destruct (premium_pass_record_inv U _ _ _ _ _ E Hall Hen Hne)
    as ([en1 c1] & [en2 c2] & [en3 c3] & S1 & S2 & S3 & -> & Hc).
  cbn [fst snd] in *. symmetry in Hc.
  assert (Hsame : forall field dflt f e e' c c',
            step field dflt f (e, c) = Some (e', c') -> c' = false ->
            e' = e /\ c = false).
  { intros field dflt f e e' c c' S Hc'. apply step_spec in S.
    destruct S as (n & _ & [(_ & -> & ->)|(_ & _ & ->)]);
      [auto|discriminate Hc']. }
  destruct (Hsame _ _ _ _ _ _ _ S3 Hc) as [E3 Hc2].
  destruct (Hsame _ _ _ _ _ _ _ S2 Hc2) as [E2 Hc1].
  destruct (Hsame _ _ _ _ _ _ _ S1 Hc1) as [E1 _].
  subst en3 en2 en1.
  rewrite (dict_set_id _ _ _ Hen), (dict_set_id _ _ _ Hall). reflexivity.
Qed.

(** The texts of the English block after a run, from those before. *)
Lemma premium_pass_texts (d : dict) (r1 : json) :
  premium_pass U (JObj d) = Some r1 ->
  exists d1,
    r1 = JObj d1
    /\ dict_get (py "category") (JStr []) d1
       = dict_get (py "category") (JStr []) d
    /\ enhance_description U (en_text (JObj d) (py "description"))
         (dict_get (py "category") (JStr []) d)
       = Some (en_text r1 (py "description"))
    /\ enhance_ingredients (en_text (JObj d) (py "ingredients"))
       = Some (en_text r1 (py "ingredients")).
Proof.
  unfold premium_pass. intros H.
  destruct (premium_pass_record U (JObj d)) as [[r1' c]|] eqn:E;
    [|discriminate H].
  cbn [mbind option_bind fst] in H. injection H as ->.
  destruct (premium_pass_block _ _ E) as [[[= -> ->] Ht]|(all & en & Hall & Hen & Hne)].
  { exists d. split; [reflexivity|]. split; [reflexivity|].
    rewrite !Ht. split; reflexivity. }
  destruct (premium_pass_record_inv U _ _ _ _ _ E Hall Hen Hne)
    as ([en1 c1] & [en2 c2] & [en3 c3] & S1 & S2 & S3 & -> & _).
  cbn [fst snd] in *.
  assert (Htext : forall (dd : dict) (e : dict) f,
            alookup (py "i18n") dd = Some (JObj all) ->
            en_text (JObj (dict_set (py "i18n")
                             (JObj (dict_set (py "en") (JObj e) all)) dd)) f
            = dict_get f (JStr []) e).
  { intros dd e f _. unfold en_text. rewrite jpath_3.
    cbn [jget mbind option_bind]. rewrite alookup_dict_set_eq.
    cbn [jget mbind option_bind]. rewrite alookup_dict_set_eq.
    reflexivity. }
  assert (Htext0 : forall f, en_text (JObj d) f = dict_get f (JStr []) en).
  { intros f. unfold en_text. rewrite jpath_3.
    cbn [jget mbind option_bind]. rewrite Hall.
    cbn [jget mbind option_bind]. rewrite Hen. reflexivity. }
  eexists. split; [reflexivity|].
  split; [apply dict_get_set_ne; key_ne|].
  rewrite !(Htext d en3 _ Hall), !Htext0.
  pose proof (step_frame _ (py "description") _ (JStr []) _ _ _ _ _ S2
                ltac:(key_ne)) as F2.
  pose proof (step_frame _ (py "description") _ (JStr []) _ _ _ _ _ S3
                ltac:(key_ne)) as F3.
  pose proof (step_frame _ (py "ingredients") _ (JStr []) _ _ _ _ _ S1
                ltac:(key_ne)) as G1.
  pose proof (step_frame _ (py "ingredients") _ (JStr []) _ _ _ _ _ S3
                ltac:(key_ne)) as G3.
  apply step_value in S1; [|intros v new; apply enhance_description_eq].
  apply step_value in S2; [|intros v new; apply enhance_ingredients_eq].
  destruct S1 as [S1 _]. destruct S2 as [S2 _].
  rewrite F3, F2, G3, <- G1. auto.
Qed.

(** X23: the Premium Pass reaches a fixed point after three runs at most:
    whatever the record, the fourth run changes nothing (each padding adds
    at least 58 characters to the stripped text, so the thresholds of 180
    and 60 characters are passed). *)
Theorem premium_pass_converges (r r1 r2 r3 : json) :
  premium_pass U r = Some r1 ->
  premium_pass U r1 = Some r2 ->
  premium_pass U r2 = Some r3 ->
  premium_pass U r3 = Some r3.
Proof.
  intros H0 H1 H2.
  destruct r as [| | | | |d]; try discriminate H0.
  destruct (premium_pass_texts _ _ H0) as (d1 & -> & C1 & D1 & I1).
  destruct (premium_pass_texts _ _ H1) as (d2 & -> & C2 & D2 & I2).
  destruct (premium_pass_texts _ _ H2) as (d3 & -> & C3 & D3 & I3).
  rewrite C2, C1 in D3. rewrite C1 in D2.
  apply (premium_pass_settled U _ _ H2).
  - exact (enhance_description_thrice _ _ _ _ _ D1 D2 D3).
  - exact (enhance_ingredients_thrice _ _ _ _ I1 I2 I3).
Qed.

End premium_more.

(** The three steps run on texts that need no padding and on a history of
    three entries: the flag stays unset. *)
Lemma premium_pass_flag_sound_witness :
  exists data' : json,
    premium_pass.premium_pass_record ascii_tables record_long_texts
    = Some (data', false)
    /\ premium_pass.enhance_description ascii_tables
         (en_text record_long_texts (py "description")) (JStr (py "Grocery"))
       = Some (en_text record_long_texts (py "description"))
    /\ truthy (en_text record_long_texts (py "description")) = true
    /\ data' = record_long_texts.
Proof.
  destruct (premium_pass.premium_pass_record ascii_tables record_long_texts)
    as [[data' [|]]|] eqn:E.
  - vm_compute in E. discriminate E.
  - exists data'. split; [reflexivity|].
    split; [vm_compute; reflexivity|]. split; [reflexivity|].
    apply (premium_pass_flag_sound ascii_tables record_long_texts data' E).
  - vm_compute in E. discriminate E.
Defined.

Lemma premium_pass_converges_witness :
  exists r1 r2 r3 : json,
    premium_pass.premium_pass ascii_tables record_short_texts = Some r1
    /\ premium_pass.premium_pass ascii_tables r1 = Some r2
    /\ premium_pass.premium_pass ascii_tables r2 = Some r3
    /\ premium_pass.premium_pass ascii_tables r3 = Some r3.
Proof.
  destruct (premium_pass.premium_pass ascii_tables record_short_texts)
    as [r1|] eqn:E1; [|vm_compute in E1; discriminate E1].
  destruct (premium_pass.premium_pass ascii_tables r1)
    as [r2|] eqn:E2.
  2: { vm_compute in E1. injection E1 as <-. vm_compute in E2.
       discriminate E2. }
  destruct (premium_pass.premium_pass ascii_tables r2)
    as [r3|] eqn:E3.
  2: { vm_compute in E1. injection E1 as <-. vm_compute in E2.
       injection E2 as <-. vm_compute in E3. discriminate E3. }
  exists r1, r2, r3. split; [reflexivity|]. split; [exact E2|].
  split; [exact E3|].
  apply (premium_pass_converges ascii_tables record_short_texts r1 r2 r3
           E1 E2 E3).
Defined.

(** ** Running a pass twice, in full *)

(** A padding changes the text. *)
Lemma pad_changes (e d : pystr) :
  solid e = true -> py_strip d ++ py " " ++ e <> d.
Proof.
  intros He E.
  assert (Hlen : forall x : pystr, x ++ py " " ++ e <> x).
  { intros x H. apply (f_equal (@length N)) in H.
    rewrite !length_app in H. change (length (py " ")) with 1%nat in H. lia. }
  destruct (py_strip_ends d) as [H0|(c & r & Hs & Hc & Hl)].
  - rewrite H0 in E. cbn [app] in E.
    pose proof (py_strip_space_solid e He) as Hs.
    change (32 :: e) with (py " " ++ e) in E. rewrite E, H0 in Hs.
    subst e. discriminate He.
  - assert (Hd : solid d = true).
    { rewrite <- E. apply solid_app; [|exact He]. rewrite Hs.
      apply solid_intro; [exact Hc|]. rewrite <- Hs. exact Hl. }
    rewrite (py_strip_solid d Hd) in E. exact (Hlen d E).
Qed.

Section second_run.

Import premium_pass.

Context (U : unicode).

Lemma enhance_description_pads (v category new : json) :
  enhance_description U v category = Some new ->
  ~ dense 180 v ->
  exists d c : pystr,
    v = JStr d /\ category = JStr c
    /\ new = JStr (py_strip d ++ py " "
                   ++ default
                        (py "Valued for its consistent quality and suitability for everyday use.")
                        (alookup (py_upper U c) additions)).
Proof.
  unfold enhance_description. intros H Hd.
  destruct (truthy v) eqn:T; [|destruct Hd; left; exact T].
  cbn [negb] in H.
  destruct (py_len v) as [n|] eqn:L; [|discriminate H].
  cbn [mbind option_bind] in H.
  destruct (180 <? n)%nat eqn:E.
  { destruct Hd. right. exists n. split; [exact L|].
    apply Nat.ltb_lt. exact E. }
  destruct (as_str category) as [c|] eqn:Ec; [|discriminate H].
  cbn [mbind option_bind] in H.
  destruct (as_str v) as [d|] eqn:Ev; [|discriminate H].
  cbn [mbind option_bind] in H. injection H as <-.
  exists d, c. split; [destruct v; cbn [as_str] in Ev; congruence|].
  split; [destruct category; cbn [as_str] in Ec; congruence|reflexivity].
Qed.

Lemma enhance_ingredients_pads (v new : json) :
  enhance_ingredients v = Some new ->
  ~ dense 60 v ->
  exists i : pystr,
    v = JStr i
    /\ new = JStr (py_strip i ++
                   py " Commonly used in traditional recipes and everyday cooking.").
Proof.
  unfold enhance_ingredients. intros H Hd.
  destruct (truthy v) eqn:T; [|destruct Hd; left; exact T].
  cbn [negb] in H.
  destruct (py_len v) as [n|] eqn:L; [|discriminate H].
  cbn [mbind option_bind] in H.
  destruct (60 <? n)%nat eqn:E.
  { destruct Hd. right. exists n. split; [exact L|].
    apply Nat.ltb_lt. exact E. }
  destruct (as_str v) as [i|] eqn:Ev; [|discriminate H].
  cbn [mbind option_bind] in H. injection H as <-.
  exists i. split; [destruct v; cbn [as_str] in Ev; congruence|reflexivity].
Qed.

Lemma enhance_description_fixed (v category : json) :
  enhance_description U v category = Some v -> dense 180 v.
Proof.
  intros H. unfold enhance_description in H.
  destruct (truthy v) eqn:T; [|left; exact T]. cbn [negb] in H.
  destruct (py_len v) as [n|] eqn:L; [|discriminate H].
  cbn [mbind option_bind] in H.
  destruct (180 <? n)%nat eqn:E.
  { right. exists n. split; [exact L|]. apply Nat.ltb_lt. exact E. }
  destruct (as_str category) as [c|]; [|discriminate H].
  cbn [mbind option_bind] in H.
  destruct v as [| | |d| |]; try discriminate H.
  cbn [as_str mbind option_bind] in H. injection H as H.
  destruct (pad_changes _ d (proj1 (extra_solid (py_upper U c))) H).
Qed.

Lemma enhance_ingredients_fixed (v : json) :
  enhance_ingredients v = Some v -> dense 60 v.
Proof.
  intros H. unfold enhance_ingredients in H.
  destruct (truthy v) eqn:T; [|left; exact T]. cbn [negb] in H.
  destruct (py_len v) as [n|] eqn:L; [|discriminate H].
  cbn [mbind option_bind] in H.
  destruct (60 <? n)%nat eqn:E.
  { right. exists n. split; [exact L|]. apply Nat.ltb_lt. exact E. }
  destruct v as [| | |i| |]; try discriminate H.
  cbn [as_str mbind option_bind] in H. injection H as H.
  replace (py " Commonly used in traditional recipes and everyday cooking.")
    with (py " " ++ py "Commonly used in traditional recipes and everyday cooking.")
    in H by (vm_compute; reflexivity).
  apply pad_changes in H; [destruct H|]. vm_compute. reflexivity.
Qed.

(** What a further run of the Premium Pass does to the texts of a record
    that a run has produced. *)
Lemma premium_pass_next (r1 r2 : json) :
  premium_pass U r1 = Some r2 ->
  (r2 = r1 ->
     dense 180 (en_text r1 (py "description"))
     /\ dense 60 (en_text r1 (py "ingredients")))
  /\ (~ dense 180 (en_text r1 (py "description")) ->
      exists d c : pystr,
        en_text r1 (py "description") = JStr d
        /\ default (JStr []) (jget r1 (py "category")) = JStr c
        /\ en_text r2 (py "description")
           = JStr (py_strip d ++ py " "
                   ++ default
                        (py "Valued for its consistent quality and suitability for everyday use.")
                        (alookup (py_upper U c) additions)))
  /\ (~ dense 60 (en_text r1 (py "ingredients")) ->
      exists i : pystr,
        en_text r1 (py "ingredients") = JStr i
        /\ en_text r2 (py "ingredients")
           = JStr (py_strip i ++
                   py " Commonly used in traditional recipes and everyday cooking.")).
Proof.
  intros H2.
  destruct r1 as [| | | | |d1]; try discriminate H2.
  destruct (premium_pass_texts U d1 r2 H2) as (d2 & -> & _ & Hdesc & Hing).
  split; [|split].
  - intros Heq. rewrite Heq in Hdesc, Hing.
    split; [exact (enhance_description_fixed _ _ Hdesc)
           |exact (enhance_ingredients_fixed _ Hing)].
  - intros Hnd.
    destruct (enhance_description_pads _ _ _ Hdesc Hnd)
      as (d & c & Hv & Hc & Hnew).
    exists d, c. split; [exact Hv|]. split; [|exact Hnew].
    rewrite <- Hc. unfold dict_get. cbn [jget].
    destruct (alookup (py "category") d1); reflexivity.
  - intros Hnd.
    destruct (enhance_ingredients_pads _ _ Hing Hnd) as (i & Hv & Hnew).
    exists i. split; [exact Hv|exact Hnew].
Qed.

End second_run.

(** C2: a second run of Post-QC on a record leaves it as the first run made
    it.  A second run of the Premium Pass does so exactly when the first
    left a description that is empty or longer than 180 characters and
    ingredients that are empty or longer than 60 characters: with such
    texts it completes and changes nothing, and a text that is neither
    empty nor that long is stripped and padded once more, the description
    with the sentence of the category and the ingredients with their
    sentence, by every run that completes. *)
Theorem second_run_fixed_point (U : unicode) (netloc : pystr -> option pystr)
  (r r1 : json) :
  unicode_ok U ->
  (post_qc.post_qc U netloc r = Some r1 ->
   post_qc.post_qc U netloc r1 = Some r1)
  /\ (premium_pass.premium_pass U r = Some r1 ->
      (dense 180 (en_text r1 (py "description")) ->
       dense 60 (en_text r1 (py "ingredients")) ->
       premium_pass.premium_pass U r1 = Some r1)
      /\ forall r2, premium_pass.premium_pass U r1 = Some r2 ->
           (r2 = r1 <->
              dense 180 (en_text r1 (py "description"))
              /\ dense 60 (en_text r1 (py "ingredients")))
           /\ (~ dense 180 (en_text r1 (py "description")) ->
               exists d c : pystr,
                 en_text r1 (py "description") = JStr d
                 /\ default (JStr []) (jget r1 (py "category")) = JStr c
                 /\ en_text r2 (py "description")
                    = JStr (py_strip d ++ py " "
                            ++ default
                                 (py "Valued for its consistent quality and suitability for everyday use.")
                                 (alookup (py_upper U c)
                                    premium_pass.additions)))
           /\ (~ dense 60 (en_text r1 (py "ingredients")) ->
               exists i : pystr,
                 en_text r1 (py "ingredients") = JStr i
                 /\ en_text r2 (py "ingredients")
                    = JStr (py_strip i ++
                            py " Commonly used in traditional recipes and everyday cooking."))).
Proof.
  intros HU. split.
  - apply post_qc_settled. exact HU.
  - intros H1.
    pose proof (premium_pass_settled U r r1 H1) as Hfix.
    split; [exact Hfix|]. intros r2 H2.
    destruct (premium_pass_next U r1 r2 H2) as (Honly & Hd & Hi).
    split; [|split; assumption].
    split; [exact Honly|]. intros [Dd Di].
    rewrite (Hfix Dd Di) in H2. congruence.
Qed.

Lemma second_run_fixed_point_witness :
  exists r1 r2 r3 r4 : json,
    post_qc.post_qc ascii_tables netloc_K100 (JObj fields_water) = Some r1
    /\ post_qc.post_qc ascii_tables netloc_K100 r1 = Some r1
    /\ premium_pass.premium_pass ascii_tables record_long_texts = Some r2
    /\ py_len (en_text r2 (py "description")) = Some 208%nat
    /\ py_len (en_text r2 (py "ingredients")) = Some 75%nat
    /\ premium_pass.premium_pass ascii_tables r2 = Some r2
    /\ premium_pass.premium_pass ascii_tables record_short_texts = Some r3
    /\ premium_pass.premium_pass ascii_tables r3 = Some r4
    /\ r4 <> r3.
Proof.
  destruct (post_qc.post_qc ascii_tables netloc_K100 (JObj fields_water))
    as [r1|] eqn:E1.
  2: { vm_compute in E1. discriminate E1. }
  destruct (premium_pass.premium_pass ascii_tables record_long_texts)
    as [r2|] eqn:E2.
  2: { vm_compute in E2. discriminate E2. }
  destruct (premium_pass.premium_pass ascii_tables record_short_texts)
    as [r3|] eqn:E3.
  2: { vm_compute in E3. discriminate E3. }
  destruct (premium_pass.premium_pass ascii_tables r3) as [r4|] eqn:E4.
  2: { vm_compute in E3. injection E3 as <-. vm_compute in E4.
       discriminate E4. }
  assert (L2 : py_len (en_text r2 (py "description")) = Some 208%nat
               /\ py_len (en_text r2 (py "ingredients")) = Some 75%nat).
  { vm_compute in E2. injection E2 as <-. split; vm_compute; reflexivity. }
  destruct L2 as [Ld Li].
  exists r1, r2, r3, r4. split; [reflexivity|]. split.
  { apply (second_run_fixed_point ascii_tables netloc_K100
             (JObj fields_water) r1 ascii_tables_ok). exact E1. }
  split; [reflexivity|]. split; [exact Ld|]. split; [exact Li|]. split.
  { apply (second_run_fixed_point ascii_tables netloc_K100
             record_long_texts r2 ascii_tables_ok).
    - exact E2.
    - right. exists 208%nat. split; [exact Ld|lia].
    - right. exists 75%nat. split; [exact Li|lia]. }
  split; [reflexivity|]. split; [exact E4|].
  intros Heq.
  destruct (second_run_fixed_point ascii_tables netloc_K100
              record_short_texts r3 ascii_tables_ok) as [_ H].
  destruct (H E3) as [_ H']. destruct (H' r4 E4) as [[Honly _] _].
  destruct (Honly Heq) as [[T|(n & L & Hn)] _].
  - vm_compute in E3. injection E3 as <-. vm_compute in T. discriminate T.
  - vm_compute in E3. injection E3 as <-. vm_compute in L.
    injection L as <-. lia.
Defined.

(** ** The texts of the Enricher (enrich_products.py) *)

Section enricher_texts.

Import enrich_products.

Context (U : unicode).

(** X24: the history the Enricher writes has one entry, with the hint or
    with the default sentence; the Premium Pass, which rewrites a history of
    fewer than three entries, puts its own three entries in its place. *)
Theorem enricher_history_is_regenerated (brand : pystr)
  (sources : list pystr) (wiki_hint : option pystr) (b cat co : pystr)
  (country : json) :
  py_or country (JStr (py "its region of production")) = JStr co ->
  exists t : pystr,
    generate_history brand sources wiki_hint
    = Some (JArr [JObj [(py "year", JStr (py "—")); (py "text", JStr t)]])
    /\ premium_pass.enhance_history U
         (JArr [JObj [(py "year", JStr (py "—")); (py "text", JStr t)]])
         (JStr b) (JStr cat) country
       = Some (premium_pass.history_template U b co cat).
Proof.
  intros Hco.
  assert (H : exists t, generate_history brand sources wiki_hint
                        = Some (JArr [JObj [(py "year", JStr (py "—"));
                                            (py "text", JStr t)]])).
  { unfold generate_history. destruct wiki_hint as [[|c hint]|].
    - eexists. vm_compute. reflexivity.
    - eexists. reflexivity.
    - eexists. vm_compute. reflexivity. }
  destruct H as [t Ht]. exists t. split; [exact Ht|].
  unfold premium_pass.enhance_history.
  cbn [truthy negb py_len mbind option_bind length Nat.leb as_str].
  rewrite Hco. reflexivity.
Qed.

Lemma contains_join (sep x : pystr) (l : list pystr) :
  x ∈ l -> contains x (py_join sep l) = true.
Proof.
  induction l as [|y l IH]; intros H; [apply elem_of_nil in H; destruct H|].
  apply elem_of_cons in H as [->|H].
  - cbn [py_join]. destruct l.
    + rewrite <- (app_nil_r y) at 2. apply (contains_app y [] []).
    + apply (contains_app y []).
  - cbn [py_join]. destruct l as [|z l]; [apply elem_of_nil in H; destruct H|].
    specialize (IH H). apply contains_inv in IH. destruct IH as (a & c & ->).
    rewrite !app_assoc. rewrite <- (app_assoc _ x c), <- !app_assoc.
    rewrite !app_assoc. rewrite <- app_assoc. apply contains_app.
Qed.

Lemma guess_category_lower (c : pystr) :
  lower_ok U ->
  c ∈ [py "Beer"; py "Wine"; py "Spirits"] ->
  existsb (str_eqb (uni_lower U c)) [py "beer"; py "wine"; py "spirits"]
  = true.
Proof.
  intros HL Hc.
  repeat (apply elem_of_cons in Hc as [->|Hc]);
    [..|apply elem_of_nil in Hc; destruct Hc];
    (rewrite HL by (vm_compute; repeat constructor));
    vm_compute; reflexivity.
Qed.

(** X25: a product whose guessed category is Beer, Wine or Spirits counts
    as alcohol, and its precautions hold the warning for alcoholic
    beverages, whatever the allergens found. *)
Theorem alcoholic_categories_get_the_warning (dept name : pystr)
  (allergens : list pystr) :
  lower_ok U ->
  guess_category U dept name ∈ [py "Beer"; py "Wine"; py "Spirits"] ->
  is_alcohol U (guess_category U dept name) name = true
  /\ contains ALCOHOL_PRECAUTIONS
       (generate_precautions (guess_category U dept name) allergens
          (is_alcohol U (guess_category U dept name) name)) = true.
Proof.
  intros HL Hc.
  assert (Ha : is_alcohol U (guess_category U dept name) name = true).
  { unfold is_alcohol. cbv zeta.
    rewrite (guess_category_lower _ HL Hc). reflexivity. }
  split; [exact Ha|]. rewrite Ha. unfold generate_precautions. cbv zeta.
  apply contains_join.
  destruct allergens as [|a allergens];
    repeat match goal with
           | |- context [if ?b then _ else _] => destruct b
           end;
    rewrite !elem_of_app, !list_elem_of_singleton; auto.
Qed.

Lemma sub_runs_snoc (cls : N -> bool) (rep : pystr) (b : bool) (y : pystr)
  (c : N) :
  cls c = false ->
  sub_runs cls rep b (y ++ [c]) = sub_runs cls rep b y ++ [c].
Proof.
  intros Hc. revert b. induction y as [|a y IH]; intros b; cbn [app sub_runs].
  - rewrite Hc. reflexivity.
  - destruct (cls a).
    + destruct b; rewrite IH; [reflexivity|]. rewrite app_assoc. reflexivity.
    + rewrite IH. reflexivity.
Qed.

Lemma py_strip_snoc (x : pystr) (c : N) :
  is_space c = false -> py_strip (x ++ [c]) = lstrip x ++ [c].
Proof.
  intros Hc. unfold py_strip. rewrite lstrip_snoc by exact Hc.
  unfold rstrip. rewrite rev_app_distr. cbn [rev app lstrip]. rewrite Hc.
  change (c :: rev (lstrip x)) with (rev [c] ++ rev (lstrip x)).
  rewrite <- rev_app_distr. apply rev_involutive.
Qed.

(** [clean_spaces] keeps a last character that is no whitespace. *)
Lemma clean_spaces_snoc (x : pystr) (c : N) :
  is_space c = false ->
  exists r, clean_spaces (x ++ [c]) = r ++ [c].
Proof.
  intros Hc. unfold clean_spaces. rewrite py_strip_snoc by exact Hc.
  rewrite sub_runs_snoc by exact Hc. eexists. reflexivity.
Qed.

Lemma keep_query_new (out : list pystr) (q : pystr) :
  clean_spaces q <> [] -> clean_spaces q ∉ out ->
  keep_query out q = out ++ [clean_spaces q].
Proof.
  intros Hne Hout. unfold keep_query.
  destruct (clean_spaces q) as [|a r] eqn:E; [congruence|].
  rewrite bool_decide_eq_false_2 by exact Hout. reflexivity.
Qed.

(** X26: [build_queries] gives five queries for every brand, name and
    category: the loop that drops empty and repeated queries drops none.
    They are the five texts with their whitespace normalised, different from
    one another and none of them empty. *)
Theorem build_queries_five (brand sku_name category : pystr) :
  let b := clean_spaces brand in
  let base := b ++ py " " ++ clean_spaces sku_name in
  build_queries brand sku_name category
  = map clean_spaces
      [ base ++ py " ingredients";
        base ++ py " allergen";
        if existsb (str_eqb category) [py "Beer"; py "Wine"; py "Spirits"]
        then base ++ py " ABV" else base ++ py " product";
        b ++ py " official site";
        b ++ py " history" ]
  /\ NoDup (build_queries brand sku_name category)
  /\ Forall (fun q => q <> [] /\ tidy q = true)
        (build_queries brand sku_name category).
Proof.
  intros b base. unfold build_queries. fold b. fold base.
  set (q3 := if existsb _ _ then _ else _).
  assert (Hend : forall (x w : pystr) (c : N), is_space c = false ->
            exists r, clean_spaces (x ++ w ++ [c]) = r ++ [c]).
  { intros x w c Hc. rewrite app_assoc. apply clean_spaces_snoc. exact Hc. }
  destruct (Hend base (py " ingredient") 115 eq_refl) as [r1 E1].
  destruct (Hend base (py " allerge") 110 eq_refl) as [r2 E2].
  assert (E3 : exists r c, clean_spaces q3 = r ++ [c] /\ (c = 86 \/ c = 116)).
  { subst q3. destruct (existsb _ _).
    - destruct (Hend base (py " AB") 86 eq_refl) as [r E]. eauto.
    - destruct (Hend base (py " produc") 116 eq_refl) as [r E]. eauto. }
  destruct E3 as (r3 & c3 & E3 & Hc3).
  destruct (Hend b (py " official sit") 101 eq_refl) as [r4 E4].
  destruct (Hend b (py " histor") 121 eq_refl) as [r5 E5].
  change (py " ingredient" ++ [115]) with (py " ingredients") in E1.
  change (py " allerge" ++ [110]) with (py " allergen") in E2.
  change (py " official sit" ++ [101]) with (py " official site") in E4.
  change (py " histor" ++ [121]) with (py " history") in E5.
  assert (Hne : forall (r : pystr) (c : N), r ++ [c] <> [])
    by (intros r c H; destruct r; discriminate H).
  assert (Hdiff : forall (r r' : pystr) (c c' : N),
            c <> c' -> r ++ [c] <> r' ++ [c'])
    by (intros r r' c c' Hcc H; apply app_inj_tail in H; destruct H; auto).
  assert (H12 : clean_spaces (base ++ py " allergen")
                ∉ [clean_spaces (base ++ py " ingredients")]).
  { rewrite E1, E2, not_elem_of_cons. split; [|apply not_elem_of_nil].
    apply Hdiff. discriminate. }
  assert (H3 : clean_spaces q3
               ∉ [clean_spaces (base ++ py " ingredients");
                  clean_spaces (base ++ py " allergen")]).
  { rewrite E1, E2, E3, !not_elem_of_cons.
    split; [|split; [|apply not_elem_of_nil]]; apply Hdiff;
      destruct Hc3 as [-> | ->]; discriminate. }
  assert (H4 : clean_spaces (b ++ py " official site")
               ∉ [clean_spaces (base ++ py " ingredients");
                  clean_spaces (base ++ py " allergen"); clean_spaces q3]).
  { rewrite E1, E2, E3, E4, !not_elem_of_cons.
    split; [|split; [|split; [|apply not_elem_of_nil]]]; apply Hdiff;
      destruct Hc3 as [-> | ->]; discriminate. }
  assert (H5 : clean_spaces (b ++ py " history")
               ∉ [clean_spaces (base ++ py " ingredients");
                  clean_spaces (base ++ py " allergen"); clean_spaces q3;
                  clean_spaces (b ++ py " official site")]).
  { rewrite E1, E2, E3, E4, E5, !not_elem_of_cons.
    split; [|split; [|split; [|split; [|apply not_elem_of_nil]]]];
      apply Hdiff; destruct Hc3 as [-> | ->]; discriminate. }
  assert (Heq : fold_left keep_query
                  [base ++ py " ingredients"; base ++ py " allergen"; q3;
                   b ++ py " official site"; b ++ py " history"] []
                = map clean_spaces
                    [base ++ py " ingredients"; base ++ py " allergen"; q3;
                     b ++ py " official site"; b ++ py " history"]).
  { assert (N1 : clean_spaces (base ++ py " ingredients") <> [])
      by (rewrite E1; apply Hne).
    assert (N2 : clean_spaces (base ++ py " allergen") <> [])
      by (rewrite E2; apply Hne).
    assert (N3 : clean_spaces q3 <> []) by (rewrite E3; apply Hne).
    assert (N4 : clean_spaces (b ++ py " official site") <> [])
      by (rewrite E4; apply Hne).
    assert (N5 : clean_spaces (b ++ py " history") <> [])
      by (rewrite E5; apply Hne).
    cbn [fold_left map].
    rewrite (keep_query_new [] _ N1 (not_elem_of_nil _)). cbn [app].
    rewrite (keep_query_new _ _ N2 H12). cbn [app].
    rewrite (keep_query_new _ _ N3 H3). cbn [app].
    rewrite (keep_query_new _ _ N4 H4). cbn [app].
    rewrite (keep_query_new _ _ N5 H5). reflexivity. }
  rewrite Heq. split; [reflexivity|]. cbn [map]. split.
  - rewrite E1, E2, E3, E4, E5.
    repeat (apply NoDup_cons_2;
            [rewrite ?not_elem_of_cons;
             repeat split; try apply not_elem_of_nil; apply Hdiff;
             destruct Hc3 as [-> | ->]; discriminate|]).
    apply NoDup_nil_2.
  - repeat (constructor; [split; [|apply clean_spaces_tidy]|]);
      [rewrite ?E1, ?E2, ?E3, ?E4, ?E5; apply Hne ..|constructor].
Qed.

End enricher_texts.

Lemma ascii_tables_lower : lower_ok ascii_tables.
Proof. intros s _. reflexivity. Qed.

Lemma enricher_history_is_regenerated_witness :
  exists t : pystr,
    enrich_products.generate_history (py "Krinos") [] None
    = Some (JArr [JObj [(py "year", JStr (py "—")); (py "text", JStr t)]])
    /\ premium_pass.enhance_history ascii_tables
         (JArr [JObj [(py "year", JStr (py "—")); (py "text", JStr t)]])
         (JStr (py "Krinos")) (JStr (py "Grocery")) (JStr (py "Greece"))
       = Some (premium_pass.history_template ascii_tables (py "Krinos")
                 (py "Greece") (py "Grocery")).
Proof.
  apply (enricher_history_is_regenerated ascii_tables (py "Krinos") [] None
           (py "Krinos") (py "Grocery") (py "Greece") (JStr (py "Greece"))).
  reflexivity.
Defined.

Lemma alcoholic_categories_get_the_warning_witness :
  let category :=
    enrich_products.guess_category ascii_tables (py "BEER") (py "Pilsner") in
  enrich_products.is_alcohol ascii_tables category (py "Pilsner") = true
  /\ contains enrich_products.ALCOHOL_PRECAUTIONS
       (enrich_products.generate_precautions category [py "barley"]
          (enrich_products.is_alcohol ascii_tables category (py "Pilsner")))
     = true.
Proof.
  apply (alcoholic_categories_get_the_warning ascii_tables (py "BEER")
           (py "Pilsner") [py "barley"]).
  - exact ascii_tables_lower.
  - apply (bool_decide_eq_true_1 (_ ∈ _)). vm_compute. reflexivity.
Defined.

(** ** The edit API once more (app.py) *)

(** Two assignments to different keys commute when the first key is there. *)
Lemma dict_set_comm (k k' : pystr) (v w : json) (d : dict) :
  k <> k' -> alookup k d <> None ->
  dict_set k v (dict_set k' w d) = dict_set k' w (dict_set k v d).
Proof.
  intros Hk. induction d as [|[k0 v0] d IH]; cbn [alookup dict_set];
    [congruence|].
  destruct (str_eqb k k0) eqn:E.
  - apply str_eqb_eq in E. subst k0. intros _.
    rewrite (str_eqb_ne k' k) by congruence.
    cbn [dict_set]. rewrite str_eqb_refl, (str_eqb_ne k' k) by congruence.
    reflexivity.
  - intros Hd. destruct (str_eqb k' k0) eqn:E'; cbn [dict_set].
    + apply str_eqb_eq in E'. subst k0. rewrite E, str_eqb_refl.
      reflexivity.
    + rewrite E, E', (IH Hd). reflexivity.
Qed.

Lemma dict_set_there (k k' : pystr) (v : json) (d : dict) :
  alookup k d <> None -> alookup k (dict_set k' v d) <> None.
Proof.
  intros H. rewrite alookup_dict_set. destruct (str_eqb k k'); congruence.
Qed.

Lemma dict_set_here (k : pystr) (v : json) (d : dict) :
  alookup k (dict_set k v d) <> None.
Proof. rewrite alookup_dict_set_eq. congruence. Qed.

(** The four assignments of [save_product], made after four earlier ones,
    leave what they leave when made alone. *)
Lemma four_sets (k1 k2 k3 k4 : pystr) (a1 a2 a3 a4 b1 b2 b3 b4 : json)
  (d : dict) :
  k1 <> k2 -> k1 <> k3 -> k1 <> k4 -> k2 <> k3 -> k2 <> k4 -> k3 <> k4 ->
  dict_set k4 b4 (dict_set k3 b3 (dict_set k2 b2 (dict_set k1 b1
    (dict_set k4 a4 (dict_set k3 a3 (dict_set k2 a2 (dict_set k1 a1 d)))))))
  = dict_set k4 b4 (dict_set k3 b3 (dict_set k2 b2 (dict_set k1 b1 d))).
Proof.
  intros H12 H13 H14 H23 H24 H34.
  rewrite (dict_set_comm k1 k4), (dict_set_comm k1 k3), (dict_set_comm k1 k2),
    dict_set_set; auto using dict_set_there, dict_set_here.
  rewrite (dict_set_comm k2 k4), (dict_set_comm k2 k3), dict_set_set;
    auto using dict_set_there, dict_set_here.
  rewrite (dict_set_comm k3 k4), dict_set_set;
    auto using dict_set_there, dict_set_here.
  rewrite dict_set_set. reflexivity.
Qed.

(** The document of a second POST for the same language is the one it
    builds without the first. *)
Lemma save_product_doc_again (product doc1 : json) (body1 body2 : dict) :
  app.save_product_doc product (JObj body1) = Some doc1 ->
  alookup (py "lang") body1 = alookup (py "lang") body2 ->
  app.save_product_doc doc1 (JObj body2)
  = app.save_product_doc product (JObj body2).
Proof.
  unfold app.save_product_doc. intros H Hlang.
  cbn [as_dict mbind option_bind] in H |- *. rewrite <- Hlang.
  destruct (alookup (py "lang") body1) as [l|];
    cbn [mbind option_bind] in H |- *; [|discriminate H].
  destruct (as_str l) as [lang|];
    cbn [mbind option_bind] in H |- *; [|discriminate H].
  destruct product as [| | | | |p];
    cbn [as_dict mbind option_bind] in H |- *; try discriminate H.
  destruct (dict_get (py "i18n") (JObj []) p) as [| | | | |i18n] eqn:Hi;
    cbn [as_dict mbind option_bind] in H |- *; try discriminate H.
  match type of H with
  | context [alookup lang ?x] =>
    set (i18n' := x) in *; destruct (alookup lang i18n') as [b|] eqn:Hb
  end; cbn [mbind option_bind] in H; [|discriminate H].
  destruct b as [| | | | |block];
    cbn [as_dict mbind option_bind] in H; try discriminate H.
  injection H as <-.
  cbn [as_dict mbind option_bind].
  rewrite dict_get_set_eq. cbn [as_dict mbind option_bind].
  rewrite dict_has_set, str_eqb_refl. cbn [orb].
  rewrite alookup_dict_set_eq. cbn [as_dict mbind option_bind].
  rewrite !dict_set_set.
  rewrite four_sets by (intros E; vm_compute in E; discriminate E).
  reflexivity.
Qed.

(** X27: of two saves of the same language the second wins: after a first
    POST for a SKU, a second one for the same language answers and leaves
    the directory as it would have without the first.  So a POST sent twice
    leaves what it leaves when sent once. *)
Theorem save_product_last_wins (fs fs1 : gmap pystr json) (sku : pystr)
  (body1 body2 : dict) (r : app.response) :
  app.save_product fs sku (JObj body1) = Some (r, fs1) ->
  alookup (py "lang") body1 = alookup (py "lang") body2 ->
  app.save_product fs1 sku (JObj body2) = app.save_product fs sku (JObj body2).
Proof.
  unfold app.save_product. intros H Hlang.
  destruct (fs !! app.content_file sku) as [product|] eqn:Hfile.
  2: { injection H as _ <-. rewrite Hfile. reflexivity. }
  destruct (app.save_product_doc product (JObj body1)) as [doc1|] eqn:E1;
    cbn [mbind option_bind] in H; [|discriminate H].
  destruct (utf8_json doc1); [|discriminate H].
  injection H as _ <-.
  rewrite lookup_insert_eq, (save_product_doc_again _ _ _ _ E1 Hlang).
  destruct (app.save_product_doc product (JObj body2)) as [doc2|];
    [|reflexivity].
  cbn [mbind option_bind]. rewrite insert_insert_eq. reflexivity.
Qed.

Lemma save_product_last_wins_witness :
  let fs : gmap pystr json := {[ app.content_file (py "K1") := JObj [] ]} in
  let first := [(py "lang", JStr (py "en")); (py "description", JStr (py "A"))] in
  let second := [(py "lang", JStr (py "en")); (py "history", JArr [JNull])] in
  exists r fs1,
    app.save_product fs (py "K1") (JObj first) = Some (r, fs1)
    /\ app.save_product fs1 (py "K1") (JObj second)
       = app.save_product fs (py "K1") (JObj second).
Proof.
  intros fs first second.
  destruct (app.save_product fs (py "K1") (JObj first)) as [[r fs1]|] eqn:E;
    [|vm_compute in E; discriminate E].
  exists r, fs1. split; [reflexivity|].
  apply (save_product_last_wins fs fs1 (py "K1") first second r E).
  reflexivity.
Defined.

(** ** The earlier localizer (content_generators.py) *)

Lemma alookup_update_NoDup (k : pystr) (v : json) (d kvs : dict) :
  NoDup (dict_keys kvs) -> (k, v) ∈ kvs ->
  alookup k (dict_update d kvs) = Some v.
Proof.
  intros Hnd Hin. apply alookup_dict_update_hit, alookup_rev_NoDup; assumption.
Qed.

Lemma jpath_snoc (x : json) (ks : list pystr) (k : pystr) :
  jpath x (ks ++ [k]) = jpath x ks ≫= fun y => jget y k.
Proof.
  revert x. induction ks as [|a ks IH]; intros x.
  - cbn [app]. rewrite jpath_1. reflexivity.
  - change ((a :: ks) ++ [k]) with (a :: (ks ++ [k])).
    unfold jpath; fold jpath. destruct (jget x a) as [y|]; [|reflexivity].
    cbn [mbind option_bind]. apply IH.
Qed.

Lemma NoDup_keys_value (k : pystr) (v v' : json) (d : dict) :
  NoDup (dict_keys d) -> (k, v) ∈ d -> (k, v') ∈ d -> v = v'.
Proof.
  intros Hnd H H'.
  pose proof (alookup_rev_NoDup k v d Hnd H) as E.
  pose proof (alookup_rev_NoDup k v' d Hnd H') as E'.
  congruence.
Qed.

(** An update that repeats the members of a dictionary but for one. *)
Lemma dict_update_but_one (k : pystr) (s : json) (e kvs : dict) :
  NoDup (dict_keys kvs) -> (k, s) ∈ kvs ->
  (forall k' v', (k', v') ∈ kvs -> k' <> k -> alookup k' e = Some v') ->
  dict_update e kvs = dict_set k s e.
Proof.
  intros Hnd Hin Hall.
  assert (Hafter : forall rest, (forall k' v', (k', v') ∈ rest ->
                                   (k', v') ∈ kvs) ->
                   dict_update (dict_set k s e) rest = dict_set k s e).
  { intros rest Hsub. apply dict_update_same. intros k' v' H'.
    destruct (decide (k' = k)) as [->|Hne].
    - rewrite (NoDup_keys_value k v' s kvs Hnd (Hsub _ _ H') Hin).
      apply alookup_dict_set_eq.
    - rewrite alookup_dict_set_ne by exact Hne.
      apply Hall; [apply Hsub; exact H'|exact Hne]. }
  assert (Hgo : forall rest, (forall k' v', (k', v') ∈ rest ->
                                (k', v') ∈ kvs) ->
                (k, s) ∈ rest -> dict_update e rest = dict_set k s e).
  { induction rest as [|[k0 v0] rest IH]; intros Hsub Hr.
    - apply elem_of_nil in Hr. destruct Hr.
    - change (dict_update e ((k0, v0) :: rest))
        with (dict_update (dict_set k0 v0 e) rest).
      destruct (decide (k0 = k)) as [->|Hne].
      + rewrite (NoDup_keys_value k v0 s kvs Hnd (Hsub _ _ ltac:(left)) Hin).
        apply Hafter. intros k' v' H'. apply Hsub. right. exact H'.
      + rewrite dict_set_id by (apply Hall; [apply Hsub; left|exact Hne]).
        apply IH; [intros k' v' H'; apply Hsub; right; exact H'|].
        apply elem_of_cons in Hr as [Hr|Hr]; [congruence|exact Hr]. }
  apply Hgo; auto.
Qed.

Lemma elem_of_dict_set (k k' : pystr) (v v' : json) (d : dict) :
  (k', v') ∈ dict_set k v d -> (k', v') = (k, v) \/ (k', v') ∈ d.
Proof.
  induction d as [|[k0 v0] d IH]; cbn [dict_set].
  - intros H. apply list_elem_of_singleton in H. left. exact H.
  - destruct (str_eqb k k0) eqn:E; intros H;
      apply elem_of_cons in H as [H|H].
    + left. exact H.
    + right. right. exact H.
    + right. rewrite H. left.
    + destruct (IH H) as [Hl|Hr]; [left; exact Hl|right; right; exact Hr].
Qed.

Lemma dict_set_elem (k : pystr) (v : json) (d : dict) :
  (k, v) ∈ dict_set k v d.
Proof.
  induction d as [|[k0 v0] d IH]; cbn [dict_set]; [left|].
  destruct (str_eqb k k0); [left|right; exact IH].
Qed.

Section earlier_localizer.

Import content_generators.

(** A language without an entry in [TEXT] gets the members the Content
    Generator assigns to the English block, under its own section titles. *)
Lemma i18n_block_fallback (en : dict) (title brand country lang : pystr) :
  lang ∈ fallback_langs ->
  exists sections fields,
    alookup lang SECTION_TITLES = Some sections
    /\ en_values title brand country = Some fields
    /\ i18n_block en title brand country lang
       = Some (dict_update en (dict_set (py "sections") sections fields))
    /\ alookup (py "description")
         (rev (dict_set (py "sections") sections fields))
       = Some (JStr (title
                     ++ py " is produced using traditional methods. Made in "
                     ++ country
                     ++ py ", it reflects the heritage and expertise of the brand."))
    /\ dict_keys fields = generated_keys
    /\ alookup (py "title") (rev fields) = Some (JStr title).
Proof.
  intros Hlang. unfold fallback_langs in Hlang.
  repeat (apply elem_of_cons in Hlang as [->|Hlang]);
    [..|apply elem_of_nil in Hlang; destruct Hlang];
    (eexists _, _; split; [vm_compute; reflexivity|];
     split; [vm_compute; reflexivity|];
     split; [vm_compute; reflexivity|];
     split; [vm_compute; reflexivity|];
     split; vm_compute; reflexivity).
Qed.

Lemma i18n_block_total (en : dict) (title brand country lang : pystr) :
  lang ∈ [py "ru"; py "ua"] ->
  exists block, i18n_block en title brand country lang = Some block.
Proof.
  intros Hlang.
  repeat (apply elem_of_cons in Hlang as [->|Hlang]);
    [..|apply elem_of_nil in Hlang; destruct Hlang];
    (eexists; vm_compute; reflexivity).
Qed.

(** The earlier localizer on a record whose English block has a title. *)
Lemma generate_i18n_from_en_fallback (data i18n en : dict)
  (title brand country lang : pystr) :
  alookup (py "i18n") data = Some (JObj i18n) ->
  alookup (py "en") i18n = Some (JObj en) ->
  alookup (py "title") en = Some (JStr title) ->
  dict_get (py "brand") (JStr []) data = JStr brand ->
  dict_get (py "country_of_origin") (JStr []) data = JStr country ->
  lang ∈ fallback_langs ->
  exists (data' : dict) (sections : json) (fields : dict),
    generate_i18n_from_en data = Some data'
    /\ alookup lang SECTION_TITLES = Some sections
    /\ en_values title brand country = Some fields
    /\ jpath (JObj data') [py "i18n"; lang]
       = Some (JObj (dict_update en
                       (dict_set (py "sections") sections fields))).
Proof.
  intros Hi Hen Ht Hb Hc Hlang.
  destruct (i18n_block_fallback en title brand country lang Hlang)
    as (sections & fields & Hs & Hf & Hblock & _).
  assert (Hall : forall l, l ∈ [py "ru"; py "ua"; py "de"; py "es"; py "it";
                                py "hr"; py "hu"] ->
                 exists b, i18n_block en title brand country l = Some b).
  { intros l Hl. apply elem_of_cons in Hl as [->|Hl];
      [apply i18n_block_total; left|].
    apply elem_of_cons in Hl as [->|Hl];
      [apply i18n_block_total; right; left|].
    destruct (i18n_block_fallback en title brand country l Hl)
      as (s & f & _ & _ & H & _). eexists. exact H. }
  unfold generate_i18n_from_en.
  rewrite Hi. cbn [mbind option_bind as_dict].
  rewrite Hen. cbn [mbind option_bind as_dict].
  rewrite Hb, Hc. cbn [mbind option_bind as_str].
  rewrite Ht. cbn [mbind option_bind as_str].
  set (f := fun l : pystr => _).
  set (langs := [py "ru"; py "ua"; py "de"; py "es"; py "it"; py "hr";
                 py "hu"]) in *.
  assert (Hnd : NoDup langs)
    by (apply (bool_decide_eq_true_1 (NoDup langs)); vm_compute; reflexivity).
  assert (Hm : exists blocks, mapM f langs = Some blocks).
  { clear Hnd. induction langs as [|l langs IH].
    - exists []. reflexivity.
    - destruct IH as [bs Hbs]; [intros l' Hl'; apply Hall; right; exact Hl'|].
      destruct (Hall l) as [b Hb']; [left|].
      exists ((l, JObj b) :: bs). apply mapM_Some. constructor.
      + unfold f. rewrite Hb'. reflexivity.
      + apply mapM_Some. exact Hbs. }
  destruct Hm as [blocks Hm]. rewrite Hm. cbn [mbind option_bind].
  eexists _, sections, fields. split; [reflexivity|].
  split; [exact Hs|]. split; [exact Hf|].
  rewrite jpath_2. cbn [jget mbind option_bind].
  rewrite alookup_dict_set_eq. cbn [jget mbind option_bind].
  destruct (alookup_rev_keyed f langs blocks) as [Hin _]; [|exact Hm|exact Hnd|].
  { intros k [k' v] H. unfold f in H.
    destruct (i18n_block en title brand country k); [|discriminate H].
    injection H as <- _. reflexivity. }
  destruct (Hin lang) as (v & Hv & Hl).
  { unfold fallback_langs in Hlang. unfold langs. do 2 right. exact Hlang. }
  rewrite (alookup_dict_update_hit _ _ _ _ Hl).
  unfold f in Hv. rewrite Hblock in Hv. injection Hv as <-. reflexivity.
Qed.

(** X28: the earlier localizer completes on a record whose English block has
    a title, and for German, Spanish, Italian, Croatian and Hungarian it
    stores the English block with the English texts assigned again, under the
    section titles of the language: the description of such a block is the
    English sentence. *)
Theorem fallback_languages_get_english (data i18n en : dict)
  (title brand country lang : pystr) :
  alookup (py "i18n") data = Some (JObj i18n) ->
  alookup (py "en") i18n = Some (JObj en) ->
  alookup (py "title") en = Some (JStr title) ->
  dict_get (py "brand") (JStr []) data = JStr brand ->
  dict_get (py "country_of_origin") (JStr []) data = JStr country ->
  lang ∈ fallback_langs ->
  exists (data' : dict) (sections : json) (fields : dict),
    generate_i18n_from_en data = Some data'
    /\ alookup lang SECTION_TITLES = Some sections
    /\ en_values title brand country = Some fields
    /\ jpath (JObj data') [py "i18n"; lang]
       = Some (JObj (dict_update en
                       (dict_set (py "sections") sections fields)))
    /\ jpath (JObj data') [py "i18n"; lang; py "description"]
       = Some (JStr (title
                     ++ py " is produced using traditional methods. Made in "
                     ++ country
                     ++ py ", it reflects the heritage and expertise of the brand.")).
Proof.
  intros Hi Hen Ht Hb Hc Hlang.
  destruct (generate_i18n_from_en_fallback data i18n en title brand country
              lang Hi Hen Ht Hb Hc Hlang)
    as (data' & sections & fields & Hg & Hs & Hf & Hp).
  exists data', sections, fields.
  split; [exact Hg|]. split; [exact Hs|]. split; [exact Hf|].
  split; [exact Hp|].
  destruct (i18n_block_fallback en title brand country lang Hlang)
    as (s' & f' & Hs' & Hf' & _ & Hd & _).
  assert (s' = sections) as -> by congruence.
  assert (f' = fields) as -> by congruence.
  change [py "i18n"; lang; py "description"]
    with ([py "i18n"; lang] ++ [py "description"]).
  rewrite jpath_snoc, Hp. cbn [mbind option_bind].
  cbn [jget].
  apply alookup_dict_update_hit. exact Hd.
Qed.

Lemma as_str_inv (x : json) (s : pystr) : as_str x = Some s -> x = JStr s.
Proof. destruct x; cbn [as_str]; congruence. Qed.

(** X29: on a record whose English block is the one the Content Generator
    makes for it, the earlier localizer completes, and the block it stores
    for German, Spanish, Italian, Croatian and Hungarian is the English block
    with the section titles of the language: every text stays English. *)
Theorem generated_english_is_copied (data i18n en_block en : dict)
  (lang : pystr) :
  generate_en_content data en_block = Some en ->
  alookup (py "i18n") data = Some (JObj i18n) ->
  alookup (py "en") i18n = Some (JObj en) ->
  lang ∈ fallback_langs ->
  exists (data' : dict) (sections : json),
    generate_i18n_from_en data = Some data'
    /\ alookup lang SECTION_TITLES = Some sections
    /\ jpath (JObj data') [py "i18n"; lang]
       = Some (JObj (dict_set (py "sections") sections en)).
Proof.
  intros Hgen Hi Hen Hlang.
  unfold generate_en_content, en_fields in Hgen.
  destruct (as_str (dict_get (py "name") (JStr []) data)) as [name|];
    cbn [mbind option_bind] in Hgen; [|discriminate Hgen].
  destruct (as_str (py_or (JStr (py_strip name))
                      (dict_get (py "brand") (JStr []) data)))
    as [title|]; cbn [mbind option_bind] in Hgen; [|discriminate Hgen].
  destruct (as_str (dict_get (py "brand") (JStr []) data)) as [brand|] eqn:Eb;
    cbn [mbind option_bind] in Hgen; [|discriminate Hgen].
  destruct (as_str (dict_get (py "country_of_origin") (JStr []) data))
    as [country|] eqn:Ec;
    cbn [mbind option_bind] in Hgen; [|discriminate Hgen].
  destruct (en_values title brand country) as [F|] eqn:EF;
    cbn [mbind option_bind] in Hgen; [|discriminate Hgen].
  injection Hgen as Hgen. apply as_str_inv in Eb, Ec.
  destruct (i18n_block_fallback en title brand country lang Hlang)
    as (s' & F' & Hs' & HF' & _ & _ & Hkeys & Htitle).
  assert (F' = F) as -> by congruence.
  assert (Hnd : NoDup (dict_keys F)).
  { rewrite Hkeys. apply (bool_decide_eq_true_1 (NoDup generated_keys)).
    vm_compute. reflexivity. }
  assert (Ht : alookup (py "title") en = Some (JStr title))
    by (rewrite <- Hgen; apply alookup_dict_update_hit; exact Htitle).
  destruct (generate_i18n_from_en_fallback data i18n en title brand country
              lang Hi Hen Ht Eb Ec Hlang)
    as (data' & sections & fields & Hg & Hs & Hf & Hp).
  assert (fields = F) as -> by congruence.
  exists data', sections. split; [exact Hg|]. split; [exact Hs|].
  rewrite Hp. do 2 f_equal.
  assert (Hhas : dict_has (py "sections") F = true).
  { apply elem_of_dict_keys. rewrite Hkeys.
    apply (bool_decide_eq_true_1 (py "sections" ∈ generated_keys)).
    vm_compute. reflexivity. }
  apply dict_update_but_one.
  - rewrite dict_keys_set, Hhas. exact Hnd.
  - apply dict_set_elem.
  - intros k' v' Hin Hne. apply elem_of_dict_set in Hin as [Hin|Hin];
      [congruence|].
    rewrite <- Hgen. apply alookup_update_NoDup; assumption.
Qed.

End earlier_localizer.

Lemma fallback_languages_get_english_witness :
  exists (data' : dict) (sections : json) (fields : dict),
    content_generators.generate_i18n_from_en fields_short_history = Some data'
    /\ alookup (py "it") content_generators.SECTION_TITLES = Some sections
    /\ content_generators.en_values (py "Leffe Blonde") (py "LEFFE")
         (py "Belgium") = Some fields
    /\ jpath (JObj data') [py "i18n"; py "it"]
       = Some (JObj (dict_update
                       [ (py "title", JStr (py "Leffe Blonde"));
                         (py "history",
                          JArr [ JObj [ (py "year", JStr (py "1240"));
                                        (py "text",
                                         JStr (py "Abbey of Leffe.")) ] ]) ]
                       (dict_set (py "sections") sections fields)))
    /\ jpath (JObj data') [py "i18n"; py "it"; py "description"]
       = Some (JStr (py "Leffe Blonde"
                     ++ py " is produced using traditional methods. Made in "
                     ++ py "Belgium"
                     ++ py ", it reflects the heritage and expertise of the brand.")).
Proof.
  eapply (fallback_languages_get_english fields_short_history _ _
            (py "Leffe Blonde") (py "LEFFE") (py "Belgium") (py "it")).
  - vm_compute. reflexivity.
  - vm_compute. reflexivity.
  - vm_compute. reflexivity.
  - vm_compute. reflexivity.
  - vm_compute. reflexivity.
  - apply (bool_decide_eq_true_1 (py "it" ∈ fallback_langs)).
    vm_compute. reflexivity.
Defined.

(** A record with the English block the Content Generator makes for it. *)
Lemma generated_english_is_copied_witness :
  let product := [ (py "name", JStr (py "Olives")); (py "brand", JStr (py "KRINOS")) ] in
  exists (en data' : dict) (sections : json),
    content_generators.generate_en_content product [] = Some en
    /\ content_generators.generate_i18n_from_en
         (dict_set (py "i18n") (JObj [(py "en", JObj en)]) product)
       = Some data'
    /\ alookup (py "hu") content_generators.SECTION_TITLES = Some sections
    /\ jpath (JObj data') [py "i18n"; py "hu"]
       = Some (JObj (dict_set (py "sections") sections en)).
Proof.
  intros product.
  destruct (content_generators.generate_en_content product []) as [en|] eqn:E;
    [|vm_compute in E; discriminate E].
  destruct (generated_english_is_copied
              (dict_set (py "i18n") (JObj [(py "en", JObj en)]) product)
              [(py "en", JObj en)] [] en (py "hu"))
    as (data' & sections & H).
  - exact E.
  - vm_compute. reflexivity.
  - vm_compute. reflexivity.
  - apply (bool_decide_eq_true_1 (py "hu" ∈ fallback_langs)).
    vm_compute. reflexivity.
  - exists en, data', sections. split; [reflexivity|exact H].
Defined.
